(** * SLR-Backend: the papers API, its filter service and its data service

    A shallow embedding of [services/papers/filter_service.py],
    [services/papers/data_service.py] and [api/papers/routes.py], and the
    properties of the design document that concern them.

    Conventions of the embedding.
    - A Python [str] is a [list ascii]; every character stands for the code
      point of the same number (0 to 255).  String literals are written as
      Rocq strings and coerced.
    - [re] patterns are values of type [regex]; [re.search] is decided by
      derivatives, and its meaning is given by the relation [matches].
    - A pandas DataFrame is the list of its rows, each with its index label.
      Frames are Python objects: they live in a store, and functions receive
      and return references to them.
    - An exception is a value of [exn]; code that can raise returns
      [Result]. *)

From Stdlib Require Import ZArith Ascii String List Lia.
From Stdlib Require QArith Qround.
From stdpp Require Import base tactics option list gmap strings sorting.

Local Open Scope list_scope.

(** ** Python strings *)

Module Py.

Abbreviation str := (list ascii).

Definition lit (s : string) : str := list_ascii_of_string s.
Coercion lit : string >-> list.

(** [str.isspace] on one character, which is also what [\s] matches in a
    [str] pattern: the ASCII white space 9 to 13 and 28 to 32, and, below
    256, NEL (133) and the no-break space (160). *)
Definition isspace (c : ascii) : bool :=
  let n := nat_of_ascii c in
  ((9 <=? n) && (n <=? 13) || (28 <=? n) && (n <=? 32)
   || (n =? 133) || (n =? 160))%nat.

Definition ascii_eqb (a b : ascii) : bool := Ascii.eqb a b.

(** [a == b] on strings. *)
Fixpoint str_eqb (a b : str) : bool :=
  match a, b with
  | [], [] => true
  | x :: a', y :: b' => ascii_eqb x y && str_eqb a' b'
  | _, _ => false
  end.

(** [hay.startswith(needle)]. *)
Fixpoint startswith (needle hay : str) : bool :=
  match needle, hay with
  | [], _ => true
  | x :: n', y :: h' => ascii_eqb x y && startswith n' h'
  | _ :: _, [] => false
  end.

(** [needle in hay]. *)
Fixpoint contains (needle hay : str) : bool :=
  startswith needle hay ||
  match hay with
  | [] => false
  | _ :: h' => contains needle h'
  end.

(** [sep.join(parts)]. *)
Fixpoint join (sep : str) (parts : list str) : str :=
  match parts with
  | [] => []
  | [p] => p
  | p :: ps => p ++ sep ++ join sep ps
  end.

(** [s.lstrip()], [s.rstrip()] and [s.strip()]. *)
Fixpoint lstrip (s : str) : str :=
  match s with
  | c :: s' => if isspace c then lstrip s' else s
  | [] => []
  end.

Definition rstrip (s : str) : str := rev (lstrip (rev s)).

Definition strip (s : str) : str := rstrip (lstrip s).

(** [s.split(sep)] for a one-character separator: every occurrence cuts, and
    empty pieces are kept. *)
Fixpoint split_on (sep : ascii) (s : str) : list str :=
  match s with
  | [] => [[]]
  | c :: s' =>
      if ascii_eqb c sep then [] :: split_on sep s'
      else match split_on sep s' with
           | p :: ps => (c :: p) :: ps
           | [] => [[c]]
           end
  end.

(** [s.split()]: the maximal runs of characters that are not white space.
    [word] is the run being read, reversed. *)
Fixpoint split_ws_aux (word : str) (s : str) : list str :=
  match s with
  | [] => match word with [] => [] | _ => [rev word] end
  | c :: s' =>
      if isspace c
      then match word with
           | [] => split_ws_aux [] s'
           | _ => rev word :: split_ws_aux [] s'
           end
      else split_ws_aux (c :: word) s'
  end.

Definition split_ws (s : str) : list str := split_ws_aux [] s.

(** [s[:n]] for [n >= 0]. *)
Definition prefix_upto (n : nat) (s : str) : str := take n s.

(** The order of [sorted] on strings: code point by code point. *)
Fixpoint str_leb (a b : str) : bool :=
  match a, b with
  | [], _ => true
  | _ :: _, [] => false
  | x :: a', y :: b' =>
      let m := nat_of_ascii x in
      let n := nat_of_ascii y in
      (m <? n)%nat || ((m =? n)%nat && str_leb a' b')
  end.

Definition str_le (a b : str) : Prop := Is_true (str_leb a b).

#[export] Instance str_le_dec a b : Decision (str_le a b) := _.

End Py.
Import Py.

(** ** Exceptions *)

(** The exceptions of Python that the services can meet, and [Unbound] for
    a reference that has no object, which the services never hold. *)
Inductive exn :=
| IndexError
| ValueError
| ZeroDivisionError
| HTTPException (status_code : nat) (detail : str)
| Unbound.

Inductive Result (A : Type) :=
| Ok (a : A)
| Raise (e : exn).
Arguments Ok {A} a.
Arguments Raise {A} e.

(** ** Regular expressions: the fragment of [re] the services use *)

Module Re.

Inductive regex :=
| Void                         (* matches nothing; only derivatives build it *)
| Eps                          (* the empty pattern *)
| Cls (p : ascii -> bool)      (* one character of a class *)
| Cat (r1 r2 : regex)
| Alt (r1 r2 : regex)
| Star (r : regex).

(** A literal character, a literal string (what [re.escape] makes of it),
    the class of the two quotation marks and the class \s. *)
Definition Chr (c : ascii) : regex := Cls (ascii_eqb c).

Fixpoint Lit (s : str) : regex :=
  match s with
  | [] => Eps
  | c :: s' => Cat (Chr c) (Lit s')
  end.

Definition squote : ascii := "'"%char.
Definition dquote : ascii := ascii_of_nat 34.

Definition is_quote (c : ascii) : bool :=
  ascii_eqb c squote || ascii_eqb c dquote.

Definition Quote : regex := Cls is_quote.
Definition Space : regex := Cls isspace.

(** The words a pattern matches. *)
Inductive matches : regex -> str -> Prop :=
| m_eps : matches Eps []
| m_cls p c : p c = true -> matches (Cls p) [c]
| m_cat r1 r2 s1 s2 : matches r1 s1 -> matches r2 s2 -> matches (Cat r1 r2) (s1 ++ s2)
| m_alt_l r1 r2 s : matches r1 s -> matches (Alt r1 r2) s
| m_alt_r r1 r2 s : matches r2 s -> matches (Alt r1 r2) s
| m_star_nil r : matches (Star r) []
| m_star_app r s1 s2 : matches r s1 -> matches (Star r) s2 -> matches (Star r) (s1 ++ s2).

Fixpoint nullable (r : regex) : bool :=
  match r with
  | Void => false
  | Eps => true
  | Cls _ => false
  | Cat r1 r2 => nullable r1 && nullable r2
  | Alt r1 r2 => nullable r1 || nullable r2
  | Star _ => true
  end.

Fixpoint deriv (c : ascii) (r : regex) : regex :=
  match r with
  | Void => Void
  | Eps => Void
  | Cls p => if p c then Eps else Void
  | Cat r1 r2 =>
      if nullable r1 then Alt (Cat (deriv c r1) r2) (deriv c r2)
      else Cat (deriv c r1) r2
  | Alt r1 r2 => Alt (deriv c r1) (deriv c r2)
  | Star r1 => Cat (deriv c r1) (Star r1)
  end.

(** [re.match(r, s)] as a truth value: some prefix of [s] matches. *)
Fixpoint match_prefix (r : regex) (s : str) : bool :=
  nullable r ||
  match s with
  | [] => false
  | c :: s' => match_prefix (deriv c r) s'
  end.

(** [re.search(r, s)] as a truth value: a match starts somewhere in [s]. *)
Fixpoint search (r : regex) (s : str) : bool :=
  match_prefix r s ||
  match s with
  | [] => false
  | _ :: s' => search r s'
  end.

End Re.
Import Re.

(** ** Rows, frames and the object store *)

(** A cell of the [publication_year] column as [pd.read_sql] delivers it: a
    number, [None], or the NaN that stands for NULL in a numeric column. *)
Inductive year_cell :=
| YearNone
| YearNaN
| YearNum (y : Z).

(** One row of table [ibd_rcts], with the seven columns both queries
    select.  A text cell is [None] for NULL. *)
Record Row := mkRow {
  work_id : option str;
  title : option str;
  abstract : option str;
  doi : option str;
  authorships : option str;
  publication_year : year_cell;
  output : option str
}.

(** A DataFrame: its rows in order, each with its index label.  A frame with
    rows carries the seven columns; [pd.DataFrame()] is the frame without
    rows. *)
Abbreviation DataFrame := (list (nat * Row)).

Definition pd_DataFrame : DataFrame := [].

(** [df.empty] and [len(df)]. *)
Definition df_empty (df : DataFrame) : bool :=
  match df with [] => true | _ => false end.

Definition df_len (df : DataFrame) : Z := Z.of_nat (length df).

(** The frame [pd.read_sql] builds from the rows of a result set: the
    default index 0, 1, 2, ... *)
Definition read_sql (rows : list Row) : DataFrame :=
  imap (fun position row => (position, row)) rows.

(** [df.iloc[positions]] for a list of positions: the rows at these
    positions, in the order asked for; a position outside the frame raises
    [IndexError]. *)
Fixpoint iloc (df : DataFrame) (positions : list nat) : Result DataFrame :=
  match positions with
  | [] => Ok []
  | p :: ps =>
      match df !! p with
      | None => Raise IndexError
      | Some entry =>
          match iloc df ps with
          | Ok rest => Ok (entry :: rest)
          | Raise e => Raise e
          end
      end
  end.

(** [str(row.get(column, ''))] for a text cell. *)
Definition str_of_cell (cell : option str) : str :=
  match cell with
  | Some s => s
  | None => "None"
  end.

(** Truth value of a string. *)
Definition nonempty (s : str) : bool :=
  match s with [] => false | _ => true end.

(** The store of frame objects, and computations that read it, allocate in
    it and may raise. *)
Definition ref := nat.

Abbreviation Store := (list DataFrame).

Definition Run (A : Type) : Type := Store -> Result (A * Store).

Definition ret {A} (a : A) : Run A := fun h => Ok (a, h).

Definition bind {A B} (c : Run A) (k : A -> Run B) : Run B :=
  fun h => match c h with
           | Ok (a, h') => k a h'
           | Raise e => Raise e
           end.

Notation "x <- c ;; k" := (bind c (fun x => k))
  (at level 100, c at next level, right associativity).

Definition raise {A} (e : exn) : Run A := fun _ => Raise e.

Definition lift {A} (r : Result A) : Run A :=
  fun h => match r with Ok a => Ok (a, h) | Raise e => Raise e end.

(** A new object; its reference is the next free one. *)
Definition alloc (df : DataFrame) : Run ref :=
  fun h => Ok (length h, h ++ [df]).

(** The frame behind a reference.  Every reference the services hold was
    allocated, so the second case never runs. *)
Definition deref (r : ref) : Run DataFrame :=
  fun h => match h !! r with
           | Some df => Ok (df, h)
           | None => Raise Unbound
           end.

(** [try: body except Exception: handler]. *)
Definition try_catch {A} (body : Run A) (handler : Run A) : Run A :=
  fun h => match body h with
           | Ok x => Ok x
           | Raise _ => handler h
           end.

(** [try: body except HTTPException: raise except Exception: handler]. *)
Definition try_except {A} (body : Run A) (handler : Run A) : Run A :=
  fun h => match body h with
           | Ok x => Ok x
           | Raise (HTTPException c d) => Raise (HTTPException c d)
           | Raise _ => handler h
           end.

(** ** services/papers/filter_service.py *)

Module FilterService.

(** The pattern of one key and one value: a quotation mark of either kind,
    the key, a quotation mark, a colon, any white space, a quotation mark,
    the value, a quotation mark. *)
Definition kv_pattern (key value : str) : regex :=
  Cat Quote (Cat (Lit key) (Cat Quote (Cat (Chr ":")
    (Cat (Star Space) (Cat Quote (Cat (Lit value) Quote)))))).

Definition code_pattern (code : str) : regex := kv_pattern "code" code.
Definition group_pattern (group : str) : regex := kv_pattern "group" group.

(** The loop shared by the three extractors: the labels of the patterns
    found in the text, in table order. *)
Fixpoint extract (patterns : list (regex * str)) (output : str) : list str :=
  match patterns with
  | [] => []
  | (pattern, label) :: rest =>
      if search pattern output then label :: extract rest output
      else extract rest output
  end.

Definition study_type_patterns : list (regex * str) :=
  [ (code_pattern "RCT", lit "Randomized Controlled Trial (RCT)");
    (code_pattern "CR", lit "Case Report (CR)");
    (code_pattern "CS", lit "Case Series (CS)");
    (code_pattern "XS", lit "Cross-Sectional Study (XS)");
    (code_pattern "CCS", lit "Case-Control Study (CCS)");
    (code_pattern "COH", lit "Cohort Study (COH)");
    (code_pattern "SR", lit "Systematic Review (SR)");
    (code_pattern "MA", lit "Meta-Analysis (MA)") ].

Definition phase_patterns : list (regex * str) :=
  [ (code_pattern "P1", lit "Phase I (P1)");
    (code_pattern "P2", lit "Phase II (P2)");
    (code_pattern "P3", lit "Phase III (P3)");
    (code_pattern "P4", lit "Phase IV (P4)") ].

Definition pharma_group_patterns : list (regex * str) :=
  [ (group_pattern "Medical Affairs", lit "Medical Affairs");
    (group_pattern "Commercial/Market Access", lit "Commercial/Market Access");
    (group_pattern "Pharmacovigilance", lit "Pharmacovigilance");
    (group_pattern "Clinical Development / R&D", lit "Clinical Development / R&D");
    (group_pattern "Regulatory Affairs", lit "Regulatory Affairs");
    (group_pattern "HEOR (Health Economics)", lit "HEOR (Health Economics)") ].

Definition _extract_study_types (output : str) : list str :=
  extract study_type_patterns output.

Definition _extract_phases (output : str) : list str :=
  extract phase_patterns output.

Definition _extract_pharma_groups (output : str) : list str :=
  extract pharma_group_patterns output.

Fixpoint _matches_study_types (output : str) (study_types : list str) : bool :=
  match study_types with
  | [] => false
  | study_type :: rest =>
      if contains "RCT" study_type && search (code_pattern "RCT") output then true
      else if contains "Case Report" study_type && search (code_pattern "CR") output then true
      else if contains "Case Series" study_type && search (code_pattern "CS") output then true
      else if contains "Cross-Sectional" study_type && search (code_pattern "XS") output then true
      else if contains "Case-Control" study_type && search (code_pattern "CCS") output then true
      else if contains "Cohort" study_type && search (code_pattern "COH") output then true
      else if contains "Systematic Review" study_type && search (code_pattern "SR") output then true
      else if contains "Meta-Analysis" study_type && search (code_pattern "MA") output then true
      else _matches_study_types output rest
  end.

Fixpoint _matches_phases (output : str) (phases : list str) : bool :=
  match phases with
  | [] => false
  | phase :: rest =>
      if contains "Phase I" phase && search (code_pattern "P1") output then true
      else if contains "Phase II" phase && search (code_pattern "P2") output then true
      else if contains "Phase III" phase && search (code_pattern "P3") output then true
      else if contains "Phase IV" phase && search (code_pattern "P4") output then true
      else _matches_phases output rest
  end.

(** The pattern is built from [re.escape(group)], which matches [group]
    letter for letter. *)
Fixpoint _matches_pharma_groups (output : str) (pharma_groups : list str) : bool :=
  match pharma_groups with
  | [] => false
  | group :: rest =>
      if search (group_pattern group) output then true
      else _matches_pharma_groups output rest
  end.

(** [filters.get(category)] is true: the category is there and its list has
    a label. *)
Definition selected (filters : gmap string (list str)) (category : string)
  : option (list str) :=
  match filters !! category with
  | Some (label :: labels) => Some (label :: labels)
  | _ => None
  end.

Definition _matches_filters (output : str) (filters : gmap string (list str)) : bool :=
  if match selected filters "study_types" with
     | Some study_types => negb (_matches_study_types output study_types)
     | None => false
     end then false
  else if match selected filters "phases" with
          | Some phases => negb (_matches_phases output phases)
          | None => false
          end then false
  else if match selected filters "pharma_groups" with
          | Some pharma_groups => negb (_matches_pharma_groups output pharma_groups)
          | None => false
          end then false
  else true.

(** The loop of [apply_filters]: the index labels of the rows whose text is
    not empty and matches. *)
Fixpoint filtered_indices (df : DataFrame) (filters : gmap string (list str))
  : list nat :=
  match df with
  | [] => []
  | (idx, row) :: rest =>
      let output := str_of_cell (output row) in
      if nonempty output && _matches_filters output filters
      then idx :: filtered_indices rest filters
      else filtered_indices rest filters
  end.

(** [not filters] for a dict. *)
Definition dict_is_empty (filters : gmap string (list str)) : bool :=
  bool_decide (filters = ∅).

Definition apply_filters (df : ref) (filters : gmap string (list str)) : Run ref :=
  frame <- deref df ;;
  if df_empty frame || dict_is_empty filters then ret df
  else
    match filtered_indices frame filters with
    | [] => alloc pd_DataFrame
    | idx :: rest =>
        result <- lift (iloc frame (idx :: rest)) ;;
        alloc result
    end.

Record FilterOptions := mkFilterOptions {
  fo_study_types : list str;
  fo_phases : list str;
  fo_pharma_groups : list str
}.

(** [sorted(list(labels))] for a set of labels. *)
Definition sorted_list (labels : gset str) : list str :=
  merge_sort str_le (elements labels).

(** The loop of [get_filter_options], on the three sets. *)
Fixpoint collect (df : DataFrame) (acc : gset str * gset str * gset str)
  : gset str * gset str * gset str :=
  match df with
  | [] => acc
  | (_, row) :: rest =>
      let '(study_types, phases, pharma_groups) := acc in
      let output := str_of_cell (output row) in
      if nonempty output
      then collect rest
             (study_types ∪ list_to_set (_extract_study_types output),
              phases ∪ list_to_set (_extract_phases output),
              pharma_groups ∪ list_to_set (_extract_pharma_groups output))
      else collect rest acc
  end.

Definition get_filter_options (df : DataFrame) : FilterOptions :=
  if df_empty df then mkFilterOptions [] [] []
  else
    let '(study_types, phases, pharma_groups) := collect df (∅, ∅, ∅) in
    mkFilterOptions (sorted_list study_types) (sorted_list phases)
                    (sorted_list pharma_groups).

End FilterService.
Import FilterService.

(** ** services/papers/data_service.py *)

Module DataService.

(** What the service sees of PostgreSQL: whether [psycopg2.connect] and the
    query succeed, and the rows of table [ibd_rcts]. *)
Inductive db_status :=
| Up
| ConnectFails
| QueryFails.

Record Database := mkDatabase {
  status : db_status;
  ibd_rcts : list Row
}.

(** [WHERE title IS NOT NULL AND abstract IS NOT NULL]. *)
Definition has_title_and_abstract (row : Row) : bool :=
  match title row, abstract row with
  | Some _, Some _ => true
  | _, _ => false
  end.

(** [ORDER BY publication_year DESC]: NULL years first, then the later year
    first. *)
Definition year_desc (a b : Row) : Prop :=
  match publication_year a, publication_year b with
  | YearNum x, YearNum y => (y <= x)%Z
  | YearNum _, _ => False
  | _, _ => True
  end.

#[export] Instance year_desc_dec a b : Decision (year_desc a b).
Proof.
  unfold year_desc.
  destruct (publication_year a), (publication_year b); apply _.
Defined.

Definition select_all (table : list Row) : list Row :=
  merge_sort year_desc (List.filter has_title_and_abstract table).

(** [WHERE work_id = %s]. *)
Definition has_work_id (id : str) (row : Row) : bool :=
  match work_id row with
  | Some w => str_eqb w id
  | None => false
  end.

Definition select_by_id (table : list Row) (id : str) : list Row :=
  List.filter (has_work_id id) table.

(** Both fetchers wrap the connection and the query in
    [try: ... except Exception]. *)
Definition get_all_papers (db : Database) : Run ref :=
  match status db with
  | Up => alloc (read_sql (select_all (ibd_rcts db)))
  | ConnectFails | QueryFails => alloc pd_DataFrame
  end.

Definition get_paper_by_id (db : Database) (id : str) : option Row :=
  match status db with
  | Up =>
      match read_sql (select_by_id (ibd_rcts db) id) with
      | (_, row) :: _ => Some row
      | [] => None
      end
  | ConnectFails | QueryFails => None
  end.

(** [test_connection], without its message. *)
Definition test_connection (db : Database) : bool :=
  match status db with
  | ConnectFails => false
  | _ => true
  end.

(** [re.sub(r'<[^>]*>', '', text)]: a [<] opens a tag when a [>] follows
    somewhere; the tag runs to the first [>]. *)
Definition has_gt (s : str) : bool := existsb (ascii_eqb ">") s.

Fixpoint remove_tags (in_tag : bool) (s : str) : str :=
  match s with
  | [] => []
  | c :: s' =>
      if in_tag then remove_tags (negb (ascii_eqb c ">")) s'
      else if ascii_eqb c "<" && has_gt s' then remove_tags true s'
      else c :: remove_tags false s'
  end.

Definition _clean_text (text : str) : str :=
  if negb (nonempty text) then []
  else strip (join " " (split_ws (remove_tags false text))).

(** [re.split(r'(?<=[.!?]) +', text)]: a run of spaces cuts when the
    character before it ends a sentence.  The scanner remembers whether the
    last character ended a sentence, or whether it is inside a cut. *)
Inductive scan :=
| Plain
| AfterEnd
| InCut.

Definition ends_sentence (c : ascii) : bool :=
  ascii_eqb c "." || ascii_eqb c "!" || ascii_eqb c "?".

Definition push (c : ascii) (pieces : list str) : list str :=
  match pieces with
  | p :: ps => (c :: p) :: ps
  | [] => [[c]]
  end.

Fixpoint split_from (st : scan) (s : str) : list str :=
  match s with
  | [] => [[]]
  | c :: s' =>
      if ascii_eqb c " " then
        match st with
        | AfterEnd => [] :: split_from InCut s'
        | InCut => split_from InCut s'
        | Plain => push c (split_from Plain s')
        end
      else push c (split_from (if ends_sentence c then AfterEnd else Plain) s')
  end.

Definition split_sentences (text : str) : list str := split_from Plain text.

Definition _truncate_abstract (abstract : str) : option str :=
  if negb (nonempty abstract) then None
  else
    let clean_abstract := _clean_text abstract in
    let sentences := split_sentences clean_abstract in
    if (length sentences <=? 3)%nat then Some clean_abstract
    else Some (join " " (take 3 sentences) ++ "...").

(** [raw_auth] is the cell itself, [None] for NULL.  Nothing in the [try]
    block can raise on a string. *)
Definition _parse_authors (raw_auth : option str) : option str :=
  match raw_auth with
  | None | Some [] => None
  | Some raw =>
      let authors_str :=
        if contains ";" raw
        then join ", " (List.filter nonempty (map strip (split_on ";" raw)))
        else raw in
      if (200 <? length authors_str)%nat
      then Some (take 197 authors_str ++ "...")
      else Some authors_str
  end.

(** The dict [format_paper] builds.  The last two keys exist in the detail
    view only. *)
Record Paper := mkPaper {
  p_work_id : str;
  p_title : str;
  p_doi : option str;
  p_authors : option str;
  p_publication_year : option Z;
  p_abstract : option str;
  p_authorships : option str;
  p_output : option str
}.

(** [str(cell) if cell else None]. *)
Definition str_if_true (cell : option str) : option str :=
  match cell with
  | Some (c :: s) => Some (c :: s)
  | _ => None
  end.

(** [int(cell) if cell else None]: zero and [None] are false, NaN is true
    and [int] refuses it. *)
Definition int_if_true (cell : year_cell) : Result (option Z) :=
  match cell with
  | YearNone => Ok None
  | YearNaN => Raise ValueError
  | YearNum y => if (y =? 0)%Z then Ok None else Ok (Some y)
  end.

Definition format_paper (row : Row) (detail_view : bool) : Result Paper :=
  match int_if_true (publication_year row) with
  | Raise e => Raise e
  | Ok year =>
      let paper := mkPaper (str_of_cell (work_id row))
                           (_clean_text (str_of_cell (title row)))
                           (str_if_true (doi row))
                           (_parse_authors (authorships row))
                           year in
      if detail_view
      then Ok (paper (Some (_clean_text (str_of_cell (abstract row))))
                     (str_if_true (authorships row))
                     (str_if_true (output row)))
      else Ok (paper (_truncate_abstract (str_of_cell (abstract row)))
                     None None)
  end.

End DataService.

(** ** api/papers/routes.py *)

Module Routes.

Import DataService.

Record Pagination := mkPagination {
  page : Z;
  limit : Z;
  total : Z;
  total_pages : Z;
  has_next : bool;
  has_previous : bool
}.

Record PaperSummary := mkPaperSummary {
  s_work_id : str;
  s_title : str;
  s_abstract : option str;
  s_doi : option str;
  s_authors : option str;
  s_publication_year : option Z
}.

Record PaginatedResponse := mkPaginatedResponse {
  data : list PaperSummary;
  pagination : Pagination;
  filters_applied : gmap string (list str)
}.

Record FilterRequest := mkFilterRequest {
  r_study_types : option (list str);
  r_phases : option (list str);
  r_pharma_groups : option (list str);
  r_page : Z;
  r_limit : Z
}.

(** The [PaperSummary] made of the dict: it has no field for the last two
    keys. *)
Definition summary_of (paper : Paper) : PaperSummary :=
  mkPaperSummary (p_work_id paper) (p_title paper) (p_abstract paper)
                 (p_doi paper) (p_authors paper) (p_publication_year paper).

(** [a / b] on ints is the double nearest to the quotient, ties going to
    the even significand.  A double is kept as the rational it stands for;
    the exponent range of doubles is not modelled (no overflow, no
    subnormals). *)

(** The integer nearest to [n / d], ties to even, for [d > 0]. *)
Definition round_half_even (n d : Z) : Z :=
  let f := (n / d)%Z in
  let r2 := (2 * (n mod d))%Z in
  if (r2 <? d)%Z then f
  else if (d <? r2)%Z then (f + 1)%Z
  else if Z.even f then f else (f + 1)%Z.

(** The binary exponent of [a / b], for [a, b > 0]: the [e] with
    [2 ^ e <= a / b < 2 ^ (e + 1)]. *)
Definition quotient_log2 (a b : Z) : Z :=
  let lg := (Z.log2 a - Z.log2 b)%Z in
  if (a * 2 ^ Z.max 0 (- lg) <? b * 2 ^ Z.max 0 lg)%Z then (lg - 1)%Z else lg.

(** The double nearest to [a / b], for [a, b > 0]: the quotient is scaled
    by [2 ^ s] into the range of 53-bit significands, rounded there, and
    scaled back. *)
Definition double_of_quotient (a b : Z) : QArith_base.Q :=
  let s := (52 - quotient_log2 a b)%Z in
  let m := round_half_even (a * 2 ^ Z.max 0 s) (b * 2 ^ Z.max 0 (- s)) in
  QArith_base.Qmake (m * 2 ^ Z.max 0 (- s)) (Z.to_pos (2 ^ Z.max 0 s)).

Definition true_div (a b : Z) : Result QArith_base.Q :=
  if (b =? 0)%Z then Raise ZeroDivisionError
  else if (a =? 0)%Z then Ok (QArith_base.inject_Z 0)
  else
    let q := double_of_quotient (Z.abs a) (Z.abs b) in
    if (Z.sgn a * Z.sgn b <? 0)%Z then Ok (QArith_base.Qopp q) else Ok q.

(** [math.ceil] of a double. *)
Definition math_ceil (q : QArith_base.Q) : Z := Qround.Qceiling q.

(** [df.iloc[start:stop]]: a slice never raises; a negative bound counts
    from the end, and both bounds are cut to the frame. *)
Definition slice_bound (len i : Z) : Z :=
  if (i <? 0)%Z then Z.max 0 (i + len) else Z.min i len.

Definition iloc_slice (df : DataFrame) (start stop : Z) : DataFrame :=
  let len := df_len df in
  let a := slice_bound len start in
  let b := slice_bound len stop in
  take (Z.to_nat (b - a)) (drop (Z.to_nat a) df).

(** The loop that formats the rows of the page. *)
Fixpoint format_rows (page_data : DataFrame) : Result (list PaperSummary) :=
  match page_data with
  | [] => Ok []
  | (_, row) :: rest =>
      match format_paper row false with
      | Raise e => Raise e
      | Ok paper_data =>
          match format_rows rest with
          | Raise e => Raise e
          | Ok papers => Ok (summary_of paper_data :: papers)
          end
      end
  end.

(** [filters_applied or {}]. *)
Definition or_empty (filters_applied : option (gmap string (list str)))
  : gmap string (list str) :=
  match filters_applied with
  | Some filters => if dict_is_empty filters then ∅ else filters
  | None => ∅
  end.

Definition _create_paginated_response (papers_df : ref) (page limit : Z)
    (filters_applied : option (gmap string (list str))) : Run PaginatedResponse :=
  frame <- deref papers_df ;;
  if df_empty frame
  then ret (mkPaginatedResponse []
              (mkPagination page limit 0 0 false false)
              (or_empty filters_applied))
  else
    let total := df_len frame in
    quotient <- lift (true_div total limit) ;;
    let total_pages := math_ceil quotient in
    let start_idx := ((page - 1) * limit)%Z in
    let end_idx := (start_idx + limit)%Z in
    let page_data := iloc_slice frame start_idx end_idx in
    papers <- lift (format_rows page_data) ;;
    ret (mkPaginatedResponse papers
           (mkPagination page limit total total_pages
                         (page <? total_pages)%Z (1 <? page)%Z)
           (or_empty filters_applied)).

Definition _get_papers_data (db : Database) : Run ref :=
  try_catch (get_all_papers db)
            (raise (HTTPException 500 "Failed to fetch papers data")).

(** GET /api/papers/ *)
Definition get_papers (db : Database) (page limit : Z) : Run PaginatedResponse :=
  all_papers <- _get_papers_data db ;;
  _create_paginated_response all_papers page limit None.

(** One step of the dict comprehension of [filter_papers]: the key is kept
    when its value is true. *)
Definition keep_if_true (key : string) (value : option (list str))
    (filters : gmap string (list str)) : gmap string (list str) :=
  match value with
  | Some (label :: labels) => <[key := label :: labels]> filters
  | _ => filters
  end.

Definition request_filters (request : FilterRequest) : gmap string (list str) :=
  keep_if_true "pharma_groups" (r_pharma_groups request)
    (keep_if_true "phases" (r_phases request)
       (keep_if_true "study_types" (r_study_types request) ∅)).

(** POST /api/papers/filter *)
Definition filter_papers (db : Database) (request : FilterRequest)
  : Run PaginatedResponse :=
  try_except
    (all_papers <- _get_papers_data db ;;
     let filters := request_filters request in
     filtered_papers <- apply_filters all_papers filters ;;
     _create_paginated_response filtered_papers (r_page request)
                                (r_limit request) (Some filters))
    (raise (HTTPException 500 "Failed to filter papers")).

(** GET /api/papers/{work_id} *)
Definition get_paper_by_id (db : Database) (work_id : str) : Run Paper :=
  try_except
    (match DataService.get_paper_by_id db work_id with
     | None => raise (HTTPException 404 "Paper not found")
     | Some paper_row => lift (format_paper paper_row true)
     end)
    (raise (HTTPException 500 "Failed to get paper")).

(** The status the client sees: an [HTTPException] carries its own, and any
    other exception that leaves a handler is answered with 500. *)
Definition status_code {A} (outcome : Result A) : nat :=
  match outcome with
  | Ok _ => 200
  | Raise (HTTPException code _) => code
  | Raise _ => 500
  end.

(** GET /api/papers/filter-options *)
Definition get_filter_options (db : Database) : Run FilterOptions :=
  try_except
    (all_papers <- _get_papers_data db ;;
     frame <- deref all_papers ;;
     ret (FilterService.get_filter_options frame))
    (raise (HTTPException 500 "Failed to get filter options")).

(** The dict of GET /api/papers/count: the key [filters_applied] is there
    only when filters were given. *)
Record CountResponse := mkCountResponse {
  c_total : Z;
  c_filters_applied : option (gmap string (list str))
}.

(** Truth value of an optional list. *)
Definition list_is_true (value : option (list str)) : bool :=
  match value with
  | Some (_ :: _) => true
  | _ => false
  end.

(** GET /api/papers/count *)
Definition get_papers_count (db : Database)
    (study_types phases pharma_groups : option (list str)) : Run CountResponse :=
  try_except
    (all_papers <- _get_papers_data db ;;
     if negb (list_is_true study_types || list_is_true phases
              || list_is_true pharma_groups)
     then
       frame <- deref all_papers ;;
       ret (mkCountResponse (df_len frame) None)
     else
       let filters :=
         keep_if_true "pharma_groups" pharma_groups
           (keep_if_true "phases" phases
              (keep_if_true "study_types" study_types ∅)) in
       filtered_papers <- apply_filters all_papers filters ;;
       frame <- deref filtered_papers ;;
       ret (mkCountResponse (df_len frame) (Some filters)))
    (raise (HTTPException 500 "Failed to get papers count")).

End Routes.

Import DataService.

(** ** Vocabulary of the statements *)

(** A key and its value as a blob may spell them: four quotation marks
    [q1] to [q4], and the white space [ws] between the colon and the
    value. *)
Definition kv_text (q1 : ascii) (key : str) (q2 : ascii) (ws : str)
    (q3 : ascii) (value : str) (q4 : ascii) : str :=
  [q1] ++ key ++ [q2] ++ [":"%char] ++ ws ++ [q3] ++ value ++ [q4].

(** The known codes: category, key, value and display label, as the three
    pattern tables list them. *)
Record facet := mkFacet {
  f_category : string;
  f_key : str;
  f_code : str;
  f_label : str
}.

Definition vocabulary : list facet :=
  [ mkFacet "study_types" "code" "RCT" "Randomized Controlled Trial (RCT)";
    mkFacet "study_types" "code" "CR" "Case Report (CR)";
    mkFacet "study_types" "code" "CS" "Case Series (CS)";
    mkFacet "study_types" "code" "XS" "Cross-Sectional Study (XS)";
    mkFacet "study_types" "code" "CCS" "Case-Control Study (CCS)";
    mkFacet "study_types" "code" "COH" "Cohort Study (COH)";
    mkFacet "study_types" "code" "SR" "Systematic Review (SR)";
    mkFacet "study_types" "code" "MA" "Meta-Analysis (MA)";
    mkFacet "phases" "code" "P1" "Phase I (P1)";
    mkFacet "phases" "code" "P2" "Phase II (P2)";
    mkFacet "phases" "code" "P3" "Phase III (P3)";
    mkFacet "phases" "code" "P4" "Phase IV (P4)";
    mkFacet "pharma_groups" "group" "Medical Affairs" "Medical Affairs";
    mkFacet "pharma_groups" "group" "Commercial/Market Access" "Commercial/Market Access";
    mkFacet "pharma_groups" "group" "Pharmacovigilance" "Pharmacovigilance";
    mkFacet "pharma_groups" "group" "Clinical Development / R&D" "Clinical Development / R&D";
    mkFacet "pharma_groups" "group" "Regulatory Affairs" "Regulatory Affairs";
    mkFacet "pharma_groups" "group" "HEOR (Health Economics)" "HEOR (Health Economics)" ].

Definition table_of (category : string) : list (regex * str) :=
  if String.eqb category "study_types" then study_type_patterns
  else if String.eqb category "phases" then phase_patterns
  else if String.eqb category "pharma_groups" then pharma_group_patterns
  else [].

(** The labels the extractor of a category derives from a blob, and the
    list of a category in the filter options. *)
Definition extracted (category : string) (output : str) : list str :=
  extract (table_of category) output.

Definition options_of (category : string) (options : FilterOptions) : list str :=
  if String.eqb category "study_types" then fo_study_types options
  else if String.eqb category "phases" then fo_phases options
  else if String.eqb category "pharma_groups" then fo_pharma_groups options
  else [].

(** The label test as the design document words it: the label is resolved
    back to its code, and the pattern of that one code is run on the blob. *)
Definition spec_matches_label (category : string) (label output : str) : bool :=
  existsb (fun f => String.eqb (f_category f) category
                    && str_eqb (f_label f) label
                    && search (kv_pattern (f_key f) (f_code f)) output)
          vocabulary.

(** The tests of the two chains of [if]s: the words looked for in a selected
    label, each with the code whose pattern is then searched. *)
Definition study_type_rules : list (str * str) :=
  [ (lit "RCT", lit "RCT"); (lit "Case Report", lit "CR");
    (lit "Case Series", lit "CS"); (lit "Cross-Sectional", lit "XS");
    (lit "Case-Control", lit "CCS"); (lit "Cohort", lit "COH");
    (lit "Systematic Review", lit "SR"); (lit "Meta-Analysis", lit "MA") ].

Definition phase_rules : list (str * str) :=
  [ (lit "Phase I", lit "P1"); (lit "Phase II", lit "P2");
    (lit "Phase III", lit "P3"); (lit "Phase IV", lit "P4") ].

Definition rule_fires (output label : str) (rule : str * str) : bool :=
  contains (fst rule) label && search (code_pattern (snd rule)) output.

(** The matcher [_matches_filters] calls for a category; a key it does not
    know constrains nothing. *)
Definition matches_category (category : string) (output : str)
    (labels : list str) : bool :=
  if String.eqb category "study_types" then _matches_study_types output labels
  else if String.eqb category "phases" then _matches_phases output labels
  else if String.eqb category "pharma_groups" then _matches_pharma_groups output labels
  else true.

(** The text both loops read from an entry of a frame, and the test of the
    loop of [apply_filters]. *)
Definition blob_of (entry : nat * Row) : str := str_of_cell (output (snd entry)).

Definition keeps (filters : gmap string (list str)) (entry : nat * Row) : bool :=
  nonempty (blob_of entry) && _matches_filters (blob_of entry) filters.

(** The default index: the label of every entry is its position. *)
Definition default_index (df : DataFrame) : Prop :=
  forall i e, df !! i = Some e -> fst e = i.

(** The three categories of a selection. *)
Definition categories : list string := ["study_types"; "phases"; "pharma_groups"]%string.

(** The string [_parse_authors] caps: the names rejoined when the raw string
    has a semicolon, the raw string otherwise. *)
Definition normalised (raw : str) : str :=
  if contains ";" raw
  then join ", " (List.filter nonempty (map strip (split_on ";" raw)))
  else raw.

Definition capped (s : str) : str :=
  if (200 <? length s)%nat then take 197 s ++ "..." else s.

(** A text without two spaces in a row. *)
Fixpoint single_spaced (s : str) : bool :=
  match s with
  | c :: s' =>
      match s' with
      | d :: _ => negb (ascii_eqb c " " && ascii_eqb d " ") && single_spaced s'
      | [] => true
      end
  | [] => true
  end.

(** A text ends a sentence: its last character is a full stop, an
    exclamation mark or a question mark.  [prev] says so for the text read
    before. *)
Fixpoint ends_with_end (prev : bool) (s : str) : bool :=
  match s with
  | [] => prev
  | c :: s' => ends_with_end (ends_sentence c) s'
  end.

(** A text holds a cut: a character that ends a sentence, then a space. *)
Fixpoint has_cut (s : str) : bool :=
  match s with
  | c :: s' =>
      match s' with
      | d :: _ => (ends_sentence c && ascii_eqb d " ") || has_cut s'
      | [] => false
      end
  | [] => false
  end.

(** A word of [str.split()]: not empty, and without white space. *)
Definition is_word (w : str) : Prop :=
  w <> [] /\ forallb (fun c => negb (isspace c)) w = true.

(** A list of a filter request that selects nothing: absent or empty. *)
Definition no_labels (value : option (list str)) : Prop :=
  value = None \/ value = Some [].

(** A row without a usable blob: NULL or the empty string. *)
Definition blob_missing (row : Row) : Prop :=
  output row = None \/ output row = Some [].

(** A row with nothing but a blob. *)
Definition row_of_blob (blob : str) : Row :=
  mkRow None None None None None YearNone (Some blob).

(** The pattern of [_clean_text]: a [<], characters other than [>], a [>]. *)
Definition tag_pattern : regex :=
  Cat (Chr "<") (Cat (Star (Cls (fun c => negb (ascii_eqb c ">")))) (Chr ">")).

(** A text opens a tag: it has a [<] with a [>] somewhere after it. *)
Fixpoint opens_tag (s : str) : bool :=
  match s with
  | c :: s' => (ascii_eqb c "<" && has_gt s') || opens_tag s'
  | [] => false
  end.

(** The characters a tag is made of. *)
Definition is_mark (c : ascii) : bool := ascii_eqb c "<" || ascii_eqb c ">".

(** The rows of a page: the slice [_create_paginated_response] takes. *)
Definition page_rows (df : DataFrame) (page limit : Z) : DataFrame :=
  Routes.iloc_slice df ((page - 1) * limit)%Z ((page - 1) * limit + limit)%Z.

(** A row whose year is the NaN of a numeric column. *)
Definition year_is_nan (row : Row) : bool :=
  match publication_year row with
  | YearNaN => true
  | _ => false
  end.

(** A frame with such a row. *)
Definition has_nan_year (df : DataFrame) : bool :=
  existsb (fun e => year_is_nan (snd e)) df.

(** A row of a frame and the summary the list view shows of it. *)
Definition shown_as (e : nat * Row) (summary : Routes.PaperSummary) : Prop :=
  exists paper, format_paper (snd e) false = Ok paper /\
                summary = Routes.summary_of paper.

(** The selection a filter request or the query of the count route builds
    from three optional lists. *)
Definition selection_of (study_types phases pharma_groups : option (list str))
  : gmap string (list str) :=
  Routes.keep_if_true "pharma_groups" pharma_groups
    (Routes.keep_if_true "phases" phases
       (Routes.keep_if_true "study_types" study_types ∅)).

(** The rows of a fetched frame that [apply_filters] keeps under a
    selection. *)
Definition kept_rows (filters : gmap string (list str)) (df : DataFrame) : DataFrame :=
  if dict_is_empty filters then df else List.filter (keeps filters) df.


(** * Properties *)

(** ** The meaning of [search] *)

Section RegexFacts.

Lemma nullable_matches r : nullable r = true <-> matches r [].
Proof.
  split.
  - induction r as [| |p|r1 IH1 r2 IH2|r1 IH1 r2 IH2|r IH]; simpl; intros H;
      try discriminate.
    + constructor.
    + apply andb_true_iff in H as [H1 H2].
      apply (m_cat r1 r2 [] []); auto.
    + apply orb_true_iff in H as [H|H]; [apply m_alt_l | apply m_alt_r]; auto.
    + constructor.
  - intros H. remember [] as s eqn:E.
    induction H as [|p c Hp|r1 r2 s1 s2 H1 IH1 H2 IH2|r1 r2 s H IH|r1 r2 s H IH
                   |r|r s1 s2 H1 IH1 H2 IH2]; simpl; auto; try discriminate.
    + destruct s1, s2; try discriminate. rewrite IH1, IH2; auto.
    + rewrite IH; auto.
    + rewrite IH; auto. apply orb_true_r.
Qed.

Lemma matches_Cls p m : matches (Cls p) m <-> exists c, m = [c] /\ p c = true.
Proof.
  split.
  - intros H. inversion H; subst. eauto.
  - intros (c & -> & H). constructor; auto.
Qed.

Lemma matches_Cat r1 r2 m :
  matches (Cat r1 r2) m <->
  exists m1 m2, m = m1 ++ m2 /\ matches r1 m1 /\ matches r2 m2.
Proof.
  split.
  - intros H. inversion H; subst. eauto.
  - intros (m1 & m2 & -> & H1 & H2). constructor; auto.
Qed.

Lemma matches_Alt r1 r2 m :
  matches (Alt r1 r2) m <-> matches r1 m \/ matches r2 m.
Proof.
  split.
  - intros H. inversion H; subst; auto.
  - intros [H|H]; [apply m_alt_l | apply m_alt_r]; auto.
Qed.

(** A non-empty word of [Star r] starts with a non-empty word of [r]. *)
Lemma star_cons_inv r c s :
  matches (Star r) (c :: s) ->
  exists s1 s2, s = s1 ++ s2 /\ matches r (c :: s1) /\ matches (Star r) s2.
Proof.
  intros H. remember (Star r) as r' eqn:Er. remember (c :: s) as w eqn:Ew.
  revert s Ew.
  induction H as [|p c' Hp|r1 r2 s1 s2 H1 IH1 H2 IH2|r1 r2 s0 H IH|r1 r2 s0 H IH
                 |r0|r0 s1 s2 H1 IH1 H2 IH2]; intros s Ew; try discriminate.
  injection Er as ->. destruct s1 as [|a s1].
  - simpl in Ew. apply IH2; auto.
  - simpl in Ew. injection Ew as -> <-. exists s1, s2. auto.
Qed.

Lemma deriv_sound c r : forall s, matches (deriv c r) s -> matches r (c :: s).
Proof.
  induction r as [| |p|r1 IH1 r2 IH2|r1 IH1 r2 IH2|r IH]; simpl; intros s H.
  - inversion H.
  - inversion H.
  - destruct (p c) eqn:Hp; inversion H; subst. constructor; auto.
  - destruct (nullable r1) eqn:Hn.
    + apply matches_Alt in H as [H|H].
      * apply matches_Cat in H as (m1 & m2 & -> & H1 & H2).
        apply (m_cat r1 r2 (c :: m1) m2); auto.
      * apply (m_cat r1 r2 [] (c :: s)); auto. apply nullable_matches; auto.
    + apply matches_Cat in H as (m1 & m2 & -> & H1 & H2).
      apply (m_cat r1 r2 (c :: m1) m2); auto.
  - apply matches_Alt in H as [H|H]; [apply m_alt_l | apply m_alt_r]; auto.
  - apply matches_Cat in H as (m1 & m2 & -> & H1 & H2).
    apply (m_star_app r (c :: m1) m2); auto.
Qed.

Lemma deriv_complete c r : forall s, matches r (c :: s) -> matches (deriv c r) s.
Proof.
  induction r as [| |p|r1 IH1 r2 IH2|r1 IH1 r2 IH2|r IH]; simpl; intros s H.
  - inversion H.
  - inversion H.
  - apply matches_Cls in H as (c' & E & Hp). injection E as <- ->.
    rewrite Hp. constructor.
  - apply matches_Cat in H as (m1 & m2 & E & H1 & H2).
    destruct m1 as [|a m1]; simpl in E.
    + subst m2. apply nullable_matches in H1. rewrite H1.
      apply m_alt_r; auto.
    + injection E as <- ->.
      destruct (nullable r1); [apply m_alt_l|]; constructor; auto.
  - apply matches_Alt in H as [H|H]; [apply m_alt_l | apply m_alt_r]; auto.
  - apply star_cons_inv in H as (s1 & s2 & -> & H1 & H2).
    constructor; auto.
Qed.

Lemma match_prefix_spec r : forall s,
  match_prefix r s = true <-> exists m rest, s = m ++ rest /\ matches r m.
Proof.
  intros s. revert r. induction s as [|c s IH]; intros r; simpl.
  - rewrite orb_false_r, nullable_matches. split.
    + intros H. exists [], []. auto.
    + intros (m & rest & E & H). destruct m; try discriminate. auto.
  - rewrite orb_true_iff, nullable_matches, IH. split.
    + intros [H | (m & rest & -> & H)].
      * exists [], (c :: s). auto.
      * exists (c :: m), rest. split; auto. apply deriv_sound; auto.
    + intros (m & rest & E & H). destruct m as [|a m]; [left; auto|].
      simpl in E. injection E as <- ->. right.
      exists m, rest. split; auto. apply deriv_complete; auto.
Qed.

(** [search r s] holds exactly when a word of [r] occurs in [s]. *)
Lemma search_spec r : forall s,
  search r s = true <->
  exists pre m post, s = pre ++ m ++ post /\ matches r m.
Proof.
  induction s as [|c s IH]; cbn [search].
  - rewrite orb_false_r, match_prefix_spec. split.
    + intros (m & rest & E & H). exists [], m, rest. auto.
    + intros (pre & m & post & E & H). destruct pre; try discriminate.
      exists m, post. auto.
  - rewrite orb_true_iff, match_prefix_spec, IH. split.
    + intros [(m & rest & E & H) | (pre & m & post & -> & H)].
      * exists [], m, rest. auto.
      * exists (c :: pre), m, post. auto.
    + intros (pre & m & post & E & H). destruct pre as [|a pre].
      * left. exists m, post. auto.
      * simpl in E. injection E as <- ->. right. exists pre, m, post. auto.
Qed.

Lemma matches_Lit s : forall m, matches (Lit s) m <-> m = s.
Proof.
  induction s as [|c s IH]; simpl; intros m.
  - split; [intros H; inversion H; auto | intros ->; constructor].
  - split.
    + intros H. apply matches_Cat in H as (m1 & m2 & -> & H1 & H2).
      apply matches_Cls in H1 as (c' & -> & Hc).
      apply Ascii.eqb_eq in Hc as ->. apply IH in H2 as ->. auto.
    + intros ->. apply (m_cat _ _ [c] s).
      * constructor. apply Ascii.eqb_refl.
      * apply IH; auto.
Qed.

Lemma matches_Star_Cls p : forall m,
  matches (Star (Cls p)) m <-> forallb p m = true.
Proof.
  induction m as [|c m IH]; simpl.
  - split; auto. intros _. constructor.
  - rewrite andb_true_iff, <- IH. split.
    + intros H. apply star_cons_inv in H as (s1 & s2 & -> & H1 & H2).
      apply matches_Cls in H1 as (c' & E & Hp). injection E as -> ->. auto.
    + intros [H1 H2]. apply (m_star_app _ [c] m); auto. constructor; auto.
Qed.

End RegexFacts.

(** ** The key/value patterns *)

Section PatternFacts.

Lemma matches_kv key value m :
  matches (kv_pattern key value) m <->
  exists q1 q2 ws q3 q4,
    is_quote q1 = true /\ is_quote q2 = true /\ forallb isspace ws = true /\
    is_quote q3 = true /\ is_quote q4 = true /\
    m = kv_text q1 key q2 ws q3 value q4.
Proof.
  unfold kv_pattern, kv_text, Quote, Space, Chr. split.
  - intros H.
    apply matches_Cat in H as (a1 & m1 & -> & Ha1 & H).
    apply matches_Cls in Ha1 as (q1 & -> & Hq1).
    apply matches_Cat in H as (a2 & m2 & -> & Ha2 & H).
    apply matches_Lit in Ha2 as ->.
    apply matches_Cat in H as (a3 & m3 & -> & Ha3 & H).
    apply matches_Cls in Ha3 as (q2 & -> & Hq2).
    apply matches_Cat in H as (a4 & m4 & -> & Ha4 & H).
    apply matches_Cls in Ha4 as (colon & -> & Hc).
    apply Ascii.eqb_eq in Hc as <-.
    apply matches_Cat in H as (ws & m5 & -> & Hws & H).
    apply matches_Star_Cls in Hws.
    apply matches_Cat in H as (a6 & m6 & -> & Ha6 & H).
    apply matches_Cls in Ha6 as (q3 & -> & Hq3).
    apply matches_Cat in H as (a7 & m7 & -> & Ha7 & H).
    apply matches_Lit in Ha7 as ->.
    apply matches_Cls in H as (q4 & -> & Hq4).
    exists q1, q2, ws, q3, q4. auto 10.
  - intros (q1 & q2 & ws & q3 & q4 & H1 & H2 & Hws & H3 & H4 & ->).
    repeat apply m_cat;
      try (apply m_cls; auto; apply Ascii.eqb_refl);
      try (apply matches_Lit; reflexivity).
    apply matches_Star_Cls; auto.
Qed.

(** A pair written with quotation marks of either kind and white space
    after the colon is found wherever it stands in the blob. *)
Lemma search_kv_intro key value q1 q2 ws q3 q4 pre post :
  is_quote q1 = true -> is_quote q2 = true -> forallb isspace ws = true ->
  is_quote q3 = true -> is_quote q4 = true ->
  search (kv_pattern key value)
         (pre ++ kv_text q1 key q2 ws q3 value q4 ++ post) = true.
Proof.
  intros. apply search_spec. eexists pre, _, post. split; [reflexivity|].
  apply matches_kv. exists q1, q2, ws, q3, q4. auto 10.
Qed.

(** A text without quotation marks matches no key/value pattern. *)
Lemma search_kv_needs_quote key value s :
  search (kv_pattern key value) s = true -> existsb is_quote s = true.
Proof.
  intros H. apply search_spec in H as (pre & m & post & -> & H).
  apply matches_kv in H as (q1 & q2 & ws & q3 & q4 & H1 & _ & _ & _ & _ & ->).
  apply existsb_exists. exists q1. split; auto.
  apply in_or_app. right. apply in_or_app. left. left. reflexivity.
Qed.

End PatternFacts.

(** ** The extractors and the matchers *)

(** Tests on closed strings are replaced by their values. *)
Ltac eval_bool t :=
  let v := eval vm_compute in t in
  lazymatch v with
  | true => change t with true
  | false => change t with false
  end.

Ltac eval_tests :=
  repeat match goal with
         | |- context [String.eqb ?a ?b] => eval_bool (String.eqb a b)
         | |- context [contains ?a ?b] => eval_bool (contains a b)
         end.

Section FilterFacts.

Implicit Types (out label : str) (labels : list str).
Implicit Types (filters : gmap string (list str)) (df : DataFrame).

Lemma str_eqb_spec (a b : str) : str_eqb a b = true <-> a = b.
Proof.
  revert b. induction a as [|x a IH]; intros [|y b]; simpl;
    try (split; [discriminate | discriminate]); [tauto|].
  unfold ascii_eqb. rewrite andb_true_iff, Ascii.eqb_eq, IH.
  split; [intros [-> ->]; reflexivity | intros E; injection E; auto].
Qed.

Lemma extract_In patterns out label :
  In label (extract patterns out) <->
  exists pattern, In (pattern, label) patterns /\ search pattern out = true.
Proof.
  induction patterns as [|[p l] ps IH]; simpl.
  - split; [tauto | intros (? & [] & _)].
  - destruct (search p out) eqn:Hp; simpl; rewrite IH; split.
    + intros [<- | (q & Hq & Hs)]; eauto.
    + intros (q & [E | Hq] & Hs); [injection E as <- <-; auto | eauto].
    + intros (q & Hq & Hs); eauto.
    + intros (q & [E | Hq] & Hs); [injection E as <- <-; congruence | eauto].
Qed.

(** The chains of [if]s, as tables. *)
Lemma _matches_study_types_spec out labels :
  _matches_study_types out labels =
  existsb (fun label => existsb (rule_fires out label) study_type_rules) labels.
Proof.
  induction labels as [|label rest IH]; [reflexivity|].
  cbn [_matches_study_types existsb]. rewrite IH.
  unfold study_type_rules, rule_fires. cbn [existsb fst snd].
  repeat match goal with
         | |- (if ?c then true else _) = _ => destruct c; cbn [orb]; [reflexivity|]
         end.
  reflexivity.
Qed.

Lemma _matches_phases_spec out labels :
  _matches_phases out labels =
  existsb (fun label => existsb (rule_fires out label) phase_rules) labels.
Proof.
  induction labels as [|label rest IH]; [reflexivity|].
  cbn [_matches_phases existsb]. rewrite IH.
  unfold phase_rules, rule_fires. cbn [existsb fst snd].
  repeat match goal with
         | |- (if ?c then true else _) = _ => destruct c; cbn [orb]; [reflexivity|]
         end.
  reflexivity.
Qed.

Lemma _matches_pharma_groups_spec out labels :
  _matches_pharma_groups out labels =
  existsb (fun group => search (group_pattern group) out) labels.
Proof.
  induction labels as [|group rest IH]; [reflexivity|].
  cbn [_matches_pharma_groups existsb]. rewrite IH.
  destruct (search (group_pattern group) out); reflexivity.
Qed.

Lemma selected_singleton (category key : string) label labels :
  selected {[key := label :: labels]} category =
  if String.eqb category key then Some (label :: labels) else None.
Proof.
  unfold selected. destruct (String.eqb_spec category key) as [->|Hne].
  - rewrite lookup_singleton_eq. reflexivity.
  - rewrite lookup_singleton_ne; auto.
Qed.

Lemma selected_empty (category : string) : selected ∅ category = None.
Proof. unfold selected. rewrite lookup_empty. reflexivity. Qed.

(** A selection of one category calls the matcher of that category. *)
Lemma _matches_filters_singleton (category : string) out label labels :
  _matches_filters out {[category := label :: labels]} =
  matches_category category out (label :: labels).
Proof.
  unfold _matches_filters, matches_category. rewrite !selected_singleton.
  rewrite (String.eqb_sym "study_types"), (String.eqb_sym "phases"),
    (String.eqb_sym "pharma_groups").
  destruct (String.eqb_spec category "study_types") as [->|H1].
  { eval_tests. destruct (_matches_study_types out (label :: labels)); reflexivity. }
  destruct (String.eqb_spec category "phases") as [->|H2].
  { eval_tests. destruct (_matches_phases out (label :: labels)); reflexivity. }
  destruct (String.eqb_spec category "pharma_groups") as [->|H3].
  { eval_tests. destruct (_matches_pharma_groups out (label :: labels)); reflexivity. }
  reflexivity.
Qed.

Lemma sorted_list_elem (labels : gset str) label :
  In label (sorted_list labels) <-> label ∈ labels.
Proof.
  unfold sorted_list. rewrite <- list_elem_of_In.
  rewrite merge_sort_Permutation. apply elem_of_elements.
Qed.

Lemma collect_step_kept {A} (x : A) (l : list A) (P Q : A -> Prop) (S : Prop) :
  P x ->
  ((S \/ Q x) \/ (exists e, In e l /\ P e /\ Q e)) <->
  (S \/ exists e, (x = e \/ In e l) /\ P e /\ Q e).
Proof.
  intros Hx. split.
  - intros [[H|H] | (e & He & Hp & Hq)];
      [left; exact H | right; exists x; auto | right; exists e; auto].
  - intros [H | (e & [<- | He] & Hp & Hq)];
      [left; left; exact H | left; right; exact Hq | right; exists e; auto].
Qed.

Lemma collect_step_skipped {A} (x : A) (l : list A) (P Q : A -> Prop) (S : Prop) :
  ~ P x ->
  (S \/ (exists e, In e l /\ P e /\ Q e)) <->
  (S \/ exists e, (x = e \/ In e l) /\ P e /\ Q e).
Proof.
  intros Hx. split.
  - intros [H | (e & He & Hp & Hq)]; [left; exact H | right; exists e; auto].
  - intros [H | (e & [<- | He] & Hp & Hq)];
      [left; exact H | contradiction | right; exists e; auto].
Qed.

Lemma collect_spec df : forall acc label,
  (label ∈ (collect df acc).1.1 <->
     label ∈ acc.1.1 \/
     exists e, In e df /\ nonempty (blob_of e) = true /\
               In label (_extract_study_types (blob_of e))) /\
  (label ∈ (collect df acc).1.2 <->
     label ∈ acc.1.2 \/
     exists e, In e df /\ nonempty (blob_of e) = true /\
               In label (_extract_phases (blob_of e))) /\
  (label ∈ (collect df acc).2 <->
     label ∈ acc.2 \/
     exists e, In e df /\ nonempty (blob_of e) = true /\
               In label (_extract_pharma_groups (blob_of e))).
Proof.
  induction df as [|[i row] df IH]; intros [[a b] c] label.
  - simpl. repeat split; try tauto; intros [?|(e & [] & _)]; auto.
  - cbn [collect]. change (str_of_cell (output row)) with (blob_of (i, row)).
    destruct (nonempty (blob_of (i, row))) eqn:Hne.
    + match goal with
      | |- context [collect df ?acc] => destruct (IH acc label) as (H1 & H2 & H3)
      end.
      rewrite H1, H2, H3. cbn [fst snd In].
      rewrite !elem_of_union, !elem_of_list_to_set, !list_elem_of_In.
      split; [|split].
      * apply (collect_step_kept (i, row) df
                 (fun e => nonempty (blob_of e) = true)
                 (fun e => In label (_extract_study_types (blob_of e)))).
        exact Hne.
      * apply (collect_step_kept (i, row) df
                 (fun e => nonempty (blob_of e) = true)
                 (fun e => In label (_extract_phases (blob_of e)))).
        exact Hne.
      * apply (collect_step_kept (i, row) df
                 (fun e => nonempty (blob_of e) = true)
                 (fun e => In label (_extract_pharma_groups (blob_of e)))).
        exact Hne.
    + destruct (IH (a, b, c) label) as (H1 & H2 & H3).
      rewrite H1, H2, H3. cbn [fst snd In].
      split; [|split].
      * apply (collect_step_skipped (i, row) df
                 (fun e => nonempty (blob_of e) = true)
                 (fun e => In label (_extract_study_types (blob_of e)))).
        congruence.
      * apply (collect_step_skipped (i, row) df
                 (fun e => nonempty (blob_of e) = true)
                 (fun e => In label (_extract_phases (blob_of e)))).
        congruence.
      * apply (collect_step_skipped (i, row) df
                 (fun e => nonempty (blob_of e) = true)
                 (fun e => In label (_extract_pharma_groups (blob_of e)))).
        congruence.
Qed.

(** What [get_filter_options] lists for a category: the labels that the
    extractor of the category derives from the blob of some row. *)
Lemma get_filter_options_In (category : string) df label :
  In label (options_of category (get_filter_options df)) <->
  exists e, In e df /\ nonempty (blob_of e) = true /\
            In label (extracted category (blob_of e)).
Proof.
  assert (Hempty : forall P : Prop, (label ∈ (∅ : gset str) \/ P) <-> P).
  { intros P. split; [intros [H|H]; [|exact H] | auto].
    exfalso. revert H. apply not_elem_of_empty. }
  unfold get_filter_options, options_of, extracted, table_of.
  destruct df as [|e0 df]; cbn [df_empty].
  { cbn. repeat match goal with |- context [String.eqb ?a ?b] =>
                  destruct (String.eqb a b) end;
      (split; [intros [] | intros (e & [] & _)]). }
  destruct (collect (e0 :: df) (∅, ∅, ∅)) as [[a b] c] eqn:E.
  destruct (collect_spec (e0 :: df) (∅, ∅, ∅) label) as (H1 & H2 & H3).
  rewrite E in H1, H2, H3. cbn [fst snd] in H1, H2, H3.
  rewrite Hempty in H1, H2, H3.
  cbn [fo_study_types fo_phases fo_pharma_groups].
  destruct (String.eqb category "study_types");
    [rewrite sorted_list_elem; exact H1|].
  destruct (String.eqb category "phases");
    [rewrite sorted_list_elem; exact H2|].
  destruct (String.eqb category "pharma_groups");
    [rewrite sorted_list_elem; exact H3|].
  cbn. split; [intros [] | intros (e & _ & _ & [])].
Qed.

End FilterFacts.

(** ** Quotation marks and white space in a blob (C2) *)

Ltac in_list := cbn [In]; repeat first [left; reflexivity | right].

Ltac split_searches :=
  repeat match goal with
         | |- context [search ?p ?o] => destruct (search p o)
         end.

Lemma nonempty_app_cons (pre post : str) c : nonempty (pre ++ c :: post) = true.
Proof. destruct pre; reflexivity. Qed.

(** A known code that the pattern of its table finds is extracted under its
    label, and a selection of that label alone accepts the blob. *)
Lemma facet_found f out :
  In f vocabulary ->
  search (kv_pattern (f_key f) (f_code f)) out = true ->
  In (f_label f) (extracted (f_category f) out) /\
  _matches_filters out {[f_category f := [f_label f]]} = true.
Proof.
  intros Hin Hs. rewrite _matches_filters_singleton.
  unfold vocabulary in Hin. cbn [In] in Hin.
  repeat destruct Hin as [<- | Hin]; try contradiction;
    cbn [f_key f_code f_label f_category] in *;
    (split;
     [ apply extract_In; eexists; split; [| exact Hs];
       unfold extracted, table_of; eval_tests;
       unfold study_type_patterns, phase_patterns, pharma_group_patterns;
       in_list
     | unfold matches_category; eval_tests;
       rewrite ?_matches_study_types_spec, ?_matches_phases_spec,
         ?_matches_pharma_groups_spec;
       unfold study_type_rules, phase_rules, rule_fires,
         code_pattern, group_pattern;
       cbn [existsb fst snd]; eval_tests; rewrite Hs; cbn [andb orb];
       split_searches; reflexivity ]).
Qed.

(** C2, as the code has it.  For every known code: a blob that holds the
    key and the code, each between quotation marks of either kind, with a
    colon right after the key and any white space between the colon and the
    code, passes the filter of the label of that code, has that label
    extracted, and brings it into the filter options of every frame with a
    row that holds the blob. *)
Theorem C2_quotes_and_space_after_colon
    (f : facet) (q1 q2 q3 q4 : ascii) (ws pre post : str) :
  In f vocabulary ->
  is_quote q1 = true -> is_quote q2 = true ->
  is_quote q3 = true -> is_quote q4 = true ->
  forallb isspace ws = true ->
  let blob := pre ++ kv_text q1 (f_key f) q2 ws q3 (f_code f) q4 ++ post in
  In (f_label f) (extracted (f_category f) blob) /\
  _matches_filters blob {[f_category f := [f_label f]]} = true /\
  forall (df : DataFrame) (e : nat * Row),
    In e df -> output (snd e) = Some blob ->
    keeps {[f_category f := [f_label f]]} e = true /\
    In (f_label f) (options_of (f_category f) (get_filter_options df)).
Proof.
  intros Hin H1 H2 H3 H4 Hws blob.
  assert (Hs : search (kv_pattern (f_key f) (f_code f)) blob = true)
    by (apply search_kv_intro; assumption).
  assert (Hne : nonempty blob = true)
    by (unfold blob, kv_text; apply nonempty_app_cons).
  destruct (facet_found f blob Hin Hs) as [Hext Hmatch].
  split; [exact Hext|]. split; [exact Hmatch|].
  intros df e He Hout.
  assert (Hb : blob_of e = blob) by (unfold blob_of; rewrite Hout; reflexivity).
  split.
  - unfold keeps. rewrite Hb, Hne, Hmatch. reflexivity.
  - apply get_filter_options_In. exists e. rewrite Hb. auto.
Qed.

Lemma C2_witness :
  let f := mkFacet "study_types" "code" "RCT" "Randomized Controlled Trial (RCT)" in
  let blob := lit "{" ++ kv_text dquote "code" dquote " " dquote "RCT" dquote
              ++ lit "}" in
  In f vocabulary /\ forallb isspace (lit " ") = true /\
  In (f_label f) (extracted "study_types" blob) /\
  _matches_filters blob {["study_types" := [f_label f]]} = true.
Proof.
  intros f blob.
  split; [in_list|]. split; [reflexivity|].
  destruct (C2_quotes_and_space_after_colon f dquote dquote dquote dquote
              (lit " ") (lit "{") (lit "}"))
    as (H1 & H2 & _); try reflexivity; [in_list|].
  split; [exact H1 | exact H2].
Defined.

(** White space before the colon is not accepted: the RCT pair written
    that way fails the RCT filter and gives no label. *)
Lemma C2_space_before_colon_rejected :
  let blob := lit "{'code' : 'RCT'}" in
  let label := lit "Randomized Controlled Trial (RCT)" in
  _matches_filters blob {["study_types" := [label]]} = false /\
  _extract_study_types blob = [] /\
  fo_study_types (get_filter_options (read_sql [row_of_blob blob])) = [].
Proof. vm_compute. auto. Qed.

(** ** The filter and the extractor on one label (C1) *)

(** On the labels of study types and of pharma groups the two paths agree:
    the filter of one label accepts a blob exactly when the extractor
    derives the label from it. *)
Lemma paths_agree_outside_phases f out :
  In f vocabulary -> f_category f <> "phases" ->
  (_matches_filters out {[f_category f := [f_label f]]} = true <->
   In (f_label f) (extracted (f_category f) out)).
Proof.
  intros Hin Hcat. split.
  - rewrite _matches_filters_singleton. intros H.
    apply (facet_found f out Hin).
    revert H. unfold vocabulary in Hin. cbn [In] in Hin.
    repeat destruct Hin as [<- | Hin]; try contradiction;
      cbn [f_key f_code f_label f_category] in *; try congruence;
      unfold matches_category; eval_tests;
      rewrite ?_matches_study_types_spec, ?_matches_pharma_groups_spec;
      unfold study_type_rules, rule_fires, code_pattern, group_pattern;
      cbn [existsb fst snd]; eval_tests; cbn [andb orb];
      rewrite ?orb_false_r; auto.
  - intros H. apply extract_In in H as (pattern & Hp & Hs).
    assert (pattern = kv_pattern (f_key f) (f_code f)) as ->;
      [| apply (facet_found f out Hin Hs)].
    revert Hp. unfold vocabulary in Hin. cbn [In] in Hin.
    repeat destruct Hin as [<- | Hin]; try contradiction;
      cbn [f_key f_code f_label f_category] in *; try congruence;
      unfold extracted, table_of; eval_tests;
      unfold study_type_patterns, pharma_group_patterns; cbn [In];
      intros Hp;
      repeat destruct Hp as [Hp | Hp]; try contradiction;
      first [ injection Hp as <-; reflexivity
            | exfalso; injection Hp as _ Hp; vm_compute in Hp; discriminate Hp ].
Qed.

(** What the chain of [_matches_phases] tests for each label: the words of
    the first rule occur in every label, and those of the second in the
    label of phase III too. *)
Lemma _matches_phases_on_labels out :
  _matches_phases out [lit "Phase I (P1)"] = search (code_pattern "P1") out /\
  _matches_phases out [lit "Phase II (P2)"] =
    search (code_pattern "P1") out || search (code_pattern "P2") out /\
  _matches_phases out [lit "Phase III (P3)"] =
    search (code_pattern "P1") out || search (code_pattern "P2") out
    || search (code_pattern "P3") out /\
  _matches_phases out [lit "Phase IV (P4)"] =
    search (code_pattern "P1") out || search (code_pattern "P4") out.
Proof.
  rewrite !_matches_phases_spec. unfold phase_rules, rule_fires.
  cbn [existsb fst snd]. eval_tests. cbn [andb orb].
  repeat split; split_searches; reflexivity.
Qed.

(** Every entry of the three tables is an entry of the vocabulary. *)
Lemma table_vocabulary (category : string) pattern label :
  In (pattern, label) (table_of category) ->
  exists f, In f vocabulary /\ f_category f = category /\ f_label f = label /\
            pattern = kv_pattern (f_key f) (f_code f).
Proof.
  unfold table_of.
  destruct (String.eqb_spec category "study_types") as [->|_];
    [|destruct (String.eqb_spec category "phases") as [->|_];
      [|destruct (String.eqb_spec category "pharma_groups") as [->|_]]];
    unfold study_type_patterns, phase_patterns, pharma_group_patterns;
    cbn [In]; intros H;
    repeat destruct H as [H | H]; try contradiction;
    injection H as <- <-;
    let rec try_facets l :=
      lazymatch l with
      | ?f :: ?l' =>
          first [ solve [exists f; split; [in_list|];
                         split; [reflexivity|]; split; reflexivity]
                | try_facets l' ]
      end in
    let v := eval unfold vocabulary in vocabulary in try_facets v.
Qed.

(** The test of the design document is the extractor, read as a test: it
    accepts a label for a blob exactly when the extractor derives the label
    from the blob. *)
Lemma spec_matches_label_extracted (category : string) label out :
  spec_matches_label category label out = true <->
  In label (extracted category out).
Proof.
  unfold spec_matches_label. rewrite existsb_exists. split.
  - intros (f & Hin & H).
    apply andb_true_iff in H as [H Hs]. apply andb_true_iff in H as [Hc Hl].
    apply String.eqb_eq in Hc. apply str_eqb_spec in Hl. subst category label.
    apply (facet_found f out Hin Hs).
  - intros H. apply extract_In in H as (pattern & Hp & Hs).
    apply table_vocabulary in Hp as (f & Hin & <- & <- & ->).
    exists f. split; [exact Hin|].
    rewrite String.eqb_refl, Hs, andb_true_r. apply str_eqb_spec. reflexivity.
Qed.

(** C1 at its failing input.  The blob holds code P1 only.  The label of
    phase II is a display label; selected alone it lets the row through
    [apply_filters], because the words Phase I occur in it; the extractor
    derives the label of phase I only, and so does the test of the design
    document. *)
Theorem C1_phase_label_matches_other_code :
  let blob := lit "{'code': 'P1'}" in
  let label := lit "Phase II (P2)" in
  let selection : gmap string (list str) := {["phases" := [label]]} in
  let frame := read_sql [row_of_blob blob] in
  In (mkFacet "phases" "code" "P2" label) vocabulary /\
  _matches_filters blob selection = true /\
  apply_filters 0 selection [frame] = Ok (1, [frame; frame]) /\
  _extract_phases blob = [lit "Phase I (P1)"] /\
  ~ In label (_extract_phases blob) /\
  spec_matches_label "phases" label blob = false.
Proof.
  intros blob label selection frame.
  split; [in_list|]. split; [vm_compute; reflexivity|].
  split; [vm_compute; reflexivity|]. split; [vm_compute; reflexivity|].
  split; [|vm_compute; reflexivity].
  vm_compute. intros [H|[]]. discriminate H.
Qed.

(** ** [apply_filters] on the frames the fetcher delivers *)

Section ApplyFiltersFacts.

Implicit Types (df : DataFrame) (filters : gmap string (list str)).
Implicit Types (h : Store) (rows : list Row).

Lemma read_sql_lookup rows i e :
  read_sql rows !! i = Some e <-> fst e = i /\ rows !! i = Some (snd e).
Proof.
  unfold read_sql. rewrite list_lookup_imap. destruct (rows !! i) as [row|]; simpl.
  - split.
    + intros H. injection H as <-. auto.
    + intros [<- H]. injection H as ->. destruct e; reflexivity.
  - split; [discriminate | intros [_ H]; discriminate].
Qed.

Lemma read_sql_default_index rows : default_index (read_sql rows).
Proof. intros i e H. apply read_sql_lookup in H. tauto. Qed.

Lemma read_sql_nil rows : read_sql rows = [] <-> rows = [].
Proof.
  destruct rows; [split; reflexivity|].
  split; discriminate.
Qed.

Lemma default_index_NoDup df : default_index df -> NoDup df.
Proof.
  intros Hd. apply NoDup_alt. intros i j e Hi Hj.
  apply Hd in Hi, Hj. congruence.
Qed.

Lemma default_index_found df e : default_index df -> In e df -> df !! fst e = Some e.
Proof.
  intros Hd He. apply list_elem_of_In, list_elem_of_lookup in He as [i Hi].
  rewrite (Hd i e Hi). exact Hi.
Qed.

Lemma filtered_indices_spec df filters :
  filtered_indices df filters = map fst (List.filter (keeps filters) df).
Proof.
  induction df as [|[idx row] df IH]; [reflexivity|].
  cbn [filtered_indices List.filter]. unfold keeps at 1, blob_of. cbn [snd].
  destruct (nonempty (str_of_cell (output row)) &&
            _matches_filters (str_of_cell (output row)) filters);
    cbn [map fst]; rewrite IH; reflexivity.
Qed.

(** Reading entries back by their labels gives these entries when each
    stands at the position of its label. *)
Lemma iloc_labels df (kept : DataFrame) :
  (forall e, In e kept -> df !! fst e = Some e) ->
  iloc df (map fst kept) = Ok kept.
Proof.
  induction kept as [|e kept IH]; intros H; [reflexivity|].
  cbn [map iloc]. rewrite (H e) by (left; reflexivity).
  rewrite IH; [reflexivity|]. intros e' He'. apply H. right. exact He'.
Qed.

Lemma filter_In_sub {A} (p : A -> bool) (l : list A) x :
  In x (List.filter p l) -> In x l /\ p x = true.
Proof. apply filter_In. Qed.

Lemma filter_sublist {A} (p : A -> bool) (l : list A) :
  sublist (List.filter p l) l.
Proof.
  induction l as [|x l IH]; simpl; [constructor|].
  destruct (p x); [apply sublist_skip | apply sublist_cons]; exact IH.
Qed.

Lemma dict_is_empty_spec filters : dict_is_empty filters = true <-> filters = ∅.
Proof. unfold dict_is_empty. apply bool_decide_eq_true. Qed.

(** The outcome of [apply_filters] on a frame with the default index: the
    frame itself when it has no rows or the selection is the empty dict, and
    otherwise a new frame of the entries that pass the test, in place. *)
Lemma apply_filters_default h (a : ref) df filters :
  h !! a = Some df -> default_index df ->
  apply_filters a filters h =
  if df_empty df || dict_is_empty filters then Ok (a, h)
  else Ok (length h, h ++ [List.filter (keeps filters) df]).
Proof.
  intros Ha Hd. unfold apply_filters, bind, deref. rewrite Ha.
  destruct (df_empty df || dict_is_empty filters); [reflexivity|].
  rewrite filtered_indices_spec.
  destruct (List.filter (keeps filters) df) as [|e kept] eqn:E; [reflexivity|].
  cbn [map]. change (fst e :: map fst kept) with (map fst (e :: kept)).
  unfold lift. rewrite iloc_labels; [reflexivity|].
  intros e' He'. apply default_index_found; [exact Hd|].
  rewrite <- E in He'. apply filter_In in He'. tauto.
Qed.

(** A text without quotation marks fails every matcher. *)
Lemma no_quote_no_match out labels :
  existsb is_quote out = false ->
  _matches_study_types out labels = false /\
  _matches_phases out labels = false /\
  _matches_pharma_groups out labels = false.
Proof.
  intros Hq.
  assert (Hs : forall key value, search (kv_pattern key value) out = false).
  { intros key value. destruct (search (kv_pattern key value) out) eqn:E; auto.
    apply search_kv_needs_quote in E. congruence. }
  assert (Hr : forall rules label, existsb (rule_fires out label) rules = false).
  { intros rules label. induction rules as [|r rules IH]; [reflexivity|].
    cbn [existsb]. rewrite IH. unfold rule_fires, code_pattern.
    rewrite Hs, andb_false_r. reflexivity. }
  rewrite _matches_study_types_spec, _matches_phases_spec,
    _matches_pharma_groups_spec.
  repeat split; induction labels as [|l ls IH]; auto;
    cbn [existsb]; rewrite IH; unfold group_pattern; rewrite ?Hr, ?Hs;
    reflexivity.
Qed.

Lemma _matches_filters_selected out filters (category : string) labels :
  In category categories ->
  selected filters category = Some labels ->
  _matches_filters out filters = true ->
  matches_category category out labels = true.
Proof.
  unfold categories, _matches_filters, matches_category. cbn [In].
  intros [<- | [<- | [<- | []]]] Hsel; eval_tests.
  - rewrite Hsel. destruct (_matches_study_types out labels); auto.
  - rewrite Hsel.
    destruct (match selected filters "study_types" with
              | Some s => negb (_matches_study_types out s) | None => false end);
      [discriminate|].
    destruct (_matches_phases out labels); auto.
  - rewrite Hsel.
    destruct (match selected filters "study_types" with
              | Some s => negb (_matches_study_types out s) | None => false end);
      [discriminate|].
    destruct (match selected filters "phases" with
              | Some s => negb (_matches_phases out s) | None => false end);
      [discriminate|].
    destruct (_matches_pharma_groups out labels); auto.
Qed.

(** With a category selected, the test of the loop refuses a row without a
    usable blob. *)
Lemma keeps_needs_blob filters (category : string) labels e :
  In category categories ->
  selected filters category = Some labels ->
  blob_missing (snd e) -> keeps filters e = false.
Proof.
  intros Hc Hsel Hmiss. unfold keeps, blob_of.
  destruct Hmiss as [-> | ->]; [|reflexivity].
  cbn [str_of_cell]. destruct (_matches_filters (lit "None") filters) eqn:Hm;
    [|apply andb_false_r].
  apply (_matches_filters_selected _ _ _ _ Hc Hsel) in Hm.
  destruct (no_quote_no_match (lit "None") labels) as (H1 & H2 & H3);
    [reflexivity|].
  revert Hm. unfold matches_category, categories in *. cbn [In] in Hc.
  destruct Hc as [<- | [<- | [<- | []]]]; eval_tests; congruence.
Qed.

Lemma selected_not_empty filters (category : string) labels :
  selected filters category = Some labels -> dict_is_empty filters = false.
Proof.
  intros H. destruct (dict_is_empty filters) eqn:E; [|reflexivity].
  apply dict_is_empty_spec in E. subst. rewrite selected_empty in H. discriminate.
Qed.

End ApplyFiltersFacts.

Section ApplyFiltersClaims.

Implicit Types (filters : gmap string (list str)) (h : Store) (rows : list Row).

(** The result of [apply_filters] on a fetched frame, in one statement:
    where it lives, what it holds, and what became of the store. *)
Lemma apply_filters_fetched rows filters h (a : ref) :
  h !! a = Some (read_sql rows) ->
  exists (a' : ref) h' result,
    apply_filters a filters h = Ok (a', h') /\
    h' !! a' = Some result /\
    result = (if dict_is_empty filters then read_sql rows
              else List.filter (keeps filters) (read_sql rows)) /\
    (rows = [] \/ filters = ∅ -> a' = a /\ h' = h) /\
    (rows <> [] -> filters <> ∅ -> a' = length h /\ h' = h ++ [result]).
Proof.
  intros Ha.
  rewrite (apply_filters_default h a _ filters Ha (read_sql_default_index rows)).
  destruct (dict_is_empty filters) eqn:Hf.
  - rewrite orb_true_r. exists a, h, (read_sql rows).
    apply dict_is_empty_spec in Hf. repeat split; auto; congruence.
  - rewrite orb_false_r.
    assert (Hne : filters <> ∅).
    { intros E. apply dict_is_empty_spec in E. congruence. }
    destruct rows as [|row rows].
    + exists a, h, []. cbn. repeat split; auto; congruence.
    + change (df_empty (read_sql (row :: rows))) with false. cbv iota.
      eexists (length h), _, _. split; [reflexivity|].
      split; [apply list_lookup_middle; reflexivity|].
      split; [reflexivity|]. split.
      * intros [E|E]; [discriminate E | contradiction].
      * auto.
Qed.

(** When no category has labels, the test of the loop asks only for a text
    that is not empty. *)
Lemma _matches_filters_inactive (out : str) filters :
  (forall category : string,
     In category categories -> selected filters category = None) ->
  _matches_filters out filters = true.
Proof.
  intros H. unfold _matches_filters.
  rewrite (H "study_types"%string), (H "phases"%string),
    (H "pharma_groups"%string) by in_list.
  reflexivity.
Qed.

(** C4, as the code has it.  On a fetched frame: when the selection has a
    category with labels, [apply_filters] returns rows of the frame none of
    which lacks a blob or has the empty one; when the selection is the empty
    dict, it returns the frame itself, so that every row is included; and
    when the dict is not empty but none of its three categories has labels,
    it returns the rows whose blob is not the empty string, those without a
    blob among them. *)
Theorem C4_rows_without_blob rows filters h (a : ref) :
  h !! a = Some (read_sql rows) ->
  ((exists (category : string) labels,
       In category categories /\ selected filters category = Some labels) ->
   exists (a' : ref) h' result,
     apply_filters a filters h = Ok (a', h') /\
     h' !! a' = Some result /\
     sublist result (read_sql rows) /\
     forall e, In e result -> ~ blob_missing (snd e)) /\
  (filters = ∅ -> apply_filters a filters h = Ok (a, h)) /\
  (filters <> ∅ ->
   (forall category : string,
      In category categories -> selected filters category = None) ->
   exists (a' : ref) h' result,
     apply_filters a filters h = Ok (a', h') /\
     h' !! a' = Some result /\
     sublist result (read_sql rows) /\
     forall e, In e result <->
               In e (read_sql rows) /\ output (snd e) <> Some []).
Proof.
  intros Ha. split; [|split].
  - intros (category & labels & Hc & Hsel).
    destruct (apply_filters_fetched rows filters h a Ha)
      as (a' & h' & result & Hrun & Hres & Hdef & _).
    exists a', h', result. split; [exact Hrun|]. split; [exact Hres|].
    rewrite (selected_not_empty _ _ _ Hsel) in Hdef. subst result.
    split; [apply filter_sublist|].
    intros e He Hmiss. apply filter_In in He as [_ Hk].
    rewrite (keeps_needs_blob filters category labels e Hc Hsel Hmiss) in Hk.
    discriminate.
  - intros ->.
    destruct (apply_filters_fetched rows ∅ h a Ha)
      as (a' & h' & result & Hrun & _ & _ & Hsame & _).
    destruct Hsame as [-> ->]; auto.
  - intros Hne Hnone.
    destruct (apply_filters_fetched rows filters h a Ha)
      as (a' & h' & result & Hrun & Hres & Hdef & _).
    exists a', h', result. split; [exact Hrun|]. split; [exact Hres|].
    assert (Hf : dict_is_empty filters = false).
    { destruct (dict_is_empty filters) eqn:E; [|reflexivity].
      apply dict_is_empty_spec in E. contradiction. }
    rewrite Hf in Hdef. subst result. split; [apply filter_sublist|].
    intros e. rewrite filter_In. unfold keeps, blob_of.
    rewrite (_matches_filters_inactive _ filters Hnone), andb_true_r.
    destruct (output (snd e)) as [[|c blob]|]; cbn [str_of_cell nonempty];
      split; intros [Hin H]; split; try exact Hin; try reflexivity;
      try discriminate; try congruence.
Qed.

Lemma C4_witness :
  let rows := [row_of_blob []; mkRow None None None None None YearNone None;
               row_of_blob "{'code': 'RCT'}"] in
  let filters : gmap string (list str) :=
    {["study_types" := [lit "Randomized Controlled Trial (RCT)"]]} in
  [read_sql rows] !! 0%nat = Some (read_sql rows) /\
  exists (a' : ref) h' result,
    apply_filters 0%nat filters [read_sql rows] = Ok (a', h') /\
    h' !! a' = Some result /\
    sublist result (read_sql rows) /\
    forall e, In e result -> ~ blob_missing (snd e).
Proof.
  intros rows filters. split; [reflexivity|].
  apply (C4_rows_without_blob rows filters [read_sql rows] 0%nat); [reflexivity|].
  exists "study_types"%string, [lit "Randomized Controlled Trial (RCT)"].
  split; [in_list | reflexivity].
Defined.

(** The claim fails where it says every selection and every row set.  A
    dict whose only list is empty has no category with labels, and is not
    the empty dict: of three fetched rows the one with the empty string as
    blob is left out, and a new frame is returned.  And that frame does not
    have the default index: filtering it by the RCT label, a selection with
    a category that has labels, returns the row without a blob, found at
    the position that is the label of the RCT row. *)
Lemma C4_empty_list_and_shifted_labels :
  let none := mkRow None None None None None YearNone None in
  let rct := row_of_blob "{'code': 'RCT'}" in
  let rows := [row_of_blob []; rct; none] in
  let empty_list : gmap string (list str) := {["study_types" := []]} in
  let rct_label : gmap string (list str) :=
    {["study_types" := [lit "Randomized Controlled Trial (RCT)"]]} in
  let once := [(1%nat, rct); (2%nat, none)] in
  (forall category : string,
     In category categories -> selected empty_list category = None) /\
  apply_filters 0%nat empty_list [read_sql rows] =
    Ok (1%nat, [read_sql rows; once]) /\
  ~ In (0%nat, row_of_blob []) once /\
  selected rct_label "study_types" =
    Some [lit "Randomized Controlled Trial (RCT)"] /\
  apply_filters 1%nat rct_label [read_sql rows; once] =
    Ok (2%nat, [read_sql rows; once; [(2%nat, none)]]) /\
  blob_missing none.
Proof.
  intros none rct rows empty_list rct_label once.
  split; [|split; [|split; [|split; [|split]]]].
  - intros category [<-|[<-|[<-|[]]]]; vm_compute; reflexivity.
  - vm_compute. reflexivity.
  - intros [H|[H|[]]]; discriminate H.
  - vm_compute. reflexivity.
  - vm_compute. reflexivity.
  - left. reflexivity.
Qed.

(** The test of the loop is a test on the row alone, so selecting twice by
    it is selecting once; what fails below is the reading of the labels. *)
Lemma filter_keeps_twice filters (df : DataFrame) :
  List.filter (keeps filters) (List.filter (keeps filters) df) =
  List.filter (keeps filters) df.
Proof.
  induction df as [|e df IH]; [reflexivity|]. cbn [List.filter].
  destruct (keeps filters e) eqn:E; [|exact IH].
  cbn [List.filter]. rewrite E, IH. reflexivity.
Qed.

(** C7 at its failing input.  Of two fetched rows the second is an RCT.  The
    first application returns a new frame with that row under its label 1;
    in the second the loop collects label 1 again and [iloc] reads it as a
    position of a frame of one row. *)
Theorem C7_second_application_raises :
  let rows := [row_of_blob "{}"; row_of_blob "{'code': 'RCT'}"] in
  let filters : gmap string (list str) :=
    {["study_types" := [lit "Randomized Controlled Trial (RCT)"]]} in
  let once := [(1%nat, row_of_blob "{'code': 'RCT'}")] in
  apply_filters 0%nat filters [read_sql rows] = Ok (1%nat, [read_sql rows; once]) /\
  apply_filters 1%nat filters [read_sql rows; once] = Raise IndexError.
Proof. split; vm_compute; reflexivity. Qed.

(** C10, as the code has it.  On a fetched frame [apply_filters] returns
    entries of the frame, in the order of the frame and none twice, and
    every object of the store is as it was.  The result is the frame itself
    when the frame has no rows or the selection is the empty dict, and a new
    object otherwise. *)
Theorem C10_ordered_subset_of_fetched_rows rows filters h (a : ref) :
  h !! a = Some (read_sql rows) ->
  exists (a' : ref) h' result,
    apply_filters a filters h = Ok (a', h') /\
    h' !! a' = Some result /\
    sublist result (read_sql rows) /\
    NoDup result /\
    (forall (b : ref) df, h !! b = Some df -> h' !! b = Some df) /\
    (rows = [] \/ filters = ∅ -> a' = a /\ h' = h) /\
    (rows <> [] -> filters <> ∅ -> a' = length h /\ a' <> a).
Proof.
  intros Ha.
  destruct (apply_filters_fetched rows filters h a Ha)
    as (a' & h' & result & Hrun & Hres & Hdef & Hsame & Hnew).
  assert (Hsub : sublist result (read_sql rows)).
  { subst result. destruct (dict_is_empty filters);
      [reflexivity | apply filter_sublist]. }
  exists a', h', result. split; [exact Hrun|]. split; [exact Hres|].
  split; [exact Hsub|]. split.
  { apply (sublist_NoDup result (read_sql rows)); [|exact Hsub].
    apply default_index_NoDup, read_sql_default_index. }
  split; [|split; [exact Hsame|]].
  - intros b df Hb. destruct rows as [|row rows].
    { destruct Hsame as [_ ->]; auto. }
    destruct (dict_is_empty filters) eqn:Hf.
    { apply dict_is_empty_spec in Hf. destruct Hsame as [_ ->]; auto. }
    destruct Hnew as [_ ->]; [discriminate | |].
    + intros E. apply dict_is_empty_spec in E. congruence.
    + apply lookup_app_l_Some. exact Hb.
  - intros Hr Hf. destruct (Hnew Hr Hf) as [-> _]. split; [reflexivity|].
    apply lookup_lt_Some in Ha. lia.
Qed.

Lemma C10_witness :
  let rows := [row_of_blob "{}"; row_of_blob "{'code': 'RCT'}"] in
  let filters : gmap string (list str) :=
    {["study_types" := [lit "Randomized Controlled Trial (RCT)"]]} in
  [read_sql rows] !! 0%nat = Some (read_sql rows) /\
  exists (a' : ref) h' result,
    apply_filters 0%nat filters [read_sql rows] = Ok (a', h') /\
    h' !! a' = Some result /\
    sublist result (read_sql rows) /\
    NoDup result.
Proof.
  intros rows filters. split; [reflexivity|].
  destruct (C10_ordered_subset_of_fetched_rows rows filters [read_sql rows] 0%nat)
    as (a' & h' & result & H1 & H2 & H3 & H4 & _); [reflexivity|].
  exists a', h', result. auto.
Defined.

(** Without a selection the result is no copy: the reference returned is
    the one passed in, and the store has no new object. *)
Lemma C10_empty_selection_returns_the_input :
  let frame := read_sql [row_of_blob "{'code': 'RCT'}"] in
  apply_filters 0%nat ∅ [frame] = Ok (0%nat, [frame]).
Proof. vm_compute. reflexivity. Qed.

End ApplyFiltersClaims.

(** ** The fetchers and the routes *)

Section RouteFacts.

Import Routes.

Implicit Types (db : Database) (h : Store) (request : FilterRequest).

Lemma select_by_id_unknown (table : list Row) (id : str) :
  (forall row, In row table -> work_id row <> Some id) ->
  select_by_id table id = [].
Proof.
  intros H. unfold select_by_id. induction table as [|row table IH]; [reflexivity|].
  cbn [List.filter]. unfold has_work_id at 1.
  destruct (work_id row) as [w|] eqn:Hw.
  - destruct (str_eqb w id) eqn:E.
    + apply str_eqb_spec in E. subst w.
      exfalso. apply (H row); [left; reflexivity | exact Hw].
    + apply IH. intros r Hr. apply H. right. exact Hr.
  - apply IH. intros r Hr. apply H. right. exact Hr.
Qed.

(** The fetcher of the list never raises: it allocates one frame. *)
Lemma get_all_papers_returns db h :
  exists frame, get_all_papers db h = Ok (length h, h ++ [frame]) /\
                (status db <> Up -> frame = pd_DataFrame) /\
                (status db = Up -> frame = read_sql (select_all (ibd_rcts db))).
Proof.
  unfold get_all_papers, alloc.
  destruct (status db); eexists; (split; [reflexivity|]); split; congruence.
Qed.

Lemma _get_papers_data_returns db h :
  exists frame, _get_papers_data db h = Ok (length h, h ++ [frame]) /\
                get_all_papers db h = Ok (length h, h ++ [frame]).
Proof.
  destruct (get_all_papers_returns db h) as (frame & H & _).
  exists frame. unfold _get_papers_data, try_catch. rewrite H. auto.
Qed.

(** The empty dict filters nothing, whatever the index of the frame. *)
Lemma apply_filters_empty_dict h (a : ref) (df : DataFrame) :
  h !! a = Some df -> apply_filters a ∅ h = Ok (a, h).
Proof.
  intros Ha. unfold apply_filters, bind, deref. rewrite Ha.
  rewrite orb_true_r. reflexivity.
Qed.

Lemma request_filters_empty request :
  no_labels (r_study_types request) -> no_labels (r_phases request) ->
  no_labels (r_pharma_groups request) ->
  request_filters request = ∅.
Proof.
  unfold request_filters, no_labels.
  intros [-> | ->] [-> | ->] [-> | ->]; reflexivity.
Qed.

Lemma _create_paginated_response_or_empty (a : ref) (page limit : Z) h :
  _create_paginated_response a page limit (Some ∅) h =
  _create_paginated_response a page limit None h.
Proof. reflexivity. Qed.

(** With nothing selected, POST /papers/filter is GET /papers run inside
    the handler of the route. *)
Lemma filter_papers_nothing_selected db request h :
  request_filters request = ∅ ->
  filter_papers db request h =
  try_except (get_papers db (r_page request) (r_limit request))
             (raise (HTTPException 500 "Failed to filter papers")) h.
Proof.
  intros Hf. unfold filter_papers, get_papers, try_except, bind. rewrite Hf.
  destruct (_get_papers_data_returns db h) as (frame & -> & _).
  rewrite (apply_filters_empty_dict _ _ frame)
    by (apply list_lookup_middle; reflexivity).
  rewrite _create_paginated_response_or_empty. reflexivity.
Qed.

(** C8.  A filter request whose three lists select nothing builds the empty
    dict; [apply_filters] hands the fetched frame on as it is; and the
    response is that of GET /papers for the same page and limit, or, where
    that one fails, a failure with the same status. *)
Theorem C8_empty_selection_is_the_plain_list db request h :
  no_labels (r_study_types request) -> no_labels (r_phases request) ->
  no_labels (r_pharma_groups request) ->
  request_filters request = ∅ /\
  (forall (a : ref) (df : DataFrame),
     h !! a = Some df -> apply_filters a (request_filters request) h = Ok (a, h)) /\
  match get_papers db (r_page request) (r_limit request) h with
  | Ok response => filter_papers db request h = Ok response
  | Raise e =>
      exists e', filter_papers db request h = Raise e' /\
                 status_code (@Raise PaginatedResponse e') =
                 status_code (@Raise PaginatedResponse e)
  end.
Proof.
  intros H1 H2 H3.
  pose proof (request_filters_empty request H1 H2 H3) as Hf.
  split; [exact Hf|]. split.
  - intros a df Ha. rewrite Hf. apply (apply_filters_empty_dict h a df Ha).
  - rewrite (filter_papers_nothing_selected db request h Hf). unfold try_except.
    destruct (get_papers db (r_page request) (r_limit request) h) as [x|e];
      [reflexivity|].
    destruct e; eexists; (split; [reflexivity|]); reflexivity.
Qed.

Lemma C8_witness :
  let db := mkDatabase Up [mkRow (Some (lit "W1")) (Some (lit "T")) (Some (lit "A. B."))
                                 None None (YearNum 2020) (Some (lit "{'code': 'RCT'}"))] in
  let request := mkFilterRequest (Some []) (Some []) None 1 15 in
  no_labels (r_study_types request) /\
  request_filters request = ∅ /\
  exists response, get_papers db 1 15 [] = Ok response /\
                   filter_papers db request [] = Ok response.
Proof.
  intros db request.
  assert (H1 : no_labels (r_study_types request)) by (right; reflexivity).
  assert (H2 : no_labels (r_phases request)) by (right; reflexivity).
  assert (H3 : no_labels (r_pharma_groups request)) by (left; reflexivity).
  destruct (C8_empty_selection_is_the_plain_list db request [] H1 H2 H3)
    as (Hf & _ & Hres).
  split; [exact H1|]. split; [exact Hf|].
  change (r_page request) with 1%Z in Hres.
  change (r_limit request) with 15%Z in Hres.
  destruct (get_papers db 1 15 []) as [response|e] eqn:E.
  - exists response. split; [reflexivity | exact Hres].
  - vm_compute in E. discriminate E.
Defined.

(** C9.  When the connection or the query fails, the list fetcher returns
    the empty frame, the fetcher of one paper returns [None], and the detail
    route answers 404.  The list fetcher never raises.  For an id that no
    row of the table has, whatever the state of the database, the fetcher
    returns [None] and the route answers 404. *)
Theorem C9_fetch_failures_do_not_propagate db (id : str) h :
  (exists frame, get_all_papers db h = Ok (length h, h ++ [frame])) /\
  (status db <> Up ->
   get_all_papers db h = Ok (length h, h ++ [pd_DataFrame]) /\
   DataService.get_paper_by_id db id = None /\
   status_code (Routes.get_paper_by_id db id h) = 404%nat) /\
  ((forall row, In row (ibd_rcts db) -> work_id row <> Some id) ->
   DataService.get_paper_by_id db id = None /\
   Routes.get_paper_by_id db id h = Raise (HTTPException 404 "Paper not found") /\
   status_code (Routes.get_paper_by_id db id h) = 404%nat).
Proof.
  split; [|split].
  - destruct (get_all_papers_returns db h) as (frame & H & _). eauto.
  - intros Hdown.
    assert (Hnone : DataService.get_paper_by_id db id = None).
    { unfold DataService.get_paper_by_id. destruct (status db); congruence. }
    split; [|split; [exact Hnone|]].
    + unfold get_all_papers. destruct (status db); [congruence | |]; reflexivity.
    + unfold Routes.get_paper_by_id, try_except. rewrite Hnone. reflexivity.
  - intros Hunknown.
    assert (Hnone : DataService.get_paper_by_id db id = None).
    { unfold DataService.get_paper_by_id.
      rewrite (select_by_id_unknown _ _ Hunknown).
      destruct (status db); reflexivity. }
    split; [exact Hnone|].
    unfold Routes.get_paper_by_id, try_except. rewrite Hnone. auto.
Qed.

Lemma C9_witness :
  let row := mkRow (Some (lit "W1")) (Some (lit "T")) (Some (lit "A."))
                   None None (YearNum 2020) None in
  (status (mkDatabase QueryFails [row]) <> Up /\
   get_all_papers (mkDatabase QueryFails [row]) [] = Ok (0%nat, [pd_DataFrame]) /\
   DataService.get_paper_by_id (mkDatabase QueryFails [row]) (lit "W1") = None) /\
  ((forall r, In r [row] -> work_id r <> Some (lit "W2")) /\
   Routes.get_paper_by_id (mkDatabase Up [row]) (lit "W2") [] =
     Raise (HTTPException 404 "Paper not found")).
Proof.
  intros row.
  assert (Hdown : status (mkDatabase QueryFails [row]) <> Up) by discriminate.
  assert (Hunknown : forall r, In r [row] -> work_id r <> Some (lit "W2")).
  { intros r [<- | []]. discriminate. }
  split.
  - destruct (C9_fetch_failures_do_not_propagate
                (mkDatabase QueryFails [row]) (lit "W1") [])
      as (_ & H & _).
    destruct (H Hdown) as (H1 & H2 & _). auto.
  - destruct (C9_fetch_failures_do_not_propagate
                (mkDatabase Up [row]) (lit "W2") [])
      as (_ & _ & H).
    destruct (H Hunknown) as (_ & H2 & _). auto.
Defined.

End RouteFacts.

(** ** The quotient of two ints as a double *)

Section DoubleFacts.

Import Routes.

Local Open Scope Z_scope.

(** The model of the quotient on three doubles: 1/3, 1/10, and
    [2 ^ 53 + 1], which is a tie and goes to the even neighbour. *)
Example double_of_quotient_examples :
  double_of_quotient 1 3 = QArith_base.Qmake 6004799503160661 (2 ^ 54) /\
  double_of_quotient 1 10 = QArith_base.Qmake 7205759403792794 (2 ^ 56) /\
  double_of_quotient (2 ^ 53 + 1) 1 = QArith_base.Qmake (2 ^ 53) 1.
Proof. repeat split; vm_compute; reflexivity. Qed.

(** [quotient_log2] is the binary exponent of the quotient. *)
Lemma quotient_log2_spec (a b : Z) :
  0 < a -> 0 < b ->
  let e := quotient_log2 a b in
  b * 2 ^ Z.max 0 e <= a * 2 ^ Z.max 0 (- e) < 2 * (b * 2 ^ Z.max 0 e).
Proof.
  intros Ha Hb.
  destruct (Z.log2_spec a Ha) as [A1 A2]. destruct (Z.log2_spec b Hb) as [B1 B2].
  pose proof (Z.log2_nonneg a) as La. pose proof (Z.log2_nonneg b) as Lb.
  rewrite Z.pow_succ_r in A2, B2 by assumption.
  unfold quotient_log2. set (lg := Z.log2 a - Z.log2 b).
  destruct (Z.le_gt_cases 0 lg) as [Hlg|Hlg].
  - assert (E : 2 ^ Z.log2 a = 2 ^ Z.log2 b * 2 ^ lg).
    { rewrite <- Z.pow_add_r by lia. f_equal. unfold lg. lia. }
    assert (HL : 0 < 2 ^ lg) by (apply Z.pow_pos_nonneg; lia).
    assert (HB : 0 < 2 ^ Z.log2 b) by (apply Z.pow_pos_nonneg; lia).
    rewrite (Z.max_l 0 (- lg)), (Z.max_r 0 lg) by lia.
    change (2 ^ 0) with 1. rewrite Z.mul_1_r.
    destruct (Z.ltb_spec a (b * 2 ^ lg)) as [T|T]; cbv zeta.
    + destruct (Z.eq_dec lg 0) as [Z0|Z0].
      * rewrite Z0 in *. change (Z.max 0 (0 - 1)) with 0.
        change (Z.max 0 (- (0 - 1))) with 1. change (2 ^ 0) with 1 in *.
        change (2 ^ 1) with 2. nia.
      * rewrite (Z.max_r 0 (lg - 1)), (Z.max_l 0 (- (lg - 1))) by lia.
        change (2 ^ 0) with 1.
        assert (E2 : 2 ^ lg = 2 * 2 ^ (lg - 1)).
        { rewrite <- Z.pow_succ_r by lia. f_equal. lia. }
        assert (0 < 2 ^ (lg - 1)) by (apply Z.pow_pos_nonneg; lia).
        nia.
    + rewrite (Z.max_r 0 lg), (Z.max_l 0 (- lg)) by lia.
      change (2 ^ 0) with 1. nia.
  - assert (E : 2 ^ Z.log2 b = 2 ^ Z.log2 a * 2 ^ (- lg)).
    { rewrite <- Z.pow_add_r by lia. f_equal. unfold lg. lia. }
    assert (HM : 0 < 2 ^ (- lg)) by (apply Z.pow_pos_nonneg; lia).
    assert (HA : 0 < 2 ^ Z.log2 a) by (apply Z.pow_pos_nonneg; lia).
    rewrite (Z.max_r 0 (- lg)), (Z.max_l 0 lg) by lia.
    change (2 ^ 0) with 1. rewrite Z.mul_1_r.
    destruct (Z.ltb_spec (a * 2 ^ (- lg)) b) as [T|T]; cbv zeta.
    + rewrite (Z.max_l 0 (lg - 1)), (Z.max_r 0 (- (lg - 1))) by lia.
      change (2 ^ 0) with 1.
      assert (E2 : 2 ^ (- (lg - 1)) = 2 * 2 ^ (- lg)).
      { rewrite <- Z.pow_succ_r by lia. f_equal. lia. }
      nia.
    + rewrite (Z.max_l 0 lg), (Z.max_r 0 (- lg)) by lia.
      change (2 ^ 0) with 1. nia.
Qed.

Lemma round_half_even_near (n d : Z) :
  (0 < d)%Z ->
  (2 * (round_half_even n d * d - n) <= d /\
   2 * (n - round_half_even n d * d) <= d)%Z.
Proof.
  intros Hd. unfold round_half_even.
  pose proof (Z.div_mod n d ltac:(lia)) as E.
  pose proof (Z.mod_pos_bound n d Hd) as B.
  destruct (Z.ltb_spec (2 * (n mod d))%Z d); [nia|].
  destruct (Z.ltb_spec d (2 * (n mod d))%Z); [nia|].
  destruct (Z.even (n / d)%Z); nia.
Qed.

Lemma round_half_even_exact (k d : Z) :
  (0 < d)%Z -> round_half_even (k * d)%Z d = k.
Proof.
  intros Hd. unfold round_half_even.
  rewrite Z.div_mul, Z.mod_mul by lia.
  destruct (Z.ltb_spec (2 * 0)%Z d); [reflexivity | lia].
Qed.

Lemma quotient_log2_le (a b : Z) :
  (0 < a)%Z -> (0 < b)%Z -> (quotient_log2 a b <= Z.log2 a)%Z.
Proof.
  intros Ha Hb. unfold quotient_log2.
  pose proof (Z.log2_nonneg b).
  destruct (_ <? _)%Z; lia.
Qed.

(** Below [2 ^ 46] rows and up to 100 rows a page, rounding the quotient to
    a double does not move its ceiling: the double is within [2 ^ -8] of
    the quotient, and the quotient, unless it is an integer, is at least
    1/100 away from the integers around it. *)
Lemma ceil_double_of_quotient (t l : Z) :
  (0 < t < 2 ^ 46)%Z -> (1 <= l <= 100)%Z ->
  math_ceil (double_of_quotient t l) = (- ((- t) / l))%Z.
Proof.
  intros Ht Hl.
  assert (Hlog : (Z.log2 t < 46)%Z) by (apply Z.log2_lt_pow2; lia).
  pose proof (quotient_log2_le t l ltac:(lia) ltac:(lia)) as Hq.
  unfold double_of_quotient.
  set (s := (52 - quotient_log2 t l)%Z).
  assert (Hs : (7 <= s)%Z) by (unfold s; lia).
  rewrite (Z.max_r 0 s), (Z.max_l 0 (- s)) by lia.
  change (2 ^ 0)%Z with 1%Z. rewrite !Z.mul_1_r.
  set (P := (2 ^ s)%Z).
  assert (HP : (128 <= P)%Z).
  { unfold P. change 128%Z with (2 ^ 7)%Z. apply Z.pow_le_mono_r; lia. }
  set (m := round_half_even (t * P)%Z l).
  unfold math_ceil, Qround.Qceiling, Qround.Qfloor, QArith_base.Qopp.
  cbn [QArith_base.Qnum QArith_base.Qden].
  rewrite Z2Pos.id by lia.
  set (k := (- ((- t) / l))%Z).
  assert (Hk : (l * (k - 1) < t <= l * k)%Z).
  { unfold k. pose proof (Z.div_mod (- t) l ltac:(lia)).
    pose proof (Z.mod_pos_bound (- t) l ltac:(lia)). nia. }
  destruct (Z.eq_dec t (l * k)%Z) as [E|E].
  - assert (Hm : m = (k * P)%Z).
    { unfold m. rewrite E.
      replace (l * k * P)%Z with ((k * P) * l)%Z by ring.
      apply round_half_even_exact. lia. }
    rewrite Hm, <- Z.mul_opp_l, Z.div_mul by lia. lia.
  - destruct (round_half_even_near (t * P)%Z l ltac:(lia)) as [H1 H2].
    fold m in H1, H2.
    assert (Hlo : ((k - 1) * P < m)%Z) by nia.
    assert (Hhi : (m < k * P)%Z) by nia.
    pose proof (Z.div_mod (- m) P ltac:(lia)).
    pose proof (Z.mod_pos_bound (- m) P ltac:(lia)). nia.
Qed.

(** The ceiling of the exact quotient is the least number of pages of [l]
    rows that hold [t] rows. *)
Lemma ceil_bounds (t l : Z) :
  (0 < l)%Z ->
  (l * (- ((- t) / l) - 1) < t <= l * - ((- t) / l))%Z.
Proof.
  intros Hl.
  pose proof (Z.div_mod (- t) l ltac:(lia)).
  pose proof (Z.mod_pos_bound (- t) l Hl). nia.
Qed.

End DoubleFacts.

(** ** The pagination block (C3) *)

Section PaginationFacts.

Import Routes.

(** The division of the route: it returns for a limit of at least 1, and
    for a frame with rows it is the double of the quotient. *)
Lemma true_div_returns (t l : Z) :
  (0 < t)%Z -> (1 <= l)%Z -> true_div t l = Ok (double_of_quotient t l).
Proof.
  intros Ht Hl. unfold true_div.
  destruct (Z.eqb_spec l 0); [lia|]. destruct (Z.eqb_spec t 0); [lia|].
  rewrite !Z.abs_eq by lia.
  destruct (Z.ltb_spec (Z.sgn t * Z.sgn l)%Z 0); [nia | reflexivity].
Qed.

(** C3, as the code has it.  For a page of at least 1 and a limit from 1 to
    100, the response is built from a block with the page, the limit and the
    number of rows of the frame.  Its [total_pages] is 0 for a frame without
    rows and otherwise the ceiling of the double [total / limit], which for
    fewer than [2 ^ 46] rows is the ceiling of the exact quotient: the least
    number of pages of [limit] rows that hold all rows.  [has_next] says
    that the page is before the last one, and [has_previous] that the page
    is after the first one and the frame has rows.  The call raises only
    when a row of the page cannot be formatted. *)
Theorem C3_pagination_block (h : Store) (a : ref) (frame : DataFrame)
    (pg lim : Z) (filters_applied : option (gmap string (list str))) :
  h !! a = Some frame -> (1 <= pg)%Z -> (1 <= lim <= 100)%Z ->
  exists block : Pagination,
    page block = pg /\ limit block = lim /\ total block = df_len frame /\
    total_pages block =
      (if df_empty frame then 0%Z
       else math_ceil (double_of_quotient (df_len frame) lim)) /\
    ((df_len frame < 2 ^ 46)%Z ->
     total_pages block = (- ((- df_len frame) / lim))%Z /\
     (lim * (total_pages block - 1) < total block <= lim * total_pages block)%Z) /\
    (has_next block = true <-> (pg < total_pages block)%Z) /\
    (has_previous block = true <-> (pg > 1)%Z /\ frame <> []) /\
    _create_paginated_response a pg lim filters_applied h =
      match format_rows (iloc_slice frame ((pg - 1) * lim)
                                          ((pg - 1) * lim + lim)) with
      | Ok papers =>
          Ok (mkPaginatedResponse papers block (or_empty filters_applied), h)
      | Raise e => Raise e
      end.
Proof.
  intros Ha Hpg Hlim. unfold _create_paginated_response, bind, deref.
  rewrite Ha. destruct frame as [|e frame].
  - exists (mkPagination pg lim 0 0 false false).
    assert (Hslice : forall start stop, iloc_slice [] start stop = []).
    { intros start stop. unfold iloc_slice. rewrite drop_nil. apply take_nil. }
    rewrite Hslice.
    cbn [page limit total total_pages has_next has_previous df_empty df_len
         length format_rows ret].
    split; [reflexivity|]. split; [reflexivity|]. split; [reflexivity|].
    split; [reflexivity|].
    split; [intros _; change (- Z.of_nat 0)%Z with 0%Z; rewrite Z.div_0_l; lia|].
    split; [split; [discriminate | lia]|].
    split; [|reflexivity].
    split; [discriminate | intros [_ H]; congruence].
  - cbn [df_empty].
    assert (Hpos : (0 < df_len (e :: frame))%Z) by (unfold df_len; cbn; lia).
    rewrite (true_div_returns _ _ Hpos) by lia.
    exists (mkPagination pg lim (df_len (e :: frame))
                         (math_ceil (double_of_quotient (df_len (e :: frame)) lim))
                         (pg <? math_ceil (double_of_quotient (df_len (e :: frame)) lim))%Z
                         (1 <? pg)%Z).
    cbn [page limit total total_pages has_next has_previous].
    split; [reflexivity|]. split; [reflexivity|]. split; [reflexivity|].
    split; [reflexivity|]. split.
    { intros Hsmall.
      rewrite (ceil_double_of_quotient _ lim) by lia.
      split; [reflexivity | apply ceil_bounds; lia]. }
    split; [apply Z.ltb_lt|]. split.
    + rewrite Z.ltb_lt. split; [intros H; split; [lia | discriminate] | lia].
    + unfold lift. destruct (format_rows _); reflexivity.
Qed.

Lemma C3_witness :
  let row := mkRow (Some (lit "W1")) (Some (lit "T")) (Some (lit "A."))
                   None None (YearNum 2020) None in
  let frame := read_sql [row; row; row] in
  [frame] !! 0%nat = Some frame /\ (1 <= 2)%Z /\ (1 <= 2 <= 100)%Z /\
  exists block : Pagination,
    total block = 3%Z /\ total_pages block = 2%Z /\
    (has_next block = true <-> (2 < total_pages block)%Z) /\
    (has_previous block = true <-> (2 > 1)%Z /\ frame <> []).
Proof.
  intros row frame.
  split; [reflexivity|]. split; [lia|]. split; [lia|].
  destruct (C3_pagination_block [frame] 0%nat frame 2 2 None)
    as (block & _ & _ & H3 & H4 & _ & H5 & H6 & _); [reflexivity | lia | lia |].
  exists block. split; [exact H3|]. split; [|split; [exact H5 | exact H6]].
  rewrite H4. vm_compute. reflexivity.
Defined.

(** On an empty result set the block says that there is no previous page,
    whatever the page asked for: here page 2 of an empty table. *)
Lemma C3_no_previous_page_on_empty_result :
  exists response h',
    get_papers (mkDatabase Up []) 2 15 [] = Ok (response, h') /\
    total (pagination response) = 0%Z /\
    page (pagination response) = 2%Z /\
    has_previous (pagination response) = false.
Proof. eexists _, _. vm_compute. auto. Qed.

End PaginationFacts.

(** ** The formatter: authors (C6) *)

Section AuthorFacts.

Lemma contains_char (c : ascii) (s : str) : contains [c] s = true <-> In c s.
Proof.
  induction s as [|y s IH]; cbn [contains startswith In].
  - split; [discriminate | tauto].
  - unfold ascii_eqb at 1. rewrite orb_true_iff, andb_true_r, Ascii.eqb_eq, IH.
    split; intros [H|H]; auto.
Qed.

Lemma split_on_not_nil (sep : ascii) (s : str) : split_on sep s <> [].
Proof.
  destruct s as [|c s]; cbn [split_on]; [discriminate|].
  destruct (ascii_eqb c sep); [discriminate|].
  destruct (split_on sep s); discriminate.
Qed.

(** [split_on] cuts at the separators and nowhere else: joining the pieces
    with the separator gives the text back, and no piece holds one. *)
Lemma join_cons (sep p : str) (ps : list str) :
  ps <> [] -> join sep (p :: ps) = p ++ sep ++ join sep ps.
Proof. destruct ps; [contradiction | reflexivity]. Qed.

Lemma join_cons_char (sep p : str) (ps : list str) (c : ascii) :
  join sep ((c :: p) :: ps) = c :: join sep (p :: ps).
Proof. destruct ps; reflexivity. Qed.

Lemma join_split_on (sep : ascii) (s : str) : join [sep] (split_on sep s) = s.
Proof.
  induction s as [|c s IH]; [reflexivity|]. cbn [split_on].
  pose proof (split_on_not_nil sep s) as Hne.
  destruct (ascii_eqb c sep) eqn:E.
  - apply Ascii.eqb_eq in E. subst c.
    rewrite join_cons by exact Hne. rewrite IH. reflexivity.
  - destruct (split_on sep s) as [|p ps]; [contradiction|].
    rewrite join_cons_char, IH. reflexivity.
Qed.

Lemma split_on_pieces (sep : ascii) (s : str) :
  Forall (fun piece => ~ In sep piece) (split_on sep s).
Proof.
  induction s as [|c s IH]; cbn [split_on].
  - constructor; [tauto | constructor].
  - destruct (ascii_eqb c sep) eqn:E.
    + constructor; [tauto | exact IH].
    + destruct (split_on sep s) as [|p ps]; [repeat constructor; intros [->|[]]|].
      * unfold ascii_eqb in E. rewrite Ascii.eqb_refl in E. discriminate.
      * inversion IH as [|? ? Hp Hps]; subst. constructor; [|exact Hps].
        intros [->|H]; [|tauto].
        unfold ascii_eqb in E. rewrite Ascii.eqb_refl in E. discriminate.
Qed.

Lemma capped_length (s : str) : (length (capped s) <= 200)%nat.
Proof.
  unfold capped. destruct (Nat.ltb_spec 200 (length s)) as [H|H]; [|lia].
  rewrite length_app, length_take.
  change (length (lit "...")) with 3%nat. lia.
Qed.

(** C6, as the code has it.  For a raw authorship string that is not empty:
    with a semicolon in it, it is split at the semicolons, the names are
    stripped, the empty ones dropped and the rest joined with a comma and a
    space; without one it is taken as it is; the outcome is returned when
    it has at most 200 characters, and otherwise its first 197 characters
    followed by three dots.  So a string of 250 characters without a
    semicolon gives its first 197 characters and three dots. *)
Theorem C6_authors_normalised_and_capped (raw : str) :
  raw <> [] ->
  (In ";"%char raw ->
   normalised raw = join ", " (List.filter nonempty (map strip (split_on ";" raw)))) /\
  (~ In ";"%char raw -> normalised raw = raw) /\
  _parse_authors (Some raw) = Some (capped (normalised raw)) /\
  (length (capped (normalised raw)) <= 200)%nat /\
  ((length (normalised raw) <= 200)%nat -> capped (normalised raw) = normalised raw) /\
  (length raw = 250%nat -> ~ In ";"%char raw ->
   _parse_authors (Some raw) = Some (take 197 raw ++ "...")).
Proof.
  intros Hne.
  assert (Hsemi : In ";"%char raw ->
            normalised raw =
            join ", " (List.filter nonempty (map strip (split_on ";" raw)))).
  { intros H. unfold normalised.
    apply (contains_char ";"%char) in H. change (lit ";") with [";"%char].
    rewrite H. reflexivity. }
  assert (Hplain : ~ In ";"%char raw -> normalised raw = raw).
  { intros H. unfold normalised. change (lit ";") with [";"%char].
    destruct (contains [";"%char] raw) eqn:E; [|reflexivity].
    apply contains_char in E. contradiction. }
  assert (Hrun : _parse_authors (Some raw) = Some (capped (normalised raw))).
  { destruct raw as [|c raw]; [contradiction|].
    unfold _parse_authors, capped, normalised.
    destruct (200 <? length _)%nat; reflexivity. }
  split; [exact Hsemi|]. split; [exact Hplain|]. split; [exact Hrun|].
  split; [apply capped_length|]. split.
  - intros Hlen. unfold capped.
    destruct (Nat.ltb_spec 200 (length (normalised raw))); [lia | reflexivity].
  - intros Hlen Hno. rewrite Hrun, (Hplain Hno). unfold capped.
    rewrite Hlen. reflexivity.
Qed.

Lemma C6_witness :
  lit "Smith J; Doe A; " <> [] /\ In ";"%char (lit "Smith J; Doe A; ") /\
  normalised "Smith J; Doe A; " = lit "Smith J, Doe A" /\
  _parse_authors (Some (lit "Smith J; Doe A; ")) = Some (lit "Smith J, Doe A").
Proof.
  assert (Hne : lit "Smith J; Doe A; " <> []) by discriminate.
  assert (Hin : In ";"%char (lit "Smith J; Doe A; "))
    by (apply contains_char; reflexivity).
  destruct (C6_authors_normalised_and_capped (lit "Smith J; Doe A; ") Hne)
    as (H1 & _ & H3 & _).
  split; [exact Hne|]. split; [exact Hin|]. split.
  - rewrite (H1 Hin). reflexivity.
  - rewrite H3, (H1 Hin). reflexivity.
Defined.

(** The empty author string and the NULL cell give [None]. *)
Lemma _parse_authors_nothing :
  _parse_authors (Some []) = None /\ _parse_authors None = None.
Proof. split; reflexivity. Qed.

(** A string of 250 characters with semicolons does not give its own first
    197 characters: 250 semicolons hold no name at all, and the result is
    the empty string. *)
Lemma C6_semicolons_only :
  let raw := repeat ";"%char 250 in
  length raw = 250%nat /\
  _parse_authors (Some raw) = Some [] /\
  _parse_authors (Some raw) <> Some (take 197 raw ++ "...").
Proof.
  intros raw. split; [reflexivity|].
  assert (H : _parse_authors (Some raw) = Some []) by (vm_compute; reflexivity).
  split; [exact H|]. rewrite H. discriminate.
Qed.

End AuthorFacts.

(** ** The formatter: the abstract of the summary view (C5) *)

Section AbstractFacts.

Lemma split_from_not_nil (st : scan) (s : str) : split_from st s <> [].
Proof.
  revert st. induction s as [|c s IH]; intros st; cbn [split_from];
    [discriminate|].
  destruct (ascii_eqb c " "); [destruct st|]; try discriminate;
    try apply IH;
    unfold push; match goal with |- context [split_from ?st' s] =>
                   destruct (split_from st' s) end; discriminate.
Qed.

Lemma join_push (sep : str) (c : ascii) (pieces : list str) :
  pieces <> [] -> join sep (push c pieces) = c :: join sep pieces.
Proof.
  destruct pieces as [|p ps]; [contradiction|]. intros _.
  apply join_cons_char.
Qed.

Lemma single_spaced_tail (c : ascii) (s : str) :
  single_spaced (c :: s) = true -> single_spaced s = true.
Proof.
  cbn [single_spaced]. destruct s as [|d s]; [reflexivity|].
  intros H. apply andb_true_iff in H. tauto.
Qed.

Lemma single_spaced_after_space (d : ascii) (s : str) :
  single_spaced (" "%char :: d :: s) = true -> ascii_eqb d " " = false.
Proof.
  cbn [single_spaced]. intros H. apply andb_true_iff in H as [H _].
  destruct (ascii_eqb d " "); [discriminate H | reflexivity].
Qed.

(** On a text without two spaces in a row, the cuts of [split_from] are
    single spaces: joining the pieces with a space gives the text back. *)
Lemma join_split_from (s : str) : forall st,
  (st = InCut -> match s with
                 | c :: _ => ascii_eqb c " " = false
                 | [] => True
                 end) ->
  single_spaced s = true ->
  join " " (split_from st s) = s.
Proof.
  induction s as [|c s IH]; intros st Hcut Hs; [reflexivity|].
  pose proof (single_spaced_tail c s Hs) as Hs'.
  cbn [split_from]. destruct (ascii_eqb c " ") eqn:Ec.
  - apply Ascii.eqb_eq in Ec. subst c. destruct st.
    + rewrite join_push by apply split_from_not_nil.
      rewrite IH; [reflexivity | discriminate | exact Hs'].
    + rewrite join_cons by apply split_from_not_nil.
      rewrite IH; [reflexivity | | exact Hs'].
      intros _. destruct s as [|d s]; [exact I|].
      apply (single_spaced_after_space d s Hs).
    + specialize (Hcut eq_refl). discriminate Hcut.
  - rewrite join_push by apply split_from_not_nil.
    rewrite IH; [reflexivity | | exact Hs'].
    destruct (ends_sentence c); discriminate.
Qed.

Lemma join_split_sentences (s : str) :
  single_spaced s = true -> join " " (split_sentences s) = s.
Proof. intros H. apply join_split_from; [discriminate | exact H]. Qed.

(** Every piece but the last ends a sentence. *)
Lemma split_from_ends (s : str) : forall st p ps,
  split_from st s = p :: ps -> ps <> [] ->
  ends_with_end (match st with AfterEnd => true | _ => false end) p = true /\
  Forall (fun piece => ends_with_end false piece = true) (removelast ps).
Proof.
  assert (Hstep : forall L : list str,
            L <> [] ->
            (forall p ps, L = p :: ps -> ps <> [] ->
               ends_with_end false p = true /\
               Forall (fun piece => ends_with_end false piece = true)
                      (removelast ps)) ->
            Forall (fun piece => ends_with_end false piece = true) (removelast L)).
  { intros [|p [|q ps]] Hne H; [contradiction | constructor |].
    destruct (H p (q :: ps) eq_refl) as [H1 H2]; [discriminate|].
    change (removelast (p :: q :: ps)) with (p :: removelast (q :: ps)).
    constructor; assumption. }
  induction s as [|c s IH]; intros st p ps E Hps; cbn [split_from] in E.
  - injection E as <- <-. contradiction.
  - destruct (ascii_eqb c " ") eqn:Ec.
    + destruct st.
      * pose proof (split_from_not_nil Plain s) as Hne.
        destruct (split_from Plain s) as [|p' ps'] eqn:E'; [contradiction|].
        cbn [push] in E. injection E as <- <-.
        destruct (IH Plain p' ps' E' Hps) as [H1 H2].
        split; [|exact H2]. cbn [ends_with_end].
        apply Ascii.eqb_eq in Ec. subst c. exact H1.
      * injection E as <- <-. split; [reflexivity|].
        apply Hstep; [apply split_from_not_nil|].
        intros p' ps' E' Hps'. apply (IH InCut p' ps' E' Hps').
      * apply (IH InCut p ps E Hps).
    + pose proof (split_from_not_nil
                    (if ends_sentence c then AfterEnd else Plain) s) as Hne.
      destruct (split_from (if ends_sentence c then AfterEnd else Plain) s)
        as [|p' ps'] eqn:E'; [contradiction|].
      cbn [push] in E. injection E as <- <-.
      destruct (IH _ p' ps' E' Hps) as [H1 H2].
      split; [|exact H2]. cbn [ends_with_end].
      destruct (ends_sentence c); exact H1.
Qed.

Lemma split_sentences_ends (s : str) :
  Forall (fun piece => ends_with_end false piece = true)
         (removelast (split_sentences s)).
Proof.
  unfold split_sentences.
  pose proof (split_from_not_nil Plain s) as Hne.
  destruct (split_from Plain s) as [|p [|q ps]] eqn:E;
    [contradiction | constructor |].
  destruct (split_from_ends s Plain p (q :: ps) E) as [H1 H2]; [discriminate|].
  change (removelast (p :: q :: ps)) with (p :: removelast (q :: ps)).
  constructor; assumption.
Qed.

(** After a character that ends a sentence, and inside a cut, the piece
    being read does not go on with a space. *)
Lemma split_from_head (s : str) (st : scan) :
  st <> Plain ->
  match split_from st s with
  | (d :: _) :: _ => ascii_eqb d " " = false
  | _ => True
  end.
Proof.
  revert st. induction s as [|c s IH]; intros st Hst; cbn [split_from];
    [exact I|].
  destruct (ascii_eqb c " ") eqn:Ec.
  - destruct st; [contradiction | exact I | apply IH; discriminate].
  - unfold push. destruct (split_from _ s) as [|p ps]; exact Ec.
Qed.

(** No piece holds a cut. *)
Lemma split_from_no_cut (s : str) : forall st,
  Forall (fun piece => has_cut piece = false) (split_from st s).
Proof.
  induction s as [|c s IH]; intros st; cbn [split_from].
  - repeat constructor.
  - assert (Hpush : forall st',
              (ends_sentence c = true -> st' <> Plain) ->
              Forall (fun piece => has_cut piece = false)
                     (push c (split_from st' s))).
    { intros st' Hst'. pose proof (IH st') as H.
      pose proof (split_from_head s st') as Hhead.
      destruct (split_from st' s) as [|p ps]; [repeat constructor|].
      inversion H as [|? ? Hp Hps]; subst. cbn [push].
      constructor; [|exact Hps]. cbn [has_cut].
      destruct p as [|d p]; [reflexivity|]. rewrite Hp, orb_false_r.
      destruct (ends_sentence c) eqn:Ee; [|reflexivity].
      rewrite (Hhead (Hst' eq_refl)). reflexivity. }
    destruct (ascii_eqb c " ") eqn:Ec.
    + destruct st.
      * apply Hpush. apply Ascii.eqb_eq in Ec. subst c. discriminate.
      * constructor; [reflexivity | apply IH].
      * apply IH.
    + apply Hpush. intros ->. discriminate.
Qed.

(** The words of [split_ws]. *)
Lemma split_ws_aux_words (s : str) : forall word,
  forallb (fun c => negb (isspace c)) word = true ->
  Forall is_word (split_ws_aux word s).
Proof.
  assert (Hrev : forall word : str,
            word <> [] -> forallb (fun c => negb (isspace c)) word = true ->
            is_word (rev word)).
  { intros word Hne Hw. split.
    - intros E. apply Hne. rewrite <- (rev_involutive word), E. reflexivity.
    - apply forallb_forall. intros c Hc. apply in_rev in Hc.
      revert c Hc. apply forallb_forall. exact Hw. }
  induction s as [|c s IH]; intros word Hw; cbn [split_ws_aux].
  - destruct word as [|a word]; [constructor|].
    constructor; [|constructor]. apply Hrev; [discriminate | exact Hw].
  - destruct (isspace c) eqn:Ec.
    + destruct word as [|a word]; [apply IH; reflexivity|].
      constructor; [apply Hrev; [discriminate | exact Hw] | apply IH; reflexivity].
    + apply IH. cbn [forallb]. rewrite Ec, Hw. reflexivity.
Qed.

Lemma isspace_space (c : ascii) : ascii_eqb c " " = true -> isspace c = true.
Proof. intros H. apply Ascii.eqb_eq in H. subst c. reflexivity. Qed.

Lemma word_single_spaced (w : str) :
  forallb (fun c => negb (isspace c)) w = true -> single_spaced w = true.
Proof.
  induction w as [|c w IH]; [reflexivity|]. cbn [forallb single_spaced].
  intros H. apply andb_true_iff in H as [Hc Hw].
  destruct w as [|d w]; [reflexivity|]. rewrite (IH Hw), andb_true_r.
  destruct (ascii_eqb c " ") eqn:E; [|reflexivity].
  apply isspace_space in E. rewrite E in Hc. discriminate Hc.
Qed.

(** Words joined by single spaces: no two spaces in a row, and no space at
    the front. *)
Lemma join_words_single_spaced (words : list str) :
  Forall is_word words ->
  single_spaced (join " " words) = true /\
  match join " " words with
  | c :: _ => ascii_eqb c " " = false
  | [] => words = []
  end.
Proof.
  induction 1 as [|w words [Hne Hw] Hwords [IH1 IH2]]; [split; reflexivity|].
  assert (Hhead : match w with
                  | c :: _ => ascii_eqb c " " = false
                  | [] => False
                  end).
  { destruct w as [|c w]; [contradiction|]. cbn [forallb] in Hw.
    apply andb_true_iff in Hw as [Hc _].
    destruct (ascii_eqb c " ") eqn:E; [|reflexivity].
    apply isspace_space in E. rewrite E in Hc. discriminate Hc. }
  destruct words as [|w' words'].
  { cbn [join]. split; [apply word_single_spaced; exact Hw|].
    destruct w; [contradiction | exact Hhead]. }
  rewrite join_cons by discriminate.
  set (rest := join " " (w' :: words')) in *.
  assert (Hrest : match rest with
                  | d :: _ => ascii_eqb d " " = false
                  | [] => False
                  end).
  { destruct rest; [discriminate IH2 | exact IH2]. }
  split; [|destruct w; [contradiction | exact Hhead]].
  clear Hhead IH2 Hwords. change (lit " " ++ rest) with (" "%char :: rest).
  induction w as [|c w IHw]; [contradiction|].
  cbn [forallb] in Hw. apply andb_true_iff in Hw as [Hc Hw].
  assert (Ec : ascii_eqb c " " = false).
  { destruct (ascii_eqb c " ") eqn:E; [|reflexivity].
    apply isspace_space in E. rewrite E in Hc. discriminate Hc. }
  destruct w as [|d w].
  - cbn [app single_spaced]. rewrite Ec. cbn [andb negb].
    destruct rest as [|d rest]; [contradiction|].
    rewrite Hrest, IH1. reflexivity.
  - cbn [app single_spaced]. rewrite Ec. cbn [andb negb].
    apply IHw; [discriminate | exact Hw].
Qed.

Lemma single_spaced_prefix (m b : str) :
  single_spaced (m ++ b) = true -> single_spaced m = true.
Proof.
  induction m as [|c m IH]; [reflexivity|].
  destruct m as [|d m]; [reflexivity|].
  cbn [app single_spaced]. intros H. apply andb_true_iff in H as [H1 H2].
  rewrite H1. apply IH. exact H2.
Qed.

Lemma single_spaced_suffix (a m : str) :
  single_spaced (a ++ m) = true -> single_spaced m = true.
Proof.
  induction a as [|c a IH]; [tauto|].
  intros H. apply IH. apply (single_spaced_tail c). exact H.
Qed.

Lemma lstrip_suffix (s : str) : exists a, s = a ++ lstrip s.
Proof.
  induction s as [|c s [a IH]]; [exists []; reflexivity|].
  cbn [lstrip]. destruct (isspace c).
  - exists (c :: a). cbn [app]. rewrite <- IH. reflexivity.
  - exists []. reflexivity.
Qed.

(** [strip] keeps a stretch of the text. *)
Lemma strip_infix (s : str) : exists a b, s = a ++ strip s ++ b.
Proof.
  unfold strip, rstrip.
  destruct (lstrip_suffix s) as [a Ha].
  destruct (lstrip_suffix (rev (lstrip s))) as [b Hb].
  exists a, (rev b). rewrite <- rev_app_distr, <- Hb, rev_involutive.
  exact Ha.
Qed.

(** The cleaned text has no two spaces in a row. *)
Lemma _clean_text_single_spaced (text : str) :
  single_spaced (_clean_text text) = true.
Proof.
  unfold _clean_text. destruct (negb (nonempty text)); [reflexivity|].
  set (words := split_ws (remove_tags false text)).
  destruct (strip_infix (join " " words)) as (a & b & E).
  assert (H : single_spaced (join " " words) = true).
  { apply join_words_single_spaced. apply split_ws_aux_words. reflexivity. }
  rewrite E in H. apply single_spaced_suffix in H.
  apply single_spaced_prefix in H. exact H.
Qed.

(** C5, as the code has it.  For an abstract that is not empty, the
    sentences are the pieces of the cleaned text between its cuts, a cut
    being the space after a full stop, an exclamation mark or a question
    mark: joined by single spaces they give the cleaned text, each but the
    last ends with one of the three marks, and none holds a cut.  With at
    most 3 sentences the cleaned text is returned whole, with no dots added.
    With more, and so with 5, the first 3 are returned, joined by single
    spaces and followed by three dots. *)
Theorem C5_summary_abstract (abstract : str) :
  abstract <> [] ->
  let clean := _clean_text abstract in
  let sentences := split_sentences clean in
  (join " " sentences = clean /\
   Forall (fun piece => ends_with_end false piece = true) (removelast sentences) /\
   Forall (fun piece => has_cut piece = false) sentences) /\
  ((length sentences <= 3)%nat -> _truncate_abstract abstract = Some clean) /\
  (forall s1 s2 s3 rest,
     sentences = s1 :: s2 :: s3 :: rest -> rest <> [] ->
     _truncate_abstract abstract =
     Some (s1 ++ " " ++ s2 ++ " " ++ s3 ++ "...")) /\
  (forall s1 s2 s3 s4 s5,
     sentences = [s1; s2; s3; s4; s5] ->
     _truncate_abstract abstract =
     Some (s1 ++ " " ++ s2 ++ " " ++ s3 ++ "...")).
Proof.
  intros Hne clean sentences.
  assert (Hrun : _truncate_abstract abstract =
                 if (length sentences <=? 3)%nat then Some clean
                 else Some (join " " (take 3 sentences) ++ "...")).
  { unfold _truncate_abstract. destruct abstract; [contradiction | reflexivity]. }
  assert (Hmore : forall s1 s2 s3 rest,
            sentences = s1 :: s2 :: s3 :: rest -> rest <> [] ->
            _truncate_abstract abstract =
            Some (s1 ++ " " ++ s2 ++ " " ++ s3 ++ "...")).
  { intros s1 s2 s3 rest E Hrest. rewrite Hrun, E.
    destruct rest as [|s4 rest]; [contradiction|].
    cbn [length Nat.leb take join]. rewrite <- !app_assoc. reflexivity. }
  split; [|split; [|split; [exact Hmore|]]].
  - split; [apply join_split_sentences, _clean_text_single_spaced|].
    split; [apply split_sentences_ends | apply split_from_no_cut].
  - intros Hlen. rewrite Hrun.
    destruct (Nat.leb_spec (length sentences) 3); [reflexivity | lia].
  - intros s1 s2 s3 s4 s5 E. apply (Hmore s1 s2 s3 [s4; s5] E). discriminate.
Qed.

Lemma C5_witness :
  let abstract := lit "One  <b>two</b>. Three! Four? Five. Six." in
  abstract <> [] /\
  split_sentences (_clean_text abstract) =
    [lit "One two."; lit "Three!"; lit "Four?"; lit "Five."; lit "Six."] /\
  _truncate_abstract abstract = Some (lit "One two. Three! Four?...").
Proof.
  intros abstract.
  assert (Hne : abstract <> []) by discriminate.
  assert (E : split_sentences (_clean_text abstract) =
              [lit "One two."; lit "Three!"; lit "Four?"; lit "Five."; lit "Six."])
    by (vm_compute; reflexivity).
  destruct (C5_summary_abstract abstract Hne) as (_ & _ & _ & H).
  split; [exact Hne|]. split; [exact E|].
  rewrite (H _ _ _ _ _ E). reflexivity.
Defined.

(** The empty abstract has at most 3 sentences, and it is not returned: the
    result is [None].  And what is returned of an abstract of 2 sentences
    is its cleaned text: of two spaces one is left. *)
Lemma C5_empty_abstract_gives_none :
  (length (split_sentences (_clean_text [])) <= 3)%nat /\
  _truncate_abstract [] = None /\
  _truncate_abstract [] <> Some [] /\
  _truncate_abstract (lit "A.  B.") = Some (lit "A. B.").
Proof.
  split; [cbn; lia|]. split; [reflexivity|].
  split; [discriminate | reflexivity].
Qed.

End AbstractFacts.

(** * Further properties of the services *)

(** ** What the patterns find *)

Section MorePatternFacts.

Implicit Types (out label key value : str).

(** [search] of a key/value pattern, spelled out. *)
Lemma search_kv_iff key value out :
  search (kv_pattern key value) out = true <->
  exists pre q1 q2 ws q3 q4 post,
    is_quote q1 = true /\ is_quote q2 = true /\ forallb isspace ws = true /\
    is_quote q3 = true /\ is_quote q4 = true /\
    out = pre ++ kv_text q1 key q2 ws q3 value q4 ++ post.
Proof.
  rewrite search_spec. split.
  - intros (pre & m & post & -> & H).
    apply matches_kv in H as (q1 & q2 & ws & q3 & q4 & H1 & H2 & H3 & H4 & H5 & ->).
    exists pre, q1, q2, ws, q3, q4, post. auto 10.
  - intros (pre & q1 & q2 & ws & q3 & q4 & post & H1 & H2 & H3 & H4 & H5 & ->).
    exists pre, (kv_text q1 key q2 ws q3 value q4), post.
    split; [reflexivity|]. apply matches_kv.
    exists q1, q2, ws, q3, q4. auto 10.
Qed.

(** X1.  A pharma group is matched letter for letter, whatever the label
    is: the filter of one group accepts a blob exactly when the blob holds
    the key [group] and that very label, each between quotation marks, with
    a colon after the key and any white space after the colon.  Brackets,
    slashes and the like in the label stand for themselves. *)
Theorem X1_pharma_group_matched_literally (group out : str) :
  _matches_pharma_groups out [group] = true <->
  exists pre q1 q2 ws q3 q4 post,
    is_quote q1 = true /\ is_quote q2 = true /\ forallb isspace ws = true /\
    is_quote q3 = true /\ is_quote q4 = true /\
    out = pre ++ kv_text q1 "group" q2 ws q3 group q4 ++ post.
Proof.
  rewrite _matches_pharma_groups_spec. cbn [existsb]. rewrite orb_false_r.
  unfold group_pattern. apply search_kv_iff.
Qed.

Lemma extract_sublist patterns out :
  sublist (extract patterns out) (map snd patterns).
Proof.
  induction patterns as [|[p l] ps IH]; cbn [extract map snd]; [constructor|].
  destruct (search p out); [apply sublist_skip | apply sublist_cons]; exact IH.
Qed.

Lemma table_labels_NoDup (category : string) : NoDup (map snd (table_of category)).
Proof.
  unfold table_of.
  destruct (String.eqb category "study_types");
    [|destruct (String.eqb category "phases");
      [|destruct (String.eqb category "pharma_groups")]];
    cbn [map snd study_type_patterns phase_patterns pharma_group_patterns];
    match goal with |- NoDup ?l => apply (bool_decide_unpack (NoDup l)) end;
    vm_compute; exact I.
Qed.

Lemma extracted_NoDup (category : string) out : NoDup (extracted category out).
Proof.
  apply (sublist_NoDup _ (map snd (table_of category)));
    [apply table_labels_NoDup | apply extract_sublist].
Qed.

(** X2.  What an extractor returns: labels of its table, each at most once
    and in the order of the table, each the label of a known code of the
    category whose pattern occurs in the blob. *)
Theorem X2_extracted_labels (category : string) out :
  sublist (extracted category out) (map snd (table_of category)) /\
  NoDup (extracted category out) /\
  forall label,
    In label (extracted category out) <->
    exists f, In f vocabulary /\ f_category f = category /\ f_label f = label /\
              search (kv_pattern (f_key f) (f_code f)) out = true.
Proof.
  split; [apply extract_sublist|]. split; [apply extracted_NoDup|].
  intros label. split.
  - intros H. apply extract_In in H as (pattern & Hp & Hs).
    apply table_vocabulary in Hp as (f & Hin & Hc & Hl & ->).
    exists f. auto.
  - intros (f & Hin & <- & <- & Hs). apply (facet_found f out Hin Hs).
Qed.

End MorePatternFacts.

(** ** One pair, one label *)

Section ExactPairFacts.

Implicit Types (s a b pre post key value ws : str).

Lemma no_quote_filter s : existsb is_quote s = false <-> List.filter is_quote s = [].
Proof.
  induction s as [|c s IH]; cbn [existsb List.filter]; [tauto|].
  destruct (is_quote c); cbn [orb]; [split; discriminate | exact IH].
Qed.

Lemma space_no_quote ws : forallb isspace ws = true -> existsb is_quote ws = false.
Proof.
  induction ws as [|c ws IH]; cbn [forallb existsb]; [reflexivity|].
  intros H. apply andb_true_iff in H as [Hc Hws]. rewrite (IH Hws), orb_false_r.
  destruct (is_quote c) eqn:Eq; [|reflexivity].
  unfold is_quote, ascii_eqb in Eq. apply orb_true_iff in Eq as [Eq|Eq];
    apply Ascii.eqb_eq in Eq; subst c; discriminate Hc.
Qed.

(** Two ways of cutting a text at its first quotation mark are one. *)
Lemma first_quote a : forall a' q q' b b',
  existsb is_quote a = false -> existsb is_quote a' = false ->
  is_quote q = true -> is_quote q' = true ->
  a ++ q :: b = a' ++ q' :: b' ->
  a = a' /\ q = q' /\ b = b'.
Proof.
  induction a as [|c a IH]; intros [|c' a'] q q' b b' Ha Ha' Hq Hq' E;
    cbn [app existsb] in *.
  - injection E as -> ->. auto.
  - injection E as -> _. apply orb_false_iff in Ha' as [Hc _]. congruence.
  - injection E as -> _. apply orb_false_iff in Ha as [Hc _]. congruence.
  - injection E as -> E. apply orb_false_iff in Ha as [_ Ha].
    apply orb_false_iff in Ha' as [_ Ha'].
    destruct (IH a' q q' b b' Ha Ha' Hq Hq' E) as (-> & -> & ->). auto.
Qed.

Lemma quotes_of_kv_text q1 key q2 ws q3 value q4 :
  existsb is_quote key = false -> existsb is_quote value = false ->
  forallb isspace ws = true ->
  is_quote q1 = true -> is_quote q2 = true ->
  is_quote q3 = true -> is_quote q4 = true ->
  List.filter is_quote (kv_text q1 key q2 ws q3 value q4) = [q1; q2; q3; q4].
Proof.
  intros Hk Hv Hws H1 H2 H3 H4. apply space_no_quote in Hws.
  apply no_quote_filter in Hk, Hv, Hws. unfold kv_text.
  rewrite !List.filter_app, Hk, Hv, Hws. cbn [List.filter].
  rewrite H1, H2, H3, H4. reflexivity.
Qed.

(** Where a pair written in a blob is found again as a pair, it is the same
    pair, and it is the whole blob. *)
Lemma kv_text_found_once q1 key q2 ws q3 value q4
    pre p1 key' p2 ws' p3 value' p4 post :
  existsb is_quote key = false -> existsb is_quote value = false ->
  existsb is_quote key' = false -> existsb is_quote value' = false ->
  forallb isspace ws = true -> forallb isspace ws' = true ->
  is_quote q1 = true -> is_quote q2 = true ->
  is_quote q3 = true -> is_quote q4 = true ->
  is_quote p1 = true -> is_quote p2 = true ->
  is_quote p3 = true -> is_quote p4 = true ->
  kv_text q1 key q2 ws q3 value q4 =
    pre ++ kv_text p1 key' p2 ws' p3 value' p4 ++ post ->
  key' = key /\ value' = value.
Proof.
  intros Hk Hv Hk' Hv' Hws Hws' Hq1 Hq2 Hq3 Hq4 Hp1 Hp2 Hp3 Hp4 E.
  assert (Hpre : existsb is_quote pre = false).
  { apply no_quote_filter.
    apply (f_equal (List.filter is_quote)) in E.
    rewrite !List.filter_app in E.
    rewrite !quotes_of_kv_text in E by assumption.
    apply (f_equal (@length ascii)) in E. rewrite !length_app in E.
    cbn [length] in E. destruct (List.filter is_quote pre); [reflexivity|].
    cbn [length] in E. lia. }
  pose proof (space_no_quote ws Hws) as Hw.
  pose proof (space_no_quote ws' Hws') as Hw'.
  unfold kv_text in E. rewrite <- !app_assoc in E. cbn [app] in E.
  apply (first_quote [] pre) in E as (_ & _ & E); [|reflexivity|assumption..].
  apply first_quote in E as (-> & _ & E); [|assumption..].
  change (":"%char :: ws ++ q3 :: value ++ [q4])
    with ((":"%char :: ws) ++ q3 :: value ++ [q4]) in E.
  change (":"%char :: ws' ++ p3 :: value' ++ p4 :: post)
    with ((":"%char :: ws') ++ p3 :: value' ++ p4 :: post) in E.
  apply first_quote in E as (_ & _ & E);
    [|cbn [existsb]; rewrite ?Hw, ?Hw'; reflexivity..|assumption|assumption].
  apply first_quote in E as (-> & _ & _); [|assumption..].
  auto.
Qed.

Lemma vocabulary_no_quote f :
  In f vocabulary ->
  existsb is_quote (f_key f) = false /\ existsb is_quote (f_code f) = false.
Proof.
  unfold vocabulary. cbn [In]. intros H.
  repeat destruct H as [<- | H]; try contradiction; split; reflexivity.
Qed.

(** A known code is known once: the key and the code name the facet. *)
Lemma vocabulary_key_code f f' :
  In f vocabulary -> In f' vocabulary ->
  f_key f' = f_key f -> f_code f' = f_code f -> f' = f.
Proof.
  unfold vocabulary. cbn [In]. intros H H'.
  repeat destruct H as [<- | H]; try contradiction;
    repeat destruct H' as [<- | H']; try contradiction;
    cbn [f_key f_code]; intros Ek Ec;
    first [reflexivity | vm_compute in Ec; discriminate Ec
          | vm_compute in Ek; discriminate Ek].
Qed.

(** X3.  A blob that is one pair of a known code and nothing else gives the
    label of that code and no other: not under its own category, where
    codes such as CS and CCS share letters, and not under another. *)
Theorem X3_one_pair_one_label (f : facet) (q1 q2 q3 q4 : ascii) (ws : str) :
  In f vocabulary ->
  is_quote q1 = true -> is_quote q2 = true ->
  is_quote q3 = true -> is_quote q4 = true ->
  forallb isspace ws = true ->
  let blob := kv_text q1 (f_key f) q2 ws q3 (f_code f) q4 in
  extracted (f_category f) blob = [f_label f] /\
  forall category : string,
    category <> f_category f -> extracted category blob = [].
Proof.
  intros Hin H1 H2 H3 H4 Hws blob.
  destruct (vocabulary_no_quote f Hin) as [Hk Hv].
  assert (Honly : forall (category : string) label,
            In label (extracted category blob) ->
            category = f_category f /\ label = f_label f).
  { intros category label H. apply extract_In in H as (pattern & Hp & Hs).
    apply table_vocabulary in Hp as (f' & Hin' & <- & <- & ->).
    apply search_spec in Hs as (pre & m & post & E & Hm).
    apply matches_kv in Hm
      as (p1 & p2 & ws' & p3 & p4 & P1 & P2 & Pws & P3 & P4 & ->).
    destruct (vocabulary_no_quote f' Hin') as [Hk' Hv'].
    destruct (kv_text_found_once q1 (f_key f) q2 ws q3 (f_code f) q4
                pre p1 (f_key f') p2 ws' p3 (f_code f') p4 post)
      as [Ek Ec]; try assumption.
    rewrite (vocabulary_key_code f f' Hin Hin' Ek Ec). auto. }
  assert (Hfound : In (f_label f) (extracted (f_category f) blob)).
  { apply (facet_found f blob Hin).
    replace blob with ([] ++ blob ++ []) by (cbn [app]; apply app_nil_r).
    apply search_kv_intro; assumption. }
  split.
  - pose proof (extracted_NoDup (f_category f) blob) as Hnd.
    destruct (extracted (f_category f) blob) as [|l1 [|l2 ls]] eqn:E.
    + destruct Hfound.
    + destruct (Honly (f_category f) l1) as [_ ->]; [rewrite E; left|]; reflexivity.
    + exfalso. inversion Hnd as [|? ? Hnot _]; subst. apply Hnot.
      destruct (Honly (f_category f) l1) as [_ ->]; [rewrite E; left; reflexivity|].
      destruct (Honly (f_category f) l2) as [_ ->];
        [rewrite E; right; left; reflexivity|].
      left.
  - intros category Hne.
    destruct (extracted category blob) as [|l ls] eqn:E; [reflexivity|].
    destruct (Honly category l) as [Hc _]; [rewrite E; left; reflexivity|].
    contradiction.
Qed.

Lemma X3_witness :
  let f := mkFacet "study_types" "code" "CS" "Case Series (CS)" in
  In f vocabulary /\ forallb isspace (lit "  ") = true /\
  extracted "study_types" (kv_text squote "code" dquote "  " dquote "CS" squote)
    = [lit "Case Series (CS)"] /\
  extracted "phases" (kv_text squote "code" dquote "  " dquote "CS" squote) = [].
Proof.
  intros f.
  assert (Hin : In f vocabulary) by in_list.
  destruct (X3_one_pair_one_label f squote dquote dquote squote (lit "  ") Hin)
    as [H1 H2]; try reflexivity.
  split; [exact Hin|]. split; [reflexivity|]. split; [exact H1|].
  apply H2. discriminate.
Defined.

End ExactPairFacts.

(** ** The filter options *)

Section SortedOptionsFacts.

Implicit Types (a b c : str) (df : DataFrame).

Lemma str_leb_total a : forall b, str_leb a b = true \/ str_leb b a = true.
Proof.
  induction a as [|x a IH]; intros [|y b]; cbn [str_leb]; auto.
  destruct (IH b) as [H|H]; rewrite H, !andb_true_r;
    destruct (Nat.lt_total (nat_of_ascii x) (nat_of_ascii y)) as [L|[E|L]];
    try (left; apply orb_true_iff; left; apply Nat.ltb_lt; exact L);
    try (right; apply orb_true_iff; left; apply Nat.ltb_lt; exact L);
    [left | right]; apply orb_true_iff; right; apply Nat.eqb_eq; auto.
Qed.

Lemma str_leb_trans a : forall b c,
  str_leb a b = true -> str_leb b c = true -> str_leb a c = true.
Proof.
  induction a as [|x a IH]; intros [|y b] [|z c]; cbn [str_leb];
    try reflexivity; try (intros; discriminate).
  rewrite !orb_true_iff, !andb_true_iff, !Nat.ltb_lt, !Nat.eqb_eq.
  intros [L1 | [E1 H1]] [L2 | [E2 H2]].
  - left. lia.
  - left. lia.
  - left. lia.
  - right. split; [lia | apply (IH b c H1 H2)].
Qed.

Lemma nat_of_ascii_inj (x y : ascii) : nat_of_ascii x = nat_of_ascii y -> x = y.
Proof.
  intros E. rewrite <- (ascii_nat_embedding x), <- (ascii_nat_embedding y), E.
  reflexivity.
Qed.

Lemma str_leb_antisym a : forall b,
  str_leb a b = true -> str_leb b a = true -> a = b.
Proof.
  induction a as [|x a IH]; intros [|y b]; cbn [str_leb];
    try reflexivity; try (intros; discriminate).
  rewrite !orb_true_iff, !andb_true_iff, !Nat.ltb_lt, !Nat.eqb_eq.
  intros [L1 | [E1 H1]] [L2 | [E2 H2]]; try lia.
  rewrite (nat_of_ascii_inj x y E1), (IH b H1 H2). reflexivity.
Qed.

#[local] Instance str_le_total : Total str_le.
Proof.
  intros a b. unfold str_le.
  destruct (str_leb_total a b) as [H|H]; rewrite H; [left | right]; exact I.
Qed.

#[local] Instance str_le_trans : Transitive str_le.
Proof.
  intros a b c H1 H2. unfold str_le in *.
  apply Is_true_true in H1, H2. apply Is_true_true.
  apply (str_leb_trans a b c H1 H2).
Qed.

#[local] Instance str_le_antisym : AntiSymm (=) str_le.
Proof.
  intros a b H1 H2. unfold str_le in *.
  apply Is_true_true in H1, H2. apply (str_leb_antisym a b H1 H2).
Qed.

Lemma sorted_list_sorted (labels : gset str) :
  StronglySorted str_le (sorted_list labels) /\ NoDup (sorted_list labels).
Proof.
  unfold sorted_list. split.
  - apply StronglySorted_merge_sort; apply _.
  - rewrite merge_sort_Permutation. apply NoDup_elements.
Qed.

Lemma options_sorted (category : string) df :
  StronglySorted str_le (options_of category (get_filter_options df)) /\
  NoDup (options_of category (get_filter_options df)).
Proof.
  unfold get_filter_options, options_of.
  destruct (df_empty df).
  { cbn. repeat match goal with
                | |- context [String.eqb ?x ?y] => destruct (String.eqb x y)
                end; split; constructor. }
  destruct (collect df (∅, ∅, ∅)) as [[x y] z].
  cbn [fo_study_types fo_phases fo_pharma_groups].
  repeat match goal with
         | |- context [String.eqb ?x ?y] => destruct (String.eqb x y)
         end; try apply sorted_list_sorted; split; constructor.
Qed.

(** X4.  Each list of the filter options is in ascending order of code
    points, holds no label twice, and holds exactly the labels the extractor
    of its category derives from the blob of some row, rows with an empty
    blob aside.  A frame without rows gives three empty lists. *)
Theorem X4_filter_options_sorted_and_exact (category : string) df :
  let labels := options_of category (get_filter_options df) in
  StronglySorted str_le labels /\
  NoDup labels /\
  (forall label,
     In label labels <->
     exists e, In e df /\ blob_of e <> [] /\
               In label (extracted category (blob_of e))) /\
  (df = [] -> get_filter_options df = mkFilterOptions [] [] []).
Proof.
  intros labels. destruct (options_sorted category df) as [Hs Hn].
  split; [exact Hs|]. split; [exact Hn|]. split.
  - intros label. unfold labels. rewrite get_filter_options_In.
    split; intros (e & He & Hb & Hl); exists e; (split; [exact He|]); split;
      try exact Hl.
    + destruct (blob_of e); [discriminate Hb | discriminate].
    + destruct (blob_of e); [contradiction | reflexivity].
  - intros ->. reflexivity.
Qed.

(** X5.  The filter options depend on the blobs only, as a set: two frames
    in which the same blobs occur, in whatever order, however often and
    under whatever index, give the same options. *)
Theorem X5_filter_options_of_the_blobs df1 df2 :
  (forall blob, (exists e, In e df1 /\ blob_of e = blob) <->
                (exists e, In e df2 /\ blob_of e = blob)) ->
  get_filter_options df1 = get_filter_options df2.
Proof.
  intros Hblobs.
  assert (Hcat : forall category : string,
            options_of category (get_filter_options df1) =
            options_of category (get_filter_options df2)).
  { intros category.
    destruct (options_sorted category df1) as [Hs1 Hn1].
    destruct (options_sorted category df2) as [Hs2 Hn2].
    apply (StronglySorted_unique str_le); [exact Hs1 | exact Hs2 |].
    apply NoDup_Permutation; [exact Hn1 | exact Hn2 |].
    intros label. rewrite !list_elem_of_In, !get_filter_options_In.
    split; intros (e & He & Hb & Hl).
    - destruct (proj1 (Hblobs (blob_of e))) as (e' & He' & E); [eauto|].
      exists e'. rewrite E. auto.
    - destruct (proj2 (Hblobs (blob_of e))) as (e' & He' & E); [eauto|].
      exists e'. rewrite E. auto. }
  pose proof (Hcat "study_types"%string) as H1.
  pose proof (Hcat "phases"%string) as H2.
  pose proof (Hcat "pharma_groups"%string) as H3.
  destruct (get_filter_options df1), (get_filter_options df2).
  cbn in H1, H2, H3. congruence.
Qed.

Lemma X5_witness :
  let r1 := row_of_blob "{'code': 'RCT'}" in
  let r2 := row_of_blob "{'code': 'P2'}" in
  get_filter_options [(0, r1); (1, r2)]%nat =
  get_filter_options [(7, r2); (3, r1); (5, r2)]%nat.
Proof.
  intros r1 r2. apply X5_filter_options_of_the_blobs. intros blob.
  split; intros (e & He & E); cbn [In] in He;
    repeat destruct He as [<- | He]; try contradiction;
    subst blob; cbn [blob_of snd];
    [exists (3%nat, r1) | exists (7%nat, r2) | exists (1%nat, r2)
    | exists (0%nat, r1) | exists (1%nat, r2)];
    (split; [in_list | reflexivity]).
Defined.

End SortedOptionsFacts.

(** ** Selections *)

Section SelectionFacts.

Implicit Types (out label : str) (labels : list str).
Implicit Types (filters : gmap string (list str)) (h : Store) (rows : list Row).

(** A matcher accepts a list of labels when it accepts one of them. *)
Lemma matches_category_some (category : string) out labels :
  In category categories ->
  (matches_category category out labels = true <->
   exists label, In label labels /\ matches_category category out [label] = true).
Proof.
  unfold matches_category, categories. cbn [In].
  intros [<- | [<- | [<- | []]]]; eval_tests.
  - rewrite _matches_study_types_spec, existsb_exists.
    split; intros (l & Hl & H); exists l; (split; [exact Hl|]).
    + rewrite _matches_study_types_spec. cbn [existsb]. rewrite H. reflexivity.
    + rewrite _matches_study_types_spec in H. cbn [existsb] in H.
      rewrite orb_false_r in H. exact H.
  - rewrite _matches_phases_spec, existsb_exists.
    split; intros (l & Hl & H); exists l; (split; [exact Hl|]).
    + rewrite _matches_phases_spec. cbn [existsb]. rewrite H. reflexivity.
    + rewrite _matches_phases_spec in H. cbn [existsb] in H.
      rewrite orb_false_r in H. exact H.
  - rewrite _matches_pharma_groups_spec, existsb_exists.
    split; intros (l & Hl & H); exists l; (split; [exact Hl|]).
    + rewrite _matches_pharma_groups_spec. cbn [existsb]. rewrite H. reflexivity.
    + rewrite _matches_pharma_groups_spec in H. cbn [existsb] in H.
      rewrite orb_false_r in H. exact H.
Qed.

Lemma _matches_filters_intro out filters :
  (forall (category : string) labels,
     In category categories -> selected filters category = Some labels ->
     matches_category category out labels = true) ->
  _matches_filters out filters = true.
Proof.
  intros H. unfold _matches_filters.
  destruct (selected filters "study_types") as [l1|] eqn:E1.
  { pose proof (H "study_types"%string l1 ltac:(in_list) E1) as M.
    unfold matches_category in M. revert M. eval_tests. intros ->. cbn [negb].
    destruct (selected filters "phases") as [l2|] eqn:E2.
    { pose proof (H "phases"%string l2 ltac:(in_list) E2) as M.
      unfold matches_category in M. revert M. eval_tests. intros ->. cbn [negb].
      destruct (selected filters "pharma_groups") as [l3|] eqn:E3; [|reflexivity].
      pose proof (H "pharma_groups"%string l3 ltac:(in_list) E3) as M.
      unfold matches_category in M. revert M. eval_tests. intros ->. reflexivity. }
    destruct (selected filters "pharma_groups") as [l3|] eqn:E3; [|reflexivity].
    pose proof (H "pharma_groups"%string l3 ltac:(in_list) E3) as M.
    unfold matches_category in M. revert M. eval_tests. intros ->. reflexivity. }
  destruct (selected filters "phases") as [l2|] eqn:E2.
  { pose proof (H "phases"%string l2 ltac:(in_list) E2) as M.
    unfold matches_category in M. revert M. eval_tests. intros ->. cbn [negb].
    destruct (selected filters "pharma_groups") as [l3|] eqn:E3; [|reflexivity].
    pose proof (H "pharma_groups"%string l3 ltac:(in_list) E3) as M.
    unfold matches_category in M. revert M. eval_tests. intros ->. reflexivity. }
  destruct (selected filters "pharma_groups") as [l3|] eqn:E3; [|reflexivity].
  pose proof (H "pharma_groups"%string l3 ltac:(in_list) E3) as M.
  unfold matches_category in M. revert M. eval_tests. intros ->. reflexivity.
Qed.

(** X6.  A selection is a conjunction of disjunctions: a blob matches it
    exactly when, for each of the three categories that has labels, the
    matcher of the category accepts one of these labels.  A key other than
    the three makes no difference. *)
Theorem X6_and_across_or_within out filters :
  (_matches_filters out filters = true <->
   forall (category : string) labels,
     In category categories -> selected filters category = Some labels ->
     exists label, In label labels /\
                   matches_category category out [label] = true) /\
  (forall (key : string) value,
     ~ In key categories ->
     _matches_filters out (<[key := value]> filters) = _matches_filters out filters).
Proof.
  split.
  - split.
    + intros H category labels Hc Hsel.
      apply (matches_category_some category out labels Hc).
      apply (_matches_filters_selected out filters category labels Hc Hsel H).
    + intros H. apply _matches_filters_intro. intros category labels Hc Hsel.
      apply (matches_category_some category out labels Hc). apply (H _ _ Hc Hsel).
  - intros key value Hkey.
    assert (Hsel : forall category : string,
              In category categories ->
              selected (<[key := value]> filters) category = selected filters category).
    { intros category Hc. unfold selected. rewrite lookup_insert_ne; [reflexivity|].
      intros ->. contradiction. }
    unfold _matches_filters. rewrite !Hsel by in_list. reflexivity.
Qed.

Lemma singleton_not_empty (category : string) label labels :
  dict_is_empty ({[category := label :: labels]} : gmap string (list str)) = false.
Proof.
  apply (selected_not_empty _ category (label :: labels)).
  rewrite selected_singleton, String.eqb_refl. reflexivity.
Qed.

(** X7.  A study type or phase label in which none of the words of the
    matcher occurs selects nothing: on a fetched frame with rows the filter
    returns a new frame without rows, whatever the blobs hold. *)
Theorem X7_foreign_label_selects_nothing
    (category : string) (label : str) rows h (a : ref) :
  h !! a = Some (read_sql rows) -> rows <> [] ->
  (category = "study_types"%string /\
   forallb (fun rule => negb (contains (fst rule) label)) study_type_rules = true
   \/ category = "phases"%string /\
      forallb (fun rule => negb (contains (fst rule) label)) phase_rules = true) ->
  apply_filters a {[category := [label]]} h = Ok (length h, h ++ [pd_DataFrame]).
Proof.
  intros Ha Hrows Hlabel.
  rewrite (apply_filters_default h a _ _ Ha (read_sql_default_index rows)).
  rewrite singleton_not_empty, orb_false_r.
  destruct rows as [|row rows]; [contradiction|].
  change (df_empty (read_sql (row :: rows))) with false. cbv iota.
  assert (Hnone : forall out, matches_category category out [label] = false).
  { intros out. unfold matches_category.
    assert (Hrules : forall rules,
              forallb (fun rule => negb (contains (fst rule) label)) rules = true ->
              existsb (rule_fires out label) rules = false).
    { induction rules as [|r rules IH]; [reflexivity|]. cbn [forallb existsb].
      intros H. apply andb_true_iff in H as [Hr H]. rewrite (IH H).
      unfold rule_fires. destruct (contains (fst r) label); [discriminate Hr|].
      reflexivity. }
    destruct Hlabel as [[-> H] | [-> H]]; eval_tests.
    - rewrite _matches_study_types_spec. cbn [existsb].
      rewrite (Hrules _ H). reflexivity.
    - rewrite _matches_phases_spec. cbn [existsb].
      rewrite (Hrules _ H). reflexivity. }
  assert (Hkeeps : forall df : DataFrame,
            List.filter (keeps {[category := [label]]}) df = []).
  { induction df as [|e df IH]; [reflexivity|]. cbn [List.filter].
    unfold keeps at 1. rewrite _matches_filters_singleton, Hnone, andb_false_r.
    exact IH. }
  rewrite Hkeeps. reflexivity.
Qed.

Lemma X7_witness :
  let rows := [row_of_blob "{'code': 'RCT'}"] in
  [read_sql rows] !! 0%nat = Some (read_sql rows) /\ rows <> [] /\
  apply_filters 0%nat {["study_types" := [lit "Randomised trial"]]} [read_sql rows]
    = Ok (1%nat, [read_sql rows; pd_DataFrame]).
Proof.
  intros rows. split; [reflexivity|]. split; [discriminate|].
  apply (X7_foreign_label_selects_nothing "study_types" (lit "Randomised trial")
           rows [read_sql rows] 0%nat); [reflexivity | discriminate |].
  left. split; reflexivity.
Defined.

(** X8.  Under a selection that is not the empty dict, the frame returned
    for a fetched frame holds exactly the rows whose blob is not empty and
    matches the selection, each under the label it had. *)
Theorem X8_every_match_is_returned rows filters h (a : ref) :
  h !! a = Some (read_sql rows) -> filters <> ∅ ->
  exists (a' : ref) h' result,
    apply_filters a filters h = Ok (a', h') /\
    h' !! a' = Some result /\
    forall (i : nat) row,
      In (i, row) result <->
      rows !! i = Some row /\
      str_of_cell (output row) <> [] /\
      _matches_filters (str_of_cell (output row)) filters = true.
Proof.
  intros Ha Hne.
  destruct (apply_filters_fetched rows filters h a Ha)
    as (a' & h' & result & Hrun & Hres & Hdef & _).
  exists a', h', result. split; [exact Hrun|]. split; [exact Hres|].
  assert (Hf : dict_is_empty filters = false).
  { destruct (dict_is_empty filters) eqn:E; [|reflexivity].
    apply dict_is_empty_spec in E. contradiction. }
  rewrite Hf in Hdef. subst result. intros i row.
  rewrite filter_In. unfold keeps, blob_of. cbn [snd].
  rewrite andb_true_iff, <- list_elem_of_In, list_elem_of_lookup.
  split.
  - intros [[j Hj] [Hb Hm]]. apply read_sql_lookup in Hj as [<- Hj].
    cbn [fst snd] in *. split; [exact Hj|]. split; [|exact Hm].
    destruct (str_of_cell (output row)); [discriminate Hb | discriminate].
  - intros (Hi & Hb & Hm). split; [|split; [|exact Hm]].
    + exists i. apply read_sql_lookup. auto.
    + destruct (str_of_cell (output row)); [contradiction | reflexivity].
Qed.

Lemma X8_witness :
  let rows := [row_of_blob "{}"; row_of_blob "{'code': 'RCT'}"] in
  let filters : gmap string (list str) :=
    {["study_types" := [lit "Randomized Controlled Trial (RCT)"]]} in
  [read_sql rows] !! 0%nat = Some (read_sql rows) /\ filters <> ∅ /\
  exists (a' : ref) h' result,
    apply_filters 0%nat filters [read_sql rows] = Ok (a', h') /\
    h' !! a' = Some result /\
    (In (1%nat, row_of_blob "{'code': 'RCT'}") result <->
     rows !! 1%nat = Some (row_of_blob "{'code': 'RCT'}") /\
     lit "{'code': 'RCT'}" <> [] /\
     _matches_filters (lit "{'code': 'RCT'}") filters = true).
Proof.
  intros rows filters.
  assert (Hne : filters <> ∅).
  { intros E. pose proof (singleton_not_empty "study_types"
                            (lit "Randomized Controlled Trial (RCT)") []) as H.
    apply dict_is_empty_spec in E. fold filters in H. congruence. }
  split; [reflexivity|]. split; [exact Hne|].
  destruct (X8_every_match_is_returned rows filters [read_sql rows] 0%nat)
    as (a' & h' & result & H1 & H2 & H3); [reflexivity | exact Hne |].
  exists a', h', result. split; [exact H1|]. split; [exact H2|].
  apply (H3 1%nat (row_of_blob "{'code': 'RCT'}")).
Defined.

End SelectionFacts.

(** ** Filtering a filtered frame *)

Section RefilterFacts.

Implicit Types (filters : gmap string (list str)) (h : Store) (rows : list Row).

Lemma iloc_out_of_range (df : DataFrame) (positions : list nat) :
  Exists (fun p => length df <= p)%nat positions ->
  iloc df positions = Raise IndexError.
Proof.
  induction 1 as [p ps Hp | p ps Hps IH]; cbn [iloc].
  - rewrite (lookup_ge_None_2 df p Hp). reflexivity.
  - destruct (df !! p); [rewrite IH|]; reflexivity.
Qed.

(** Among distinct numbers with a gap below one of them, one is at least
    as large as their count. *)
Lemma gap_pushes_out (l : list nat) (i j : nat) :
  NoDup l -> (i < j)%nat -> j ∈ l -> i ∉ l ->
  Exists (fun x => length l <= x)%nat l.
Proof.
  intros Hnd Hij Hj Hi.
  destruct (decide (Exists (fun x => length l <= x)%nat l)) as [H|H]; [exact H|].
  exfalso. apply not_Exists_Forall in H; [|apply _].
  assert (Hlt : forall x, x ∈ l -> (x < length l)%nat).
  { intros x Hx. apply (proj1 (Forall_forall _ _) H) in Hx. cbn in Hx. lia. }
  pose proof (Hlt j Hj) as Hjl.
  assert (Hsub : l ⊆+ seq 0 i ++ seq (S i) (length l - S i)).
  { apply NoDup_submseteq; [exact Hnd|]. intros x Hx.
    pose proof (Hlt x Hx). apply elem_of_app. rewrite !elem_of_seq.
    destruct (Nat.lt_total x i) as [L | [E | L]]; [left; lia | | right; lia].
    subst x. contradiction. }
  apply submseteq_length in Hsub. rewrite length_app, !length_seq in Hsub. lia.
Qed.

Lemma map_fst_fmap (df : DataFrame) : map fst df = df.*1.
Proof. induction df as [|e df IH]; [reflexivity|]. cbn. rewrite IH. reflexivity. Qed.

Lemma kept_labels_NoDup filters rows :
  NoDup (map fst (List.filter (keeps filters) (read_sql rows))).
Proof.
  rewrite map_fst_fmap. apply NoDup_fmap_fst.
  - intros i r1 r2 H1 H2.
    apply list_elem_of_In, filter_In in H1 as [H1 _].
    apply list_elem_of_In, filter_In in H2 as [H2 _].
    apply (default_index_found _ _ (read_sql_default_index rows)) in H1, H2.
    cbn [fst] in H1, H2. congruence.
  - apply (sublist_NoDup _ (read_sql rows));
      [apply default_index_NoDup, read_sql_default_index | apply filter_sublist].
Qed.

(** X9.  Filtering the result of a filter fails whenever the first pass,
    under a selection that is not the empty dict, dropped a row that stands
    before a row it kept: the frame returned keeps the old labels, the
    second pass reads them as positions, and one of them lies outside the
    shorter frame, so [IndexError] is raised. *)
Theorem X9_refiltering_raises_after_a_gap rows filters h (a : ref)
    (i j : nat) (ri rj : Row) :
  h !! a = Some (read_sql rows) -> filters <> ∅ ->
  (i < j)%nat ->
  rows !! i = Some ri -> keeps filters (i, ri) = false ->
  rows !! j = Some rj -> keeps filters (j, rj) = true ->
  exists (a' : ref) h' result,
    apply_filters a filters h = Ok (a', h') /\
    h' !! a' = Some result /\
    In (j, rj) result /\
    apply_filters a' filters h' = Raise IndexError.
Proof.
  intros Ha Hne Hij Hi Hki Hj Hkj.
  set (kept := List.filter (keeps filters) (read_sql rows)).
  assert (Hkept : In (j, rj) kept).
  { apply filter_In. split; [|exact Hkj].
    apply list_elem_of_In, list_elem_of_lookup. exists j.
    apply read_sql_lookup. auto. }
  assert (Hf : dict_is_empty filters = false).
  { destruct (dict_is_empty filters) eqn:E; [|reflexivity].
    apply dict_is_empty_spec in E. contradiction. }
  assert (Hrows : rows <> []) by (intros ->; discriminate Hj).
  destruct (apply_filters_fetched rows filters h a Ha)
    as (a' & h' & result & Hrun & Hres & Hdef & _ & Hnew).
  rewrite Hf in Hdef. fold kept in Hdef. subst result.
  exists a', h', kept. split; [exact Hrun|]. split; [exact Hres|].
  split; [exact Hkept|].
  (* the labels of the kept rows *)
  assert (Hgap : Exists (fun x => length kept <= x)%nat (map fst kept)).
  { rewrite <- (length_map fst kept).
    apply (gap_pushes_out (map fst kept) i j);
      [apply kept_labels_NoDup | exact Hij | |].
    - apply list_elem_of_In, in_map_iff. exists (j, rj). auto.
    - intros Hin. apply list_elem_of_In, in_map_iff in Hin as ([i' r] & E & Hin).
      cbn [fst] in E. subst i'. apply filter_In in Hin as [Hin Hk].
      apply list_elem_of_In, list_elem_of_lookup in Hin as [p Hp].
      apply read_sql_lookup in Hp as [<- Hp]. cbn [fst snd] in *.
      assert (r = ri) by congruence. subst r. congruence. }
  unfold apply_filters, bind, deref. rewrite Hres.
  assert (Hnonempty : df_empty kept = false).
  { destruct kept; [destruct Hkept | reflexivity]. }
  rewrite Hnonempty, Hf. cbn [orb].
  rewrite filtered_indices_spec. fold kept.
  unfold kept at 1. rewrite filter_keeps_twice. fold kept.
  destruct (map fst kept) as [|idx rest] eqn:E.
  { inversion Hgap. }
  unfold lift. rewrite (iloc_out_of_range kept (idx :: rest) Hgap). reflexivity.
Qed.

Lemma X9_witness :
  let rows := [row_of_blob "{}"; row_of_blob "{'code': 'RCT'}"] in
  let filters : gmap string (list str) :=
    {["study_types" := [lit "Randomized Controlled Trial (RCT)"]]} in
  [read_sql rows] !! 0%nat = Some (read_sql rows) /\ filters <> ∅ /\
  keeps filters (0%nat, row_of_blob "{}") = false /\
  keeps filters (1%nat, row_of_blob "{'code': 'RCT'}") = true /\
  exists (a' : ref) h' result,
    apply_filters 0%nat filters [read_sql rows] = Ok (a', h') /\
    h' !! a' = Some result /\
    apply_filters a' filters h' = Raise IndexError.
Proof.
  intros rows filters.
  assert (Hne : filters <> ∅).
  { intros E. apply dict_is_empty_spec in E. vm_compute in E. discriminate E. }
  split; [reflexivity|]. split; [exact Hne|].
  split; [vm_compute; reflexivity|]. split; [vm_compute; reflexivity|].
  destruct (X9_refiltering_raises_after_a_gap rows filters [read_sql rows] 0%nat
              0%nat 1%nat (row_of_blob "{}") (row_of_blob "{'code': 'RCT'}"))
    as (a' & h' & result & H1 & H2 & _ & H3);
    [reflexivity | exact Hne | lia | reflexivity | vm_compute; reflexivity
    | reflexivity | vm_compute; reflexivity |].
  exists a', h', result. auto.
Defined.

End RefilterFacts.

(** ** The fetchers *)

Section FetcherFacts.

Implicit Types (db : Database) (h : Store) (rows : list Row).

#[local] Instance year_desc_total : Total year_desc.
Proof.
  intros a b. unfold year_desc.
  destruct (publication_year a), (publication_year b); auto.
  destruct (Z.le_ge_cases y y0); auto.
Qed.

Lemma imap_rows (f : nat -> Row -> nat * Row) rows :
  (forall i row, snd (f i row) = row) -> map snd (imap f rows) = rows.
Proof.
  revert f. induction rows as [|row rows IH]; intros f Hf; [reflexivity|].
  rewrite imap_cons. cbn [map]. rewrite Hf. f_equal.
  apply IH. intros i r. apply Hf.
Qed.

Lemma read_sql_rows rows : map snd (read_sql rows) = rows.
Proof. apply imap_rows. reflexivity. Qed.

(** X10.  With the database up, the list fetcher returns a new frame with
    the default index whose rows are the rows of the table that have a
    title and an abstract, each once, the later year first and the rows
    without a year before all others. *)
Theorem X10_fetched_frame db h :
  status db = Up ->
  exists frame,
    get_all_papers db h = Ok (length h, h ++ [frame]) /\
    default_index frame /\
    map snd frame ≡ₚ List.filter has_title_and_abstract (ibd_rcts db) /\
    Sorted year_desc (map snd frame) /\
    forall e, In e frame -> title (snd e) <> None /\ abstract (snd e) <> None.
Proof.
  intros Hup. exists (read_sql (select_all (ibd_rcts db))).
  assert (Hperm : select_all (ibd_rcts db) ≡ₚ
                  List.filter has_title_and_abstract (ibd_rcts db))
    by apply merge_sort_Permutation.
  split; [unfold get_all_papers; rewrite Hup; reflexivity|].
  split; [apply read_sql_default_index|].
  rewrite read_sql_rows. split; [exact Hperm|].
  split; [apply Sorted_merge_sort; apply _|].
  intros e He. apply (in_map snd) in He. rewrite read_sql_rows in He.
  apply list_elem_of_In in He. rewrite Hperm in He.
  apply list_elem_of_In, filter_In in He as [_ H].
  unfold has_title_and_abstract in H.
  destruct (title (snd e)), (abstract (snd e)); try discriminate H.
  split; discriminate.
Qed.

Lemma X10_witness :
  let r1 := mkRow (Some (lit "W1")) (Some (lit "T1")) (Some (lit "A."))
                  None None (YearNum 2019) None in
  let r2 := mkRow (Some (lit "W2")) None (Some (lit "B."))
                  None None (YearNum 2021) None in
  let r3 := mkRow (Some (lit "W3")) (Some (lit "T3")) (Some (lit "C."))
                  None None (YearNum 2022) None in
  let db := mkDatabase Up [r1; r2; r3] in
  status db = Up /\
  exists frame,
    get_all_papers db [] = Ok (0%nat, [frame]) /\
    default_index frame /\
    map snd frame ≡ₚ [r1; r3] /\
    Sorted year_desc (map snd frame) /\
    forall e, In e frame -> title (snd e) <> None /\ abstract (snd e) <> None.
Proof.
  intros r1 r2 r3 db. split; [reflexivity|].
  exact (X10_fetched_frame db [] eq_refl).
Defined.

(** X11.  The fetcher of one paper returns a row only when the database is
    up, and then a row of the table with the id asked for; with the database
    up it returns one whenever the table has a row with that id. *)
Theorem X11_paper_by_id db (id : str) :
  (forall row,
     DataService.get_paper_by_id db id = Some row ->
     status db = Up /\ In row (ibd_rcts db) /\ work_id row = Some id) /\
  (status db = Up ->
   (exists row, In row (ibd_rcts db) /\ work_id row = Some id) ->
   exists row, DataService.get_paper_by_id db id = Some row).
Proof.
  unfold DataService.get_paper_by_id. split.
  - intros row H. destruct (status db); try discriminate H.
    destruct (read_sql (select_by_id (ibd_rcts db) id)) as [|[i r] rest] eqn:E;
      [discriminate H|].
    injection H as ->. split; [reflexivity|].
    assert (Hin : In row (select_by_id (ibd_rcts db) id)).
    { rewrite <- (read_sql_rows (select_by_id (ibd_rcts db) id)), E. left. reflexivity. }
    apply filter_In in Hin as [Hin Hid]. split; [exact Hin|].
    unfold has_work_id in Hid. destruct (work_id row) as [w|]; [|discriminate Hid].
    apply str_eqb_spec in Hid. subst w. reflexivity.
  - intros -> (row & Hin & Hid).
    assert (Hsel : In row (select_by_id (ibd_rcts db) id)).
    { apply filter_In. split; [exact Hin|]. unfold has_work_id. rewrite Hid.
      apply str_eqb_spec. reflexivity. }
    destruct (select_by_id (ibd_rcts db) id) as [|r rest]; [destruct Hsel|].
    exists r. reflexivity.
Qed.

End FetcherFacts.

(** ** The cleaned text *)

Section CleanTextFacts.

Implicit Types (s text word : str) (words : list str).

Lemma has_gt_split s :
  has_gt s = true ->
  exists b c, s = b ++ ">"%char :: c /\
              forallb (fun x => negb (ascii_eqb x ">")) b = true.
Proof.
  induction s as [|x s IH]; [discriminate|].
  unfold has_gt. cbn [existsb]. destruct (ascii_eqb ">" x) eqn:E.
  - intros _. apply Ascii.eqb_eq in E. subst x. exists [], s. split; reflexivity.
  - cbn [orb]. intros H. destruct (IH H) as (b & c & -> & Hb).
    exists (x :: b), c. split; [reflexivity|]. cbn [forallb].
    unfold ascii_eqb in *. rewrite Ascii.eqb_sym, E, Hb. reflexivity.
Qed.

Lemma has_gt_app a b : has_gt (a ++ b) = has_gt a || has_gt b.
Proof. apply existsb_app. Qed.

(** The pattern of a tag is found exactly in the texts that open a tag. *)
Lemma search_tag_opens s : search tag_pattern s = true <-> opens_tag s = true.
Proof.
  rewrite search_spec. split.
  - intros (pre & m & post & -> & Hm). unfold tag_pattern in Hm.
    apply matches_Cat in Hm as (m1 & m2 & -> & H1 & Hm).
    apply matches_Cls in H1 as (c & -> & Hc).
    apply matches_Cat in Hm as (m2' & m3 & -> & _ & H3).
    apply matches_Cls in H3 as (d & -> & Hd).
    apply Ascii.eqb_eq in Hc, Hd. subst c d.
    induction pre as [|x pre IH]; cbn [app opens_tag].
    + change (ascii_eqb "<" "<") with true. cbn [andb].
      rewrite <- !app_assoc, !has_gt_app. cbn [app has_gt existsb].
      unfold has_gt at 2. cbn [existsb].
      change (ascii_eqb ">" ">") with true. cbn [orb].
      rewrite orb_true_r. reflexivity.
    + cbn [app] in IH. rewrite IH. apply orb_true_r.
  - induction s as [|x s IH]; [discriminate|]. cbn [opens_tag].
    intros H. apply orb_true_iff in H as [H|H].
    + apply andb_true_iff in H as [Hx Hgt]. apply Ascii.eqb_eq in Hx. subst x.
      destruct (has_gt_split s Hgt) as (b & c & -> & Hb).
      exists [], ("<"%char :: b ++ [">"%char]), c. split.
      * cbn [app]. rewrite <- app_assoc. reflexivity.
      * unfold tag_pattern.
        change ("<"%char :: b ++ [">"%char]) with (["<"%char] ++ b ++ [">"%char]).
        constructor; [constructor; reflexivity|].
        constructor; [apply matches_Star_Cls; exact Hb|].
        constructor. reflexivity.
    + destruct (IH H) as (pre & m & post & -> & Hm).
      exists (x :: pre), m, post. split; [reflexivity | exact Hm].
Qed.

Lemma has_gt_cons x s : has_gt (x :: s) = ascii_eqb ">" x || has_gt s.
Proof. reflexivity. Qed.

(** What is left of a text has a [>] only if the text has one. *)
Lemma remove_tags_has_gt s : forall in_tag,
  has_gt (remove_tags in_tag s) = true -> has_gt s = true.
Proof.
  induction s as [|x s IH]; intros in_tag; cbn [remove_tags]; [destruct in_tag; auto|].
  rewrite (has_gt_cons x s).
  destruct in_tag.
  - intros H. apply IH in H. rewrite H. apply orb_true_r.
  - destruct (ascii_eqb x "<" && has_gt s) eqn:E.
    + intros H. apply IH in H. rewrite H. apply orb_true_r.
    + rewrite has_gt_cons.
      intros H. apply orb_true_iff in H as [H|H]; [rewrite H; reflexivity|].
      apply IH in H. rewrite H. apply orb_true_r.
Qed.

Lemma remove_tags_no_tag s : forall in_tag,
  opens_tag (remove_tags in_tag s) = false.
Proof.
  induction s as [|x s IH]; intros in_tag; cbn [remove_tags];
    [destruct in_tag; reflexivity|].
  destruct in_tag; [apply IH|].
  destruct (ascii_eqb x "<" && has_gt s) eqn:E; [apply IH|].
  cbn [opens_tag]. rewrite IH, orb_false_r.
  destruct (ascii_eqb x "<"); [|reflexivity]. cbn [andb] in *.
  destruct (has_gt (remove_tags false s)) eqn:G; [|reflexivity].
  apply remove_tags_has_gt in G. congruence.
Qed.

(** A text without a tag is left as it is. *)
Lemma remove_tags_fixed s : opens_tag s = false -> remove_tags false s = s.
Proof.
  induction s as [|x s IH]; [reflexivity|]. cbn [opens_tag remove_tags].
  intros H. apply orb_false_iff in H as [H1 H2]. rewrite H1, (IH H2). reflexivity.
Qed.

(** Whether a text opens a tag depends on its marks only. *)
Lemma has_gt_marks s : has_gt (List.filter is_mark s) = has_gt s.
Proof.
  induction s as [|x s IH]; [reflexivity|]. cbn [List.filter].
  rewrite (has_gt_cons x s). destruct (is_mark x) eqn:E.
  - rewrite has_gt_cons, IH. reflexivity.
  - unfold is_mark in E. apply orb_false_iff in E as [_ E].
    unfold ascii_eqb in *. rewrite Ascii.eqb_sym, E. exact IH.
Qed.

Lemma opens_tag_marks s : opens_tag (List.filter is_mark s) = opens_tag s.
Proof.
  induction s as [|x s IH]; [reflexivity|]. cbn [List.filter opens_tag].
  destruct (is_mark x) eqn:E.
  - cbn [opens_tag]. rewrite has_gt_marks, IH. reflexivity.
  - unfold is_mark in E. apply orb_false_iff in E as [E _]. rewrite E. exact IH.
Qed.

Lemma mark_not_space x : isspace x = true -> is_mark x = false.
Proof.
  intros H. unfold is_mark.
  destruct (ascii_eqb x "<") eqn:E1;
    [apply Ascii.eqb_eq in E1; subst x; discriminate H|].
  destruct (ascii_eqb x ">") eqn:E2;
    [apply Ascii.eqb_eq in E2; subst x; discriminate H|].
  reflexivity.
Qed.

Lemma filter_join_marks w words :
  List.filter is_mark (join " " (w :: words)) =
  List.filter is_mark w ++ List.filter is_mark (join " " words).
Proof.
  destruct words as [|w' words]; [cbn [join]; rewrite app_nil_r; reflexivity|].
  rewrite join_cons by discriminate. rewrite !List.filter_app. reflexivity.
Qed.

Lemma split_ws_aux_marks s : forall word,
  List.filter is_mark (join " " (split_ws_aux word s)) =
  List.filter is_mark (rev word ++ s).
Proof.
  induction s as [|x s IH]; intros word; cbn [split_ws_aux].
  - rewrite app_nil_r. destruct word; reflexivity.
  - destruct (isspace x) eqn:E.
    + rewrite List.filter_app. cbn [List.filter]. rewrite (mark_not_space x E).
      destruct word as [|a word].
      * rewrite IH. reflexivity.
      * rewrite filter_join_marks, IH. reflexivity.
    + rewrite IH. cbn [rev]. rewrite <- app_assoc. reflexivity.
Qed.

Lemma lstrip_marks s : List.filter is_mark (lstrip s) = List.filter is_mark s.
Proof.
  induction s as [|x s IH]; [reflexivity|]. cbn [lstrip].
  destruct (isspace x) eqn:E; [|reflexivity].
  cbn [List.filter]. rewrite (mark_not_space x E). exact IH.
Qed.

Lemma filter_rev_marks s : List.filter is_mark (rev s) = rev (List.filter is_mark s).
Proof.
  induction s as [|x s IH]; [reflexivity|]. cbn [rev List.filter].
  rewrite List.filter_app, IH. cbn [List.filter].
  destruct (is_mark x); [reflexivity | apply app_nil_r].
Qed.

Lemma strip_marks s : List.filter is_mark (strip s) = List.filter is_mark s.
Proof.
  unfold strip, rstrip.
  rewrite filter_rev_marks, lstrip_marks, filter_rev_marks, rev_involutive.
  apply lstrip_marks.
Qed.

Lemma _clean_text_no_tag text : opens_tag (_clean_text text) = false.
Proof.
  unfold _clean_text. destruct (negb (nonempty text)); [reflexivity|].
  rewrite <- opens_tag_marks, strip_marks. unfold split_ws.
  rewrite split_ws_aux_marks. cbn [rev app].
  rewrite opens_tag_marks. apply remove_tags_no_tag.
Qed.

(** Words joined by single spaces have no white space at either end. *)
Lemma lstrip_fixed s :
  match s with x :: _ => isspace x = false | [] => True end -> lstrip s = s.
Proof. destruct s as [|x s]; [reflexivity|]. cbn [lstrip]. intros ->. reflexivity. Qed.

Lemma word_head w :
  is_word w -> exists x w', w = x :: w' /\ isspace x = false.
Proof.
  intros [Hne Hw]. destruct w as [|x w']; [contradiction|]. exists x, w'.
  split; [reflexivity|]. cbn [forallb] in Hw. apply andb_true_iff in Hw as [H _].
  destruct (isspace x); [discriminate H | reflexivity].
Qed.

Lemma word_last w :
  is_word w -> exists w' x, w = w' ++ [x] /\ isspace x = false.
Proof.
  intros [Hne Hw]. destruct (exists_last Hne) as (w' & x & ->). exists w', x.
  split; [reflexivity|]. rewrite forallb_app in Hw.
  apply andb_true_iff in Hw as [_ H]. cbn [forallb] in H.
  destruct (isspace x); [discriminate H | reflexivity].
Qed.

Lemma join_words_last words :
  Forall is_word words -> words <> [] ->
  exists s x, join " " words = s ++ [x] /\ isspace x = false.
Proof.
  induction 1 as [|w words Hw Hwords IH]; [contradiction|]. intros _.
  destruct words as [|w' words'].
  - cbn [join]. apply word_last. exact Hw.
  - rewrite join_cons by discriminate.
    destruct IH as (s & x & E & Hx); [discriminate|]. rewrite E.
    exists (w ++ lit " " ++ s), x. split; [|exact Hx].
    rewrite <- !app_assoc. reflexivity.
Qed.

Lemma strip_join_words words :
  Forall is_word words -> strip (join " " words) = join " " words.
Proof.
  intros Hwords. destruct words as [|w words]; [reflexivity|].
  assert (Hhead : lstrip (join " " (w :: words)) = join " " (w :: words)).
  { apply lstrip_fixed. inversion Hwords as [|? ? Hw _]; subst.
    destruct (word_head w Hw) as (x & w' & -> & Hx).
    rewrite join_cons_char. exact Hx. }
  unfold strip, rstrip. rewrite Hhead.
  destruct (join_words_last (w :: words) Hwords) as (s & x & E & Hx);
    [discriminate|].
  rewrite E, rev_app_distr. cbn [rev app lstrip]. rewrite Hx.
  change (x :: rev s) with ([x] ++ rev s).
  rewrite rev_app_distr, rev_involutive. reflexivity.
Qed.

(** [split] finds the words of a text of words joined by single spaces. *)
Lemma split_ws_aux_word w : forall word s,
  forallb (fun c => negb (isspace c)) w = true ->
  split_ws_aux word (w ++ s) = split_ws_aux (rev w ++ word) s.
Proof.
  induction w as [|x w IH]; intros word s Hw; [reflexivity|].
  cbn [forallb] in Hw. apply andb_true_iff in Hw as [Hx Hw].
  cbn [app split_ws_aux]. destruct (isspace x); [discriminate Hx|].
  rewrite (IH _ _ Hw). cbn [rev]. rewrite <- app_assoc. reflexivity.
Qed.

Lemma split_ws_join_words words :
  Forall is_word words -> split_ws (join " " words) = words.
Proof.
  unfold split_ws.
  induction 1 as [|w words [Hne Hw] Hwords IH]; [reflexivity|].
  assert (Hrev : rev w <> []).
  { intros E. apply Hne. rewrite <- (rev_involutive w), E. reflexivity. }
  destruct words as [|w' words'].
  - cbn [join]. rewrite <- (app_nil_r w) at 1.
    rewrite (split_ws_aux_word w [] [] Hw), app_nil_r. cbn [split_ws_aux].
    destruct (rev w) eqn:E; [contradiction|]. rewrite <- E, rev_involutive.
    reflexivity.
  - rewrite join_cons by discriminate.
    rewrite (split_ws_aux_word w [] _ Hw), app_nil_r.
    change (lit " " ++ join " " (w' :: words')) with
      (" "%char :: join " " (w' :: words')).
    cbn [split_ws_aux]. change (isspace " ") with true. cbv iota.
    destruct (rev w) eqn:E; [contradiction|]. rewrite <- E, rev_involutive, IH.
    reflexivity.
Qed.

Lemma _clean_text_words text :
  exists words, Forall is_word words /\ _clean_text text = join " " words.
Proof.
  unfold _clean_text. destruct (negb (nonempty text)).
  - exists []. split; [constructor | reflexivity].
  - exists (split_ws (remove_tags false text)).
    assert (H : Forall is_word (split_ws (remove_tags false text)))
      by (apply split_ws_aux_words; reflexivity).
    split; [exact H | apply strip_join_words; exact H].
Qed.

Lemma _clean_text_fixed words :
  Forall is_word words -> opens_tag (join " " words) = false ->
  _clean_text (join " " words) = join " " words.
Proof.
  intros Hwords Htag. unfold _clean_text.
  destruct (join " " words) as [|x s] eqn:E; [reflexivity|].
  cbn [nonempty negb]. rewrite <- E in *.
  rewrite (remove_tags_fixed _ Htag), (split_ws_join_words _ Hwords).
  apply strip_join_words. exact Hwords.
Qed.

(** X12.  The cleaned text has no tag left: the pattern of the tags is not
    found in it. *)
Theorem X12_no_tag_is_left text : search tag_pattern (_clean_text text) = false.
Proof.
  destruct (search tag_pattern (_clean_text text)) eqn:E; [|reflexivity].
  apply search_tag_opens in E. rewrite _clean_text_no_tag in E. discriminate E.
Qed.

(** X13.  The cleaned text is a list of words joined by single spaces, a
    word being a run, not empty, of characters that are not white space;
    the words are those [split] finds in it, and [strip] has nothing to
    take from its ends. *)
Theorem X13_words_joined_by_single_spaces text :
  exists words,
    Forall is_word words /\
    _clean_text text = join " " words /\
    split_ws (_clean_text text) = words /\
    strip (_clean_text text) = _clean_text text.
Proof.
  destruct (_clean_text_words text) as (words & Hwords & E).
  exists words. rewrite E. split; [exact Hwords|]. split; [reflexivity|].
  split; [apply split_ws_join_words | apply strip_join_words]; exact Hwords.
Qed.

(** X14.  Cleaning a cleaned text changes nothing; and the texts cleaning
    leaves as they are, are the words joined by single spaces in which the
    pattern of the tags is not found. *)
Theorem X14_cleaning_twice text :
  _clean_text (_clean_text text) = _clean_text text /\
  (forall words,
     Forall is_word words -> search tag_pattern (join " " words) = false ->
     _clean_text (join " " words) = join " " words).
Proof.
  split.
  - destruct (_clean_text_words text) as (words & Hwords & E).
    pose proof (_clean_text_no_tag text) as Htag. rewrite E in *.
    apply _clean_text_fixed; assumption.
  - intros words Hwords Htag. apply _clean_text_fixed; [exact Hwords|].
    destruct (opens_tag (join " " words)) eqn:E; [|reflexivity].
    apply search_tag_opens in E. congruence.
Qed.

End CleanTextFacts.

(** ** The authors *)

Section MoreAuthorFacts.

Implicit Types (s raw : str) (ps : list str).

Lemma in_join x (sep : str) ps :
  In x (join sep ps) -> In x sep \/ exists p, In p ps /\ In x p.
Proof.
  induction ps as [|p ps IH]; [intros []|].
  destruct ps as [|p' ps'].
  - cbn [join]. intros H. right. exists p. split; [left; reflexivity | exact H].
  - rewrite join_cons by discriminate. intros H.
    apply in_app_or in H as [H|H];
      [right; exists p; split; [left; reflexivity | exact H]|].
    apply in_app_or in H as [H|H]; [left; exact H|].
    destruct (IH H) as [H'|(q & Hq & Hx)]; [left; exact H'|].
    right. exists q. split; [right; exact Hq | exact Hx].
Qed.

Lemma in_strip x s : In x (strip s) -> In x s.
Proof.
  intros H. destruct (strip_infix s) as (a & b & E). rewrite E.
  apply in_or_app. right. apply in_or_app. left. exact H.
Qed.

Lemma in_take x (n : nat) s : In x (take n s) -> In x s.
Proof.
  intros H. rewrite <- (take_drop n s). apply in_or_app. left. exact H.
Qed.

(** X15.  The authors are missing exactly for a cell that is NULL or the
    empty string, and the string returned never holds a semicolon. *)
Theorem X15_authors_without_semicolon (raw_auth : option str) :
  (_parse_authors raw_auth = None <-> raw_auth = None \/ raw_auth = Some []) /\
  (forall out, _parse_authors raw_auth = Some out -> ~ In ";"%char out).
Proof.
  split.
  - destruct raw_auth as [[|c raw]|]; cbn [_parse_authors].
    + split; auto.
    + split; [|intros [H|H]; discriminate H].
      destruct (200 <? _)%nat; discriminate.
    + split; auto.
  - intros out H.
    destruct raw_auth as [[|c raw]|]; cbn [_parse_authors] in H;
      try discriminate H.
    set (authors_str := if contains ";" (c :: raw)
                        then join ", " (List.filter nonempty
                                          (map strip (split_on ";" (c :: raw))))
                        else c :: raw) in H.
    assert (Hstr : ~ In ";"%char authors_str).
    { subst authors_str. destruct (contains ";" (c :: raw)) eqn:E.
      - intros Hin. apply in_join in Hin as [Hin|(p & Hp & Hin)].
        + cbn in Hin. destruct Hin as [Hin|[Hin|[]]]; discriminate Hin.
        + apply filter_In in Hp as [Hp _].
          apply in_map_iff in Hp as (q & <- & Hq). apply in_strip in Hin.
          pose proof (split_on_pieces ";" (c :: raw)) as Hpieces.
          rewrite Forall_forall in Hpieces.
          apply (Hpieces q); [apply list_elem_of_In; exact Hq | exact Hin].
      - intros Hin. apply (contains_char ";" (c :: raw)) in Hin.
        change (contains ";" (c :: raw) = true) in Hin. congruence. }
    destruct (200 <? length authors_str)%nat; injection H as <-;
      [|exact Hstr].
    intros Hin. apply in_app_or in Hin as [Hin|Hin].
    + apply in_take in Hin. contradiction.
    + cbn in Hin. destruct Hin as [Hin|[Hin|[Hin|[]]]]; discriminate Hin.
Qed.

End MoreAuthorFacts.

(** ** The pages *)

Section PageFacts.

Import Routes.

Implicit Types (frame : DataFrame) (h : Store) (a : ref) (pg lim : Z).

(** For a page from 1 on, the slice is the stretch of [lim] rows after the
    rows of the pages before. *)
Lemma page_rows_take_drop frame pg lim :
  (1 <= pg)%Z -> (0 <= lim)%Z ->
  page_rows frame pg lim =
  take (Z.to_nat lim) (drop (Z.to_nat ((pg - 1) * lim)) frame).
Proof.
  intros Hpg Hlim. unfold page_rows, iloc_slice, slice_bound, df_len.
  set (start := ((pg - 1) * lim)%Z).
  assert (Hs : (0 <= start)%Z) by (subst start; nia).
  destruct (Z.ltb_spec start 0) as [H|_]; [lia|].
  destruct (Z.ltb_spec (start + lim) 0) as [H|_]; [lia|].
  destruct (Z.le_gt_cases (Z.of_nat (length frame)) start) as [Hge|Hlt].
  - rewrite (Z.min_r start) by lia.
    rewrite !(drop_ge frame) by lia. rewrite !take_nil. reflexivity.
  - rewrite (Z.min_l start) by lia.
    destruct (Z.le_gt_cases (start + lim) (Z.of_nat (length frame))) as [Hin|Hout].
    + rewrite Z.min_l by lia. f_equal. lia.
    + rewrite Z.min_r by lia.
      rewrite !take_ge by (rewrite length_drop; lia). reflexivity.
Qed.

Lemma pages_concat frame lim (k : nat) :
  (1 <= lim)%Z ->
  concat (map (fun p : nat => page_rows frame (Z.of_nat p) lim) (seq 1 k)) =
  take (k * Z.to_nat lim) frame.
Proof.
  intros Hlim. induction k as [|k IH]; [reflexivity|].
  rewrite seq_S, map_app, concat_app, IH. cbn [map concat].
  rewrite app_nil_r, page_rows_take_drop by lia.
  replace (Z.to_nat ((Z.of_nat (1 + k) - 1) * lim)) with (k * Z.to_nat lim)%nat
    by (rewrite <- (Nat2Z.id k) at 1; rewrite <- Z2Nat.inj_mul by lia;
        f_equal; lia).
  rewrite take_take_drop. f_equal. lia.
Qed.

Lemma page_rows_not_empty frame pg lim :
  (1 <= pg)%Z -> (1 <= lim)%Z ->
  page_rows frame pg lim <> [] <-> ((pg - 1) * lim < df_len frame)%Z.
Proof.
  intros Hpg Hlim. rewrite page_rows_take_drop by lia. unfold df_len.
  set (n := Z.to_nat ((pg - 1) * lim)).
  assert (Hn : Z.of_nat n = ((pg - 1) * lim)%Z) by (subst n; nia).
  rewrite <- Hn. split.
  - intros H. destruct (Nat.le_gt_cases (length frame) n) as [Hge|Hlt]; [|lia].
    rewrite drop_ge in H by exact Hge. rewrite take_nil in H. contradiction.
  - intros H E. apply (f_equal length) in E.
    rewrite length_take, length_drop in E. cbn [length] in E. lia.
Qed.

(** X16.  The pages from 1 to k, one after the other, are the first k times
    limit rows of the frame, in order: no row is shown twice, none is left
    out, and with enough pages the whole frame is shown. *)
Theorem X16_pages_partition_the_frame frame lim (k : nat) :
  (1 <= lim)%Z ->
  let pages := map (fun p : nat => page_rows frame (Z.of_nat p) lim) (seq 1 k) in
  concat pages = take (k * Z.to_nat lim) frame /\
  ((df_len frame <= Z.of_nat k * lim)%Z -> concat pages = frame).
Proof.
  intros Hlim pages. subst pages. rewrite (pages_concat frame lim k Hlim).
  split; [reflexivity|]. unfold df_len. intros H. apply take_ge. nia.
Qed.

Lemma X16_witness :
  let row := row_of_blob [] in
  let frame := read_sql [row; row; row; row; row] in
  (1 <= 2)%Z /\
  concat [page_rows frame 1 2; page_rows frame 2 2; page_rows frame 3 2] = frame.
Proof.
  intros row frame. split; [lia|].
  destruct (X16_pages_partition_the_frame frame 2 3) as [_ H]; [lia|].
  apply H. vm_compute. discriminate.
Defined.

Lemma format_paper_outcome (row : Row) (detail_view : bool) :
  (year_is_nan row = true -> format_paper row detail_view = Raise ValueError) /\
  (year_is_nan row = false -> exists paper, format_paper row detail_view = Ok paper).
Proof.
  unfold year_is_nan, format_paper, int_if_true.
  destruct (publication_year row) as [| |y]; (split; [|]); try discriminate;
    intros _; try reflexivity.
  - destruct detail_view; eexists; reflexivity.
  - destruct (y =? 0)%Z, detail_view; eexists; reflexivity.
Qed.

Lemma format_rows_outcome (rows : DataFrame) :
  (has_nan_year rows = true -> format_rows rows = Raise ValueError) /\
  (has_nan_year rows = false ->
   exists papers, format_rows rows = Ok papers /\ Forall2 shown_as rows papers).
Proof.
  induction rows as [|[i row] rows [IH1 IH2]].
  - split; [discriminate|]. intros _. exists []. split; [reflexivity | constructor].
  - unfold has_nan_year in *. cbn [existsb snd format_rows].
    destruct (format_paper_outcome row false) as [Hnan Hnum].
    destruct (year_is_nan row).
    + split; [|discriminate]. intros _. rewrite Hnan; reflexivity.
    + destruct Hnum as [paper Hpaper]; [reflexivity|]. rewrite Hpaper.
      cbn [orb]. split.
      * intros H. rewrite (IH1 H). reflexivity.
      * intros H. destruct (IH2 H) as (papers & E & Hall). rewrite E.
        exists (summary_of paper :: papers). split; [reflexivity|].
        constructor; [|exact Hall]. exists paper. split; [exact Hpaper | reflexivity].
Qed.

Lemma page_rows_nil pg lim : page_rows [] pg lim = [].
Proof. unfold page_rows, iloc_slice. rewrite drop_nil. apply take_nil. Qed.

(** What [_create_paginated_response] does, step by step. *)
Lemma paginated_outcome h a frame pg lim applied :
  h !! a = Some frame ->
  _create_paginated_response a pg lim applied h =
  if df_empty frame
  then Ok (mkPaginatedResponse [] (mkPagination pg lim 0 0 false false)
                               (or_empty applied), h)
  else match true_div (df_len frame) lim with
       | Raise e => Raise e
       | Ok quotient =>
           match format_rows (page_rows frame pg lim) with
           | Raise e => Raise e
           | Ok papers =>
               Ok (mkPaginatedResponse papers
                     (mkPagination pg lim (df_len frame) (math_ceil quotient)
                                   (pg <? math_ceil quotient)%Z (1 <? pg)%Z)
                     (or_empty applied), h)
           end
       end.
Proof.
  intros Ha. unfold _create_paginated_response, bind, deref. rewrite Ha.
  destruct (df_empty frame); [reflexivity|]. unfold lift.
  destruct (true_div (df_len frame) lim); [|reflexivity].
  fold (page_rows frame pg lim).
  destruct (format_rows (page_rows frame pg lim)); reflexivity.
Qed.

Lemma true_div_by_zero (t : Z) : true_div t 0 = Raise ZeroDivisionError.
Proof. reflexivity. Qed.

Lemma true_div_defined (t l : Z) : l <> 0%Z -> exists q, true_div t l = Ok q.
Proof.
  intros Hl. unfold true_div. destruct (Z.eqb_spec l 0); [contradiction|].
  destruct (t =? 0)%Z; [eexists; reflexivity|].
  destruct (Z.sgn t * Z.sgn l <? 0)%Z; eexists; reflexivity.
Qed.

(** The three outcomes of a page. *)
Lemma page_outcomes h a frame pg lim applied :
  h !! a = Some frame ->
  let rows := page_rows frame pg lim in
  let outcome := _create_paginated_response a pg lim applied h in
  (frame <> [] -> lim = 0%Z -> outcome = Raise ZeroDivisionError) /\
  (lim <> 0%Z -> has_nan_year rows = true -> outcome = Raise ValueError) /\
  (frame = [] \/ lim <> 0%Z -> has_nan_year rows = false ->
   exists response,
     outcome = Ok (response, h) /\
     Forall2 shown_as rows (data response) /\
     total (pagination response) = df_len frame /\
     filters_applied response = or_empty applied).
Proof.
  intros Ha rows outcome. subst rows outcome.
  rewrite (paginated_outcome h a frame pg lim applied Ha).
  destruct frame as [|e frame].
  - rewrite page_rows_nil. cbn [df_empty].
    split; [intros H; contradiction|]. split; [discriminate|].
    intros _ _. eexists. split; [reflexivity|].
    split; [constructor|]. split; reflexivity.
  - cbn [df_empty]. set (frame' := e :: frame) in *.
    split; [intros _ ->; rewrite true_div_by_zero; reflexivity|].
    destruct (format_rows_outcome (page_rows frame' pg lim)) as [Hnan Hnum].
    split.
    + intros Hlim H. destruct (true_div_defined (df_len frame') lim Hlim) as [q ->].
      rewrite (Hnan H). reflexivity.
    + intros [E|Hlim] H; [discriminate E|].
      destruct (true_div_defined (df_len frame') lim Hlim) as [q ->].
      destruct (Hnum H) as (papers & -> & Hall).
      eexists. split; [reflexivity|]. split; [exact Hall|]. split; reflexivity.
Qed.

(** X17.  The three outcomes of a paginated response.  With rows in the
    frame and limit 0 the division raises ZeroDivisionError; otherwise a row
    of the page whose year is NaN makes [int] raise ValueError; otherwise
    the response is returned, with one summary for each row of the page, in
    the order of the page, and the store is left as it was. *)
Theorem X17_outcomes_of_a_page h a frame pg lim applied :
  h !! a = Some frame ->
  let rows := page_rows frame pg lim in
  let outcome := _create_paginated_response a pg lim applied h in
  (frame <> [] -> lim = 0%Z -> outcome = Raise ZeroDivisionError) /\
  (lim <> 0%Z -> has_nan_year rows = true -> outcome = Raise ValueError) /\
  (frame = [] \/ lim <> 0%Z -> has_nan_year rows = false ->
   exists response,
     outcome = Ok (response, h) /\
     Forall2 shown_as rows (data response) /\
     total (pagination response) = df_len frame /\
     filters_applied response = or_empty applied).
Proof. apply page_outcomes. Qed.

Lemma X17_witness :
  let nan := mkRow (Some (lit "W1")) (Some (lit "T")) (Some (lit "A."))
                   None None YearNaN None in
  let frame := read_sql [nan] in
  [frame] !! 0%nat = Some frame /\
  _create_paginated_response 0%nat 1 0 None [frame] = Raise ZeroDivisionError /\
  _create_paginated_response 0%nat 1 15 None [frame] = Raise ValueError /\
  exists response,
    _create_paginated_response 0%nat 2 15 None [frame] = Ok (response, [frame]) /\
    data response = [].
Proof.
  intros nan frame.
  destruct (X17_outcomes_of_a_page [frame] 0%nat frame 1 0 None eq_refl)
    as (H0 & _ & _).
  destruct (X17_outcomes_of_a_page [frame] 0%nat frame 1 15 None eq_refl)
    as (_ & H1 & _).
  destruct (X17_outcomes_of_a_page [frame] 0%nat frame 2 15 None eq_refl)
    as (_ & _ & H2).
  split; [reflexivity|].
  split; [apply H0; [discriminate | reflexivity]|].
  split; [apply H1; [discriminate | reflexivity]|].
  destruct H2 as (response & E & Hall & _); [right; discriminate | reflexivity|].
  exists response. split; [exact E|].
  inversion Hall. reflexivity.
Defined.

(** X18.  The flags and the data agree, for a limit of the list route and a
    frame of less than 2^46 rows: when the response is returned, a page has
    rows exactly when its number is at most [total_pages], and [has_next] is
    set exactly when the page after it has rows. *)
Theorem X18_flags_agree_with_the_pages h h' a frame pg lim applied response :
  h !! a = Some frame ->
  (1 <= pg)%Z -> (1 <= lim <= 100)%Z -> (df_len frame < 2 ^ 46)%Z ->
  _create_paginated_response a pg lim applied h = Ok (response, h') ->
  (page_rows frame pg lim <> [] <-> (pg <= total_pages (pagination response))%Z) /\
  (has_next (pagination response) = true <-> page_rows frame (pg + 1) lim <> []).
Proof.
  intros Ha Hpg Hlim Hsmall Hrun.
  rewrite (paginated_outcome h a frame pg lim applied Ha) in Hrun.
  rewrite !page_rows_not_empty by lia.
  destruct frame as [|e frame].
  - cbn [df_empty] in Hrun. injection Hrun as <- <-.
    cbn [pagination total_pages has_next]. unfold df_len. cbn [length].
    split; split; try discriminate; nia.
  - cbn [df_empty] in Hrun. set (frame' := e :: frame) in *.
    assert (Hpos : (0 < df_len frame')%Z) by (unfold df_len; cbn [frame' length]; lia).
    rewrite (true_div_returns _ _ Hpos) in Hrun by lia.
    destruct (format_rows (page_rows frame' pg lim)); [|discriminate Hrun].
    injection Hrun as <- <-. cbn [pagination total_pages has_next].
    rewrite (ceil_double_of_quotient _ lim) by lia.
    pose proof (ceil_bounds (df_len frame') lim) as Hb.
    rewrite Z.ltb_lt. split; split; nia.
Qed.

Lemma X18_witness :
  let row := mkRow (Some (lit "W")) (Some (lit "T")) (Some (lit "A."))
                   None None (YearNum 2020) None in
  let frame := read_sql [row; row; row] in
  exists response,
    _create_paginated_response 0%nat 1 2 None [frame] = Ok (response, [frame]) /\
    has_next (pagination response) = true /\
    page_rows frame 2 2 <> [].
Proof.
  intros row frame.
  assert (Hrun : exists response,
            _create_paginated_response 0%nat 1 2 None [frame] =
            Ok (response, [frame])) by (eexists; lazy; reflexivity).
  destruct Hrun as [response E]. exists response. split; [exact E|].
  assert (Hsmall : (df_len frame < 2 ^ 46)%Z) by (vm_compute; reflexivity).
  destruct (X18_flags_agree_with_the_pages [frame] [frame] 0%nat frame 1 2 None
              response eq_refl ltac:(lia) ltac:(lia) Hsmall E) as [_ H].
  assert (Hp : page_rows frame 2 2 <> []) by (vm_compute; discriminate).
  split; [apply H; exact Hp | exact Hp].
Defined.

End PageFacts.

(** ** The routes *)

Section RouteOutcomeFacts.

Import Routes.

Implicit Types (db : Database) (h : Store) (request : FilterRequest).

(** What a route fetches is a frame as [read_sql] makes it. *)
Lemma fetched_frame db h :
  exists rows,
    get_all_papers db h = Ok (length h, h ++ [read_sql rows]) /\
    _get_papers_data db h = Ok (length h, h ++ [read_sql rows]) /\
    (status db <> Up -> rows = []).
Proof.
  unfold _get_papers_data, try_catch, get_all_papers, alloc.
  destruct (status db).
  - exists (select_all (ibd_rcts db)). repeat split; congruence.
  - exists []. repeat split; reflexivity.
  - exists []. repeat split; reflexivity.
Qed.

Lemma deref_fresh h (df : DataFrame) :
  deref (length h) (h ++ [df]) = Ok (df, h ++ [df]).
Proof. unfold deref. rewrite list_lookup_middle by reflexivity. reflexivity. Qed.

Lemma or_empty_some (filters : gmap string (list str)) :
  or_empty (Some filters) = filters.
Proof.
  unfold or_empty. destruct (dict_is_empty filters) eqn:E; [|reflexivity].
  apply dict_is_empty_spec in E. congruence.
Qed.

(** X19.  The outcomes of the filter route.  Whatever the database and the
    request, the route returns a response or fails with the 500 of its own
    handler, and fails in two cases only: rows are kept and the limit is 0,
    or a row of the page has NaN for its year.  The response shows the page
    of the kept rows, counts the kept rows, and repeats the selection. *)
Theorem X19_outcomes_of_the_filter_route db request h :
  exists frame,
    get_all_papers db h = Ok (length h, h ++ [frame]) /\
    let kept := kept_rows (request_filters request) frame in
    let rows := page_rows kept (r_page request) (r_limit request) in
    let outcome := filter_papers db request h in
    let failed := Raise (HTTPException 500 "Failed to filter papers") in
    (kept <> [] -> r_limit request = 0%Z -> outcome = failed) /\
    (r_limit request <> 0%Z -> has_nan_year rows = true -> outcome = failed) /\
    (kept = [] \/ r_limit request <> 0%Z -> has_nan_year rows = false ->
     exists response h',
       outcome = Ok (response, h') /\
       Forall2 shown_as rows (data response) /\
       total (pagination response) = df_len kept /\
       filters_applied response = request_filters request).
Proof.
  destruct (fetched_frame db h) as (rows & Hall & Hget & _).
  exists (read_sql rows). split; [exact Hall|].
  set (filters := request_filters request).
  assert (Ha : (h ++ [read_sql rows]) !! length h = Some (read_sql rows))
    by (apply list_lookup_middle; reflexivity).
  destruct (apply_filters_fetched rows filters _ _ Ha)
    as (a' & h' & kept & Hrun & Hkept & Hdef & _).
  change (kept_rows filters (read_sql rows)) with
    (if dict_is_empty filters then read_sql rows
     else List.filter (keeps filters) (read_sql rows)).
  rewrite <- Hdef. clear Hdef. cbv zeta.
  assert (E : filter_papers db request h =
              match _create_paginated_response a' (r_page request)
                      (r_limit request) (Some filters) h' with
              | Ok x => Ok x
              | Raise (HTTPException c d) => Raise (HTTPException c d)
              | Raise _ => Raise (HTTPException 500 "Failed to filter papers")
              end).
  { unfold filter_papers, try_except, bind. rewrite Hget.
    fold filters. rewrite Hrun. reflexivity. }
  rewrite E.
  destruct (page_outcomes h' a' kept (r_page request) (r_limit request)
              (Some filters) Hkept) as (H0 & H1 & H2).
  split; [intros Hne Hlim; rewrite (H0 Hne Hlim); reflexivity|].
  split; [intros Hlim Hnan; rewrite (H1 Hlim Hnan); reflexivity|].
  intros Hor Hnum. destruct (H2 Hor Hnum) as (response & -> & Hshown & Htotal & Hf).
  exists response, h'. split; [reflexivity|]. split; [exact Hshown|].
  split; [exact Htotal|]. rewrite Hf. apply or_empty_some.
Qed.

Lemma keep_if_true_empty (key : string) value (filters : gmap string (list str)) :
  keep_if_true key value filters = ∅ <-> list_is_true value = false /\ filters = ∅.
Proof.
  unfold keep_if_true, list_is_true.
  destruct value as [[|label labels]|]; try (split; [auto | tauto]).
  split; [|intros [H _]; discriminate H].
  intros H. exfalso. apply (insert_non_empty filters key (label :: labels) H).
Qed.

Lemma selection_of_empty (study_types phases pharma_groups : option (list str)) :
  dict_is_empty (selection_of study_types phases pharma_groups) =
  negb (list_is_true study_types || list_is_true phases
        || list_is_true pharma_groups).
Proof.
  destruct (dict_is_empty _) eqn:E.
  - apply dict_is_empty_spec in E. unfold selection_of in E.
    apply keep_if_true_empty in E as [-> E].
    apply keep_if_true_empty in E as [-> E].
    apply keep_if_true_empty in E as [-> _]. reflexivity.
  - destruct (list_is_true study_types) eqn:E1; [reflexivity|].
    destruct (list_is_true phases) eqn:E2; [reflexivity|].
    destruct (list_is_true pharma_groups) eqn:E3; [reflexivity|].
    assert (H : selection_of study_types phases pharma_groups = ∅).
    { unfold selection_of. repeat (apply keep_if_true_empty; split; [assumption|]).
      reflexivity. }
    apply dict_is_empty_spec in H. congruence.
Qed.

(** X20.  The count route never fails.  Its total is the number of rows
    the selection keeps of the fetched frame, which is the total of the
    filter route for the same three lists; the selection is repeated in the
    answer only when it is not empty. *)
Theorem X20_count_route db (study_types phases pharma_groups : option (list str)) h :
  exists frame h',
    get_all_papers db h = Ok (length h, h ++ [frame]) /\
    let selection := selection_of study_types phases pharma_groups in
    get_papers_count db study_types phases pharma_groups h =
      Ok (mkCountResponse (df_len (kept_rows selection frame))
                          (if dict_is_empty selection then None else Some selection),
          h') /\
    forall page limit,
      request_filters (mkFilterRequest study_types phases pharma_groups page limit) =
      selection.
Proof.
  destruct (fetched_frame db h) as (rows & Hall & Hget & _).
  set (selection := selection_of study_types phases pharma_groups).
  assert (Ha : (h ++ [read_sql rows]) !! length h = Some (read_sql rows))
    by (apply list_lookup_middle; reflexivity).
  destruct (apply_filters_fetched rows selection _ _ Ha)
    as (a' & h' & kept & Hrun & Hkept & Hdef & _).
  exists (read_sql rows).
  exists (if dict_is_empty selection then h ++ [read_sql rows] else h').
  split; [exact Hall|]. cbv zeta. split; [|reflexivity].
  unfold get_papers_count, try_except, bind. rewrite Hget.
  rewrite <- selection_of_empty. fold selection.
  unfold kept_rows. destruct (dict_is_empty selection) eqn:E.
  - cbv beta iota. rewrite deref_fresh. reflexivity.
  - fold (selection_of study_types phases pharma_groups). fold selection.
    cbv beta iota. rewrite Hrun. unfold deref. cbv beta iota.
    rewrite Hkept, Hdef. reflexivity.
Qed.

(** X21.  The route of the filter options never fails: it returns the
    options of the fetched frame, and three empty lists when the database
    cannot be reached or the query fails. *)
Theorem X21_filter_options_route db h :
  exists frame,
    get_all_papers db h = Ok (length h, h ++ [frame]) /\
    Routes.get_filter_options db h =
      Ok (FilterService.get_filter_options frame, h ++ [frame]) /\
    (status db <> Up ->
     Routes.get_filter_options db h = Ok (mkFilterOptions [] [] [], h ++ [frame])).
Proof.
  destruct (fetched_frame db h) as (rows & Hall & Hget & Hdown).
  exists (read_sql rows). split; [exact Hall|].
  assert (Ha : (h ++ [read_sql rows]) !! length h = Some (read_sql rows))
    by (apply list_lookup_middle; reflexivity).
  assert (E : Routes.get_filter_options db h =
              Ok (FilterService.get_filter_options (read_sql rows),
                  h ++ [read_sql rows])).
  { unfold Routes.get_filter_options, try_except, bind.
    rewrite Hget. cbv beta iota. rewrite deref_fresh. reflexivity. }
  split; [exact E|]. intros H. rewrite E, (Hdown H). reflexivity.
Qed.

(** X22.  The detail of a known paper.  With the database up, a table that
    has a row with the id asked for, and no NaN among the years, the detail
    route answers with a paper of that id, made of a row of the table with
    that id: the title and the whole abstract cleaned, not cut to three
    sentences, and the authors parsed. *)
Theorem X22_detail_of_a_known_paper db (id : str) h :
  status db = Up ->
  (exists row, In row (ibd_rcts db) /\ work_id row = Some id) ->
  (forall row, In row (ibd_rcts db) -> year_is_nan row = false) ->
  exists row paper,
    In row (ibd_rcts db) /\ work_id row = Some id /\
    Routes.get_paper_by_id db id h = Ok (paper, h) /\
    p_work_id paper = id /\
    p_title paper = _clean_text (str_of_cell (title row)) /\
    p_abstract paper = Some (_clean_text (str_of_cell (abstract row))) /\
    p_authors paper = _parse_authors (authorships row).
Proof.
  intros Hup Hknown Hyears.
  assert (Hsel : exists row rest, select_by_id (ibd_rcts db) id = row :: rest).
  { destruct Hknown as (row & Hin & Hid).
    assert (H : In row (select_by_id (ibd_rcts db) id)).
    { apply filter_In. split; [exact Hin|]. unfold has_work_id. rewrite Hid.
      apply str_eqb_spec. reflexivity. }
    destruct (select_by_id (ibd_rcts db) id) as [|r rest]; [destruct H|].
    exists r, rest. reflexivity. }
  destruct Hsel as (row & rest & Hsel).
  assert (Hrow : In row (ibd_rcts db) /\ work_id row = Some id).
  { assert (H : In row (select_by_id (ibd_rcts db) id))
      by (rewrite Hsel; left; reflexivity).
    apply filter_In in H as [Hin Hid]. split; [exact Hin|].
    unfold has_work_id in Hid. destruct (work_id row) as [w|]; [|discriminate Hid].
    apply str_eqb_spec in Hid. subst w. reflexivity. }
  destruct Hrow as [Hin Hid].
  assert (Hget : DataService.get_paper_by_id db id = Some row).
  { unfold DataService.get_paper_by_id. rewrite Hup, Hsel. reflexivity. }
  pose proof (Hyears row Hin) as Hyear.
  unfold Routes.get_paper_by_id, try_except, lift. rewrite Hget.
  unfold format_paper, int_if_true. unfold year_is_nan in Hyear.
  destruct (publication_year row) as [| |y]; [|discriminate Hyear|].
  - eexists row, _. repeat (split; [first [exact Hin | exact Hid | reflexivity]|]).
    cbn. rewrite Hid. repeat split; reflexivity.
  - destruct (y =? 0)%Z;
      (eexists row, _; repeat (split; [first [exact Hin | exact Hid | reflexivity]|]);
       cbn; rewrite Hid; repeat split; reflexivity).
Qed.

Lemma X22_witness :
  let row := mkRow (Some (lit "W7")) (Some (lit "A <i>trial</i>"))
                   (Some (lit "One. Two. Three. Four."))
                   None (Some (lit "Roe B; Poe C")) (YearNum 2021) None in
  let db := mkDatabase Up [row] in
  exists paper,
    Routes.get_paper_by_id db (lit "W7") [] = Ok (paper, []) /\
    p_title paper = lit "A trial" /\
    p_abstract paper = Some (lit "One. Two. Three. Four.") /\
    p_authors paper = Some (lit "Roe B, Poe C").
Proof.
  intros row db.
  assert (Hknown : exists r, In r (ibd_rcts db) /\ work_id r = Some (lit "W7"))
    by (exists row; split; [left; reflexivity | reflexivity]).
  assert (Hyears : forall r, In r (ibd_rcts db) -> year_is_nan r = false).
  { intros r [<-|[]]. reflexivity. }
  destruct (X22_detail_of_a_known_paper db (lit "W7") [] eq_refl Hknown Hyears)
    as (r & paper & Hin & _ & Hrun & _ & Ht & Ha & Hau).
  destruct Hin as [<-|[]].
  exists paper. split; [exact Hrun|].
  rewrite Ht, Ha, Hau. vm_compute. repeat split; reflexivity.
Defined.

End RouteOutcomeFacts.

(** ** More on filtering twice, and on the two views *)

Section MoreRouteFacts.

Import Routes.

Implicit Types (db : Database) (h : Store) (rows : list Row).

Lemma filter_prefix {A} (p : A -> bool) (l : list A) : forall k : nat,
  (forall (i : nat) e, l !! i = Some e -> p e = bool_decide (i < k)%nat) ->
  List.filter p l = take k l.
Proof.
  induction l as [|e l IH]; intros k H; [destruct k; reflexivity|].
  cbn [List.filter]. rewrite (H 0%nat e eq_refl). destruct k as [|k].
  - rewrite bool_decide_eq_false_2 by lia. rewrite (IH 0%nat); [reflexivity|].
    intros i e' Hi. rewrite (H (S i) e' Hi).
    rewrite !bool_decide_eq_false_2 by lia. reflexivity.
  - rewrite bool_decide_eq_true_2 by lia. cbn [take]. f_equal. apply IH.
    intros i e' Hi. rewrite (H (S i) e' Hi). apply bool_decide_ext. lia.
Qed.

Lemma take_imap {A B} (f : nat -> A -> B) (l : list A) : forall k : nat,
  take k (imap f l) = imap f (take k l).
Proof.
  revert f. induction l as [|x l IH]; intros f k; [destruct k; reflexivity|].
  destruct k as [|k]; [reflexivity|]. cbn [take]. rewrite !imap_cons.
  cbn [take]. f_equal. apply IH.
Qed.

(** X23.  Filtering a filtered frame again returns the same rows when the
    first pass left no gap: if the rows kept of a fetched frame are its
    first k rows, the first pass returns these rows, and applying the same
    selection to the result returns a frame of the same rows. *)
Theorem X23_refiltering_without_a_gap rows filters h (a : ref) (k : nat) :
  h !! a = Some (read_sql rows) -> filters <> ∅ ->
  (forall (i : nat) row,
     rows !! i = Some row -> keeps filters (i, row) = bool_decide (i < k)%nat) ->
  exists (a' : ref) h' (a'' : ref) h'',
    apply_filters a filters h = Ok (a', h') /\
    h' !! a' = Some (read_sql (take k rows)) /\
    apply_filters a' filters h' = Ok (a'', h'') /\
    h'' !! a'' = Some (read_sql (take k rows)).
Proof.
  intros Ha Hne Hkeeps.
  assert (Hf : dict_is_empty filters = false).
  { destruct (dict_is_empty filters) eqn:E; [|reflexivity].
    apply dict_is_empty_spec in E. contradiction. }
  assert (Hkept : List.filter (keeps filters) (read_sql rows) =
                  read_sql (take k rows)).
  { unfold read_sql at 2. rewrite <- take_imap. apply filter_prefix.
    intros i [j row] Hi. apply read_sql_lookup in Hi as [Hj Hi].
    cbn [fst snd] in *. subst j. apply Hkeeps. exact Hi. }
  destruct (apply_filters_fetched rows filters h a Ha)
    as (a' & h' & result & Hrun & Hres & Hdef & _).
  rewrite Hf, Hkept in Hdef. subst result.
  destruct (apply_filters_fetched (take k rows) filters h' a' Hres)
    as (a'' & h'' & result & Hrun' & Hres' & Hdef' & _).
  rewrite Hf, <- Hkept, filter_keeps_twice, Hkept in Hdef'. subst result.
  exists a', h', a'', h''. auto.
Qed.

Lemma X23_witness :
  let rows := [row_of_blob "{'code': 'RCT'}"; row_of_blob "{}"] in
  let filters : gmap string (list str) :=
    {["study_types" := [lit "Randomized Controlled Trial (RCT)"]]} in
  exists (a' : ref) h' (a'' : ref) h'',
    apply_filters 0%nat filters [read_sql rows] = Ok (a', h') /\
    h' !! a' = Some (read_sql (take 1 rows)) /\
    apply_filters a' filters h' = Ok (a'', h'') /\
    h'' !! a'' = Some (read_sql (take 1 rows)).
Proof.
  intros rows filters.
  apply (X23_refiltering_without_a_gap rows filters [read_sql rows] 0%nat 1).
  - reflexivity.
  - intros E. apply dict_is_empty_spec in E. vm_compute in E. discriminate E.
  - intros [|[|i]] row Hi; [| |destruct i; discriminate Hi];
      injection Hi as <-; vm_compute; reflexivity.
Defined.

(** X24.  The list route, for a limit of at least 1.  It fails only when a
    row of the page has NaN for its year: the ValueError leaves the route,
    which has no handler, and is answered with 500.  Otherwise it returns the
    page of the fetched frame, one summary for each row and in the order of
    the frame, the number of fetched rows as the total, and no selection. *)
Theorem X24_list_route db (page limit : Z) h :
  (1 <= limit)%Z ->
  exists frame,
    get_all_papers db h = Ok (length h, h ++ [frame]) /\
    let rows := page_rows frame page limit in
    (has_nan_year rows = true ->
     get_papers db page limit h = Raise ValueError /\
     status_code (get_papers db page limit h) = 500%nat) /\
    (has_nan_year rows = false ->
     exists response,
       get_papers db page limit h = Ok (response, h ++ [frame]) /\
       Forall2 shown_as rows (data response) /\
       total (pagination response) = df_len frame /\
       filters_applied response = ∅).
Proof.
  intros Hlimit. destruct (fetched_frame db h) as (rows & Hall & Hget & _).
  exists (read_sql rows). split; [exact Hall|]. cbv zeta.
  assert (Ha : ((h ++ [read_sql rows]) : Store) !! length h = Some (read_sql rows))
    by (apply list_lookup_middle; reflexivity).
  assert (E : get_papers db page limit h =
              _create_paginated_response (length h) page limit None
                                         (h ++ [read_sql rows])).
  { unfold get_papers, bind. rewrite Hget. reflexivity. }
  rewrite E.
  destruct (page_outcomes _ _ _ page limit None Ha) as (_ & H1 & H2).
  assert (Hnz : limit <> 0%Z) by lia.
  split.
  - intros Hnan. rewrite (H1 Hnz Hnan). split; reflexivity.
  - intros Hnum. destruct (H2 (or_intror Hnz) Hnum)
      as (response & Hrun & Hshown & Htotal & Hf).
    exists response. auto.
Qed.

Lemma X24_witness :
  let row := mkRow (Some (lit "W1")) (Some (lit "T")) (Some (lit "A."))
                   None None YearNaN None in
  let db := mkDatabase Up [row] in
  (1 <= 15)%Z /\
  get_papers db 1 15 [] = Raise ValueError /\
  exists response, get_papers db 2 15 [] = Ok (response, [read_sql [row]]) /\
                   data response = [].
Proof.
  intros row db. split; [lia|].
  destruct (X24_list_route db 1 15 [] ltac:(lia)) as (frame1 & Hf1 & H1 & _).
  destruct (X24_list_route db 2 15 [] ltac:(lia)) as (frame2 & Hf2 & _ & H2).
  injection Hf1 as <-. injection Hf2 as <-.
  split; [apply H1; reflexivity|].
  destruct H2 as (response & Hrun & Hshown & _); [reflexivity|].
  exists response. split; [exact Hrun|]. inversion Hshown. reflexivity.
Defined.

(** X25.  The two views of a row.  [format_paper] fails for the list view
    exactly when it fails for the detail view, on a year that is NaN.
    Otherwise the two views agree on the id, the title, the DOI, the authors
    and the year; a year of 0 is shown as no year; the list view has no
    authorships and no output; and the abstracts agree when the cell is not
    empty and its cleaned text has at most 3 sentences. *)
Theorem X25_list_and_detail_views (row : Row) :
  (year_is_nan row = true ->
   format_paper row false = Raise ValueError /\
   format_paper row true = Raise ValueError) /\
  (year_is_nan row = false ->
   exists summary detail,
     format_paper row false = Ok summary /\
     format_paper row true = Ok detail /\
     p_work_id summary = p_work_id detail /\
     p_title summary = p_title detail /\
     p_doi summary = p_doi detail /\
     p_authors summary = p_authors detail /\
     p_publication_year summary = p_publication_year detail /\
     (publication_year row = YearNum 0 -> p_publication_year detail = None) /\
     p_authorships summary = None /\ p_output summary = None /\
     (str_of_cell (abstract row) <> [] ->
      (length (split_sentences (_clean_text (str_of_cell (abstract row)))) <= 3)%nat ->
      p_abstract summary = p_abstract detail)).
Proof.
  unfold year_is_nan, format_paper, int_if_true.
  assert (Habs : forall text : str,
            text <> [] ->
            (length (split_sentences (_clean_text text)) <= 3)%nat ->
            _truncate_abstract text = Some (_clean_text text)).
  { intros text Hne Hlen. unfold _truncate_abstract.
    destruct text; [contradiction|]. cbn [nonempty negb].
    destruct (Nat.leb_spec (length (split_sentences (_clean_text (a :: text)))) 3);
      [reflexivity | lia]. }
  destruct (publication_year row) as [| |y] eqn:Ey.
  - split; [discriminate|]. intros _.
    eexists _, _. do 7 (split; [reflexivity|]). split; [discriminate|].
    do 2 (split; [reflexivity|]). cbn [p_abstract]. apply Habs.
  - split; [|discriminate]. intros _. split; reflexivity.
  - split; [discriminate|]. intros _.
    destruct (Z.eqb_spec y 0) as [->|Hy].
    + eexists _, _. do 7 (split; [reflexivity|]). split; [reflexivity|].
      do 2 (split; [reflexivity|]). cbn [p_abstract]. apply Habs.
    + eexists _, _. do 7 (split; [reflexivity|]).
      split; [intros E; injection E as E; contradiction|].
      do 2 (split; [reflexivity|]). cbn [p_abstract]. apply Habs.
Qed.

End MoreRouteFacts.

(** ** Pages below 1 *)

Section LowPageFacts.

Import Routes.

Implicit Types (frame : DataFrame) (lim : Z).

(** X26.  The pages below 1, which the filter route does not refuse.  Page
    0 has no rows.  A page -p, for p from 1 on, is cut from the end of the
    frame: it leaves out the last p times limit rows, and shows the limit
    rows before them; so it has rows whenever the frame has more than p
    times limit rows. *)
Theorem X26_pages_below_one frame lim (p : nat) :
  (1 <= lim)%Z ->
  page_rows frame 0 lim = [] /\
  ((1 <= p)%nat ->
   page_rows frame (- Z.of_nat p) lim =
     drop (length frame - (p + 1) * Z.to_nat lim)
          (take (length frame - p * Z.to_nat lim) frame) /\
   ((Z.of_nat p * lim < df_len frame)%Z ->
    page_rows frame (- Z.of_nat p) lim <> [])).
Proof.
  intros Hlim. unfold page_rows, iloc_slice, slice_bound, df_len.
  set (n := length frame). set (l := Z.to_nat lim).
  assert (Hl : lim = Z.of_nat l) by (subst l; lia).
  split.
  - destruct (Z.ltb_spec ((0 - 1) * lim) 0) as [_|H]; [|lia].
    destruct (Z.ltb_spec ((0 - 1) * lim + lim) 0) as [H|_]; [lia|].
    replace (Z.to_nat _) with 0%nat by lia. reflexivity.
  - intros Hp.
    destruct (Z.ltb_spec ((- Z.of_nat p - 1) * lim) 0) as [_|H]; [|nia].
    destruct (Z.ltb_spec ((- Z.of_nat p - 1) * lim + lim) 0) as [_|H]; [|nia].
    set (a := (n - (p + 1) * l)%nat). set (b := (n - p * l)%nat).
    assert (Ha : Z.max 0 ((- Z.of_nat p - 1) * lim + Z.of_nat n) = Z.of_nat a)
      by (subst a; nia).
    assert (Hb : Z.max 0 ((- Z.of_nat p - 1) * lim + lim + Z.of_nat n) = Z.of_nat b)
      by (subst b; nia).
    rewrite Ha, Hb, Nat2Z.id.
    replace (Z.to_nat (Z.of_nat b - Z.of_nat a)) with (b - a)%nat by lia.
    assert (Hab : (a <= b)%nat) by (subst a b; nia).
    rewrite take_drop_commute. replace (a + (b - a))%nat with b by lia.
    split; [reflexivity|].
    intros Hmore E. apply (f_equal length) in E.
    rewrite length_drop, length_take in E. cbn [length] in E.
    fold n in E. subst a b. nia.
Qed.

Lemma X26_witness :
  let row (id : string) := mkRow (Some (lit id)) None None None None YearNone None in
  let frame := read_sql [row "A"; row "B"; row "C"; row "D"; row "E"] in
  (1 <= 2)%Z /\
  page_rows frame 0 2 = [] /\
  page_rows frame (-1) 2 = [(1%nat, row "B"); (2%nat, row "C")].
Proof.
  intros row frame. split; [lia|].
  destruct (X26_pages_below_one frame 2 1) as [H0 H1]; [lia|].
  split; [exact H0|].
  destruct H1 as [H1 _]; [lia|].
  change (- Z.of_nat 1)%Z with (-1)%Z in H1. rewrite H1. reflexivity.
Defined.

End LowPageFacts.
